(** * Restaurant controller: onboarding, KYC, business hours, menu, earnings

    A shallow embedding of [src/controllers/restaurantController.js].

    The handlers are Express request handlers written against Mongoose
    models, a cloud upload helper and the JavaScript runtime.  The embedding
    keeps that layering:

    - [Js]: JavaScript values and the built-in operations the handlers use
      (property access, truthiness, [===], [trim], [split], [join],
      [parseFloat], the relational comparison with a number, the two regular
      expressions of the file);
    - [Http]: requests, responses, the write log and the handler monad
      (early [return res.status(..).json(..)], [throw], [await]), and the
      world the handlers call into (store, upload service, runtime);
    - [Controller]: the handlers themselves, one definition per exported
      function, each step in the order of the source;
    - [Spec]: the vocabulary of the properties;
    - [Sample]: concrete worlds and requests;
    - the lemmas and theorems, grouped by handler. *)

From Stdlib Require Import List String Ascii ZArith NArith Bool Lia.
From Stdlib Require Import SpecFloat DecimalString.
Import ListNotations.
Local Open Scope string_scope.

(* ===================================================================== *)
(** * JavaScript values and built-ins                                     *)
(* ===================================================================== *)

Module Js.

(** ** Numbers: IEEE 754 binary64, as [spec_float] with [prec = 53] and
    [emax = 1024]. *)

Definition number : Type := spec_float.
Definition prec : Z := 53.
Definition emax : Z := 1024.

Definition NaN : number := S754_nan.
Definition num_of_Z (z : Z) : number := binary_normalize prec emax z 0 false.
Definition num_of_nat (n : nat) : number := num_of_Z (Z.of_nat n).
Definition num_add : number -> number -> number := SFadd prec emax.
Definition num_ltb : number -> number -> bool := SFltb.
Definition num_eqb : number -> number -> bool := SFeqb.

Definition num_is_nan (x : number) : bool :=
  match x with S754_nan => true | _ => false end.

(** [+0], [-0] and [NaN] are the falsy numbers. *)
Definition num_falsy (x : number) : bool :=
  match x with S754_zero _ | S754_nan => true | _ => false end.

(** The number denoted by the decimal [m * 10^e10] ([m >= 0]), rounded to
    nearest, ties to even. *)
Definition num_of_decimal (neg : bool) (m : Z) (e10 : Z) : number :=
  match m with
  | Zpos p =>
      match e10 with
      | Zneg k =>
          SFdiv prec emax (S754_finite neg p 0)
                (S754_finite false (Pos.pow 10 k) 0)
      | _ => binary_normalize prec emax
               (if neg then Z.opp (m * 10 ^ e10) else m * 10 ^ e10) 0 neg
      end
  | _ => S754_zero neg
  end.

(** ** Values.

    Strings are sequences of code units; this development carries the code
    units below 256 (Rocq's [ascii]).  An object is the list of its own
    enumerable properties in enumeration order ([Object.entries]); an
    array is the list of its elements. *)

#[warnings="-register-all"]
Inductive JsVal : Type :=
| JUndefined
| JNull
| JBool (b : bool)
| JNum (x : number)
| JStr (s : string)
| JArr (l : list JsVal)
| JObj (l : list (string * JsVal)).

Definition is_undefined (v : JsVal) : bool :=
  match v with JUndefined => true | _ => false end.

Definition is_nullish (v : JsVal) : bool :=
  match v with JUndefined | JNull => true | _ => false end.

(** ToBoolean. *)
Definition truthy (v : JsVal) : bool :=
  match v with
  | JUndefined | JNull => false
  | JBool b => b
  | JNum x => negb (num_falsy x)
  | JStr s => negb (s =? "")
  | JArr _ | JObj _ => true
  end.

(** [a || b]. *)
Definition js_or (a b : JsVal) : JsVal := if truthy a then a else b.

(** [a === b] where one side is a primitive (a literal of the source):
    an array or an object is never identical to it. *)
Definition strict_eq (a b : JsVal) : bool :=
  match a, b with
  | JUndefined, JUndefined => true
  | JNull, JNull => true
  | JBool x, JBool y => Bool.eqb x y
  | JNum x, JNum y => num_eqb x y
  | JStr x, JStr y => x =? y
  | _, _ => false
  end.

(** SameValueZero against a string, as [Array.prototype.includes] uses it
    on an array of string literals. *)
Definition includes (l : list string) (v : JsVal) : bool :=
  match v with
  | JStr s => existsb (String.eqb s) l
  | _ => false
  end.

(** ** Characters and strings *)

Definition code (c : ascii) : N := N_of_ascii c.

(** WhiteSpace and LineTerminator code units below 256:
    TAB, LF, VT, FF, CR, SP, NBSP. *)
Definition is_ws (c : ascii) : bool :=
  let n := code c in
  ((9 <=? n) && (n <=? 13) || (n =? 32) || (n =? 160))%N.

Definition is_digit (c : ascii) : bool :=
  let n := code c in ((48 <=? n) && (n <=? 57))%N.

Definition digit_val (c : ascii) : Z := Z.of_N (code c) - 48.

Fixpoint trimStart (s : string) : string :=
  match s with
  | String c r => if is_ws c then trimStart r else s
  | EmptyString => EmptyString
  end.

Fixpoint rev_string_acc (s acc : string) : string :=
  match s with
  | EmptyString => acc
  | String c r => rev_string_acc r (String c acc)
  end.

Definition rev_string (s : string) : string := rev_string_acc s "".

Definition trimEnd (s : string) : string :=
  rev_string (trimStart (rev_string s)).

(** [String.prototype.trim]. *)
Definition trim (s : string) : string := trimEnd (trimStart s).

(** [s.split(sep)] for a one-character separator: never the empty list. *)
Fixpoint split (sep : ascii) (s : string) : list string :=
  match s with
  | EmptyString => [""]
  | String c r =>
      if Ascii.eqb c sep then "" :: split sep r
      else match split sep r with
           | piece :: pieces => String c piece :: pieces
           | [] => [String c ""]
           end
  end.

(** [l.join(sep)] on strings. *)
Fixpoint join (sep : string) (l : list string) : string :=
  match l with
  | [] => ""
  | [x] => x
  | x :: rest => x ++ sep ++ join sep rest
  end.

(** [String.prototype.toLowerCase] on code units below 256: A-Z, and
    U+00C0-U+00DE except the multiplication sign U+00D7. *)
Definition lower_char (c : ascii) : ascii :=
  let n := code c in
  if ((65 <=? n) && (n <=? 90) ||
      (192 <=? n) && (n <=? 222) && negb (n =? 215))%N
  then ascii_of_N (n + 32) else c.

Fixpoint toLowerCase (s : string) : string :=
  match s with
  | EmptyString => EmptyString
  | String c r => String (lower_char c) (toLowerCase r)
  end.

Definition is_lower_alnum (c : ascii) : bool :=
  let n := code c in
  ((97 <=? n) && (n <=? 122) || (48 <=? n) && (n <=? 57))%N.

(** [s.replace(/[^a-z0-9]+/g, '-')]: every maximal run of characters
    outside a-z0-9 becomes one dash.  [in_run] tells whether the previous
    character was already part of such a run. *)
Fixpoint dash_runs (in_run : bool) (s : string) : string :=
  match s with
  | EmptyString => EmptyString
  | String c r =>
      if is_lower_alnum c then String c (dash_runs false r)
      else if in_run then dash_runs true r
      else String "-" (dash_runs true r)
  end.

Definition replace_non_alnum (s : string) : string := dash_runs false s.

(** ** Decimal literals: the scanner shared by [parseFloat] and
    StringToNumber. *)

Fixpoint take_digits (s : string) : string * string :=
  match s with
  | String c r =>
      if is_digit c then let '(d, rest) := take_digits r in (String c d, rest)
      else ("", s)
  | EmptyString => ("", "")
  end.

Fixpoint digits_value (acc : Z) (s : string) : Z :=
  match s with
  | EmptyString => acc
  | String c r => digits_value (10 * acc + digit_val c) r
  end.

Definition starts_with (p s : string) : bool := String.prefix p s.

Definition drop (n : nat) (s : string) : string :=
  String.substring n (String.length s - n) s.

(** ExponentPart, taken only when complete: [e] or [E], an optional sign,
    at least one digit. *)
Definition scan_exponent (s : string) : Z * string :=
  match s with
  | String c r =>
      if (Ascii.eqb c "e" || Ascii.eqb c "E")%bool then
        let '(neg, r') :=
          match r with
          | String "-" r' => (true, r')
          | String "+" r' => (false, r')
          | _ => (false, r)
          end in
        let '(ds, rest) := take_digits r' in
        if ds =? "" then (0%Z, s)
        else ((if neg then Z.opp (digits_value 0 ds) else digits_value 0 ds),
              rest)
      else (0%Z, s)
  | EmptyString => (0%Z, s)
  end.

(** The longest prefix of [s] that is a StrUnsignedDecimalLiteral, as
    (mantissa, power of ten) or infinity, with the remaining text. *)
Inductive Literal : Type :=
| LitInfinity
| LitDecimal (m : Z) (e10 : Z).

Definition scan_unsigned (s : string) : option (Literal * string) :=
  if starts_with "Infinity" s then Some (LitInfinity, drop 8 s)
  else
    let '(ip, r1) := take_digits s in
    let with_exp (ds fs rest : string) :=
      let '(e, rest') := scan_exponent rest in
      Some (LitDecimal (digits_value 0 (ds ++ fs))
                       (e - Z.of_nat (String.length fs)), rest') in
    match r1 with
    | String "." r2 =>
        let '(fp, r3) := take_digits r2 in
        if ((ip =? "") && (fp =? ""))%bool then None
        else with_exp ip fp r3
    | _ => if ip =? "" then None else with_exp ip "" r1
    end.

(** StrDecimalLiteral: an optional sign, then the unsigned literal. *)
Definition scan_signed (s : string) : option (bool * Literal * string) :=
  let '(neg, r) :=
    match s with
    | String "-" r => (true, r)
    | String "+" r => (false, r)
    | _ => (false, s)
    end in
  match scan_unsigned r with
  | Some (lit, rest) => Some (neg, lit, rest)
  | None => None
  end.

Definition literal_value (neg : bool) (lit : Literal) : number :=
  match lit with
  | LitInfinity => S754_infinity neg
  | LitDecimal m e10 => num_of_decimal neg m e10
  end.

(** [parseFloat] on a string: leading white space is skipped, the longest
    decimal-literal prefix is read, anything after it is ignored. *)
Definition parseFloat_string (s : string) : number :=
  match scan_signed (trimStart s) with
  | Some (neg, lit, _) => literal_value neg lit
  | None => NaN
  end.

(** Digits of a NonDecimalIntegerLiteral in the given radix. *)
Definition radix_digit (radix : Z) (c : ascii) : option Z :=
  let n := Z.of_N (code c) in
  let v := if ((48 <=? n) && (n <=? 57))%Z then Some (n - 48)%Z
           else if ((97 <=? n) && (n <=? 102))%Z then Some (n - 87)%Z
           else if ((65 <=? n) && (n <=? 70))%Z then Some (n - 55)%Z
           else None in
  match v with
  | Some d => if (d <? radix)%Z then Some d else None
  | None => None
  end.

Fixpoint radix_value (radix : Z) (acc : Z) (s : string) : option Z :=
  match s with
  | EmptyString => Some acc
  | String c r =>
      match radix_digit radix c with
      | Some d => radix_value radix (radix * acc + d) r
      | None => None
      end
  end.

Definition non_decimal (s : string) : option (option Z) :=
  match s with
  | String "0" (String c r) =>
      let radix :=
        if (Ascii.eqb c "x" || Ascii.eqb c "X")%bool then Some 16%Z
        else if (Ascii.eqb c "o" || Ascii.eqb c "O")%bool then Some 8%Z
        else if (Ascii.eqb c "b" || Ascii.eqb c "B")%bool then Some 2%Z
        else None in
      match radix with
      | Some rx => Some (if r =? "" then None else radix_value rx 0 r)
      | None => None
      end
  | _ => None
  end.

(** StringToNumber: the whole trimmed string has to be a literal; the empty
    string is [+0]. *)
Definition StringToNumber (s : string) : number :=
  let t := trim s in
  if t =? "" then S754_zero false
  else match non_decimal t with
       | Some (Some z) => num_of_Z z
       | Some None => NaN
       | None =>
           match scan_signed t with
           | Some (neg, lit, "") => literal_value neg lit
           | _ => NaN
           end
       end.

(** ** Thrown values.

    What the handlers catch are error objects: the runtime's
    [ReferenceError] and [TypeError], [new Error(..)] of the source, and
    the rejections of the libraries.  Only [err.message] is ever read. *)

Inductive JsError : Type :=
| ReferenceError (message : string)
| TypeError (message : string)
| Error (message : string).

Definition err_message (e : JsError) : string :=
  match e with
  | ReferenceError m | TypeError m | Error m => m
  end.

(** The completion of an expression: a value, or a throw. *)
Definition Completion (A : Type) : Type := (JsError + A)%type.

(** ** Property access.

    The property names the handlers read are data properties ([name],
    [length], [0], [path], [secure_url], ...); none of them is a method
    inherited from a prototype, so only own properties, array elements,
    string characters and [length] are looked up. *)

Fixpoint lookup (k : string) (l : list (string * JsVal)) : JsVal :=
  match l with
  | [] => JUndefined
  | (k', v) :: r => if k =? k' then v else lookup k r
  end.

Fixpoint all_digits (s : string) : bool :=
  match s with
  | EmptyString => true
  | String c r => is_digit c && all_digits r
  end.

(** A canonical numeric property key: ["0"], or digits without a leading
    zero. *)
Definition canonical_index (k : string) : option N :=
  match k with
  | EmptyString => None
  | String c r =>
      if (is_digit c && all_digits r &&
          (negb (Ascii.eqb c "0") || (r =? "")))%bool
      then Some (Z.to_N (digits_value 0 k)) else None
  end.

Definition element {A : Type} (l : list A) (i : N) : option A :=
  if (i <? N.of_nat (List.length l))%N then nth_error l (N.to_nat i)
  else None.

Fixpoint chars (s : string) : list ascii :=
  match s with
  | EmptyString => []
  | String c r => c :: chars r
  end.

(** [v[k]] for [v] neither [null] nor [undefined]. *)
Definition own (v : JsVal) (k : string) : JsVal :=
  match v with
  | JObj l => lookup k l
  | JArr l =>
      if k =? "length" then JNum (num_of_nat (List.length l))
      else match canonical_index k with
           | Some i => match element l i with Some x => x | None => JUndefined end
           | None => JUndefined
           end
  | JStr s =>
      if k =? "length" then JNum (num_of_nat (String.length s))
      else match canonical_index k with
           | Some i => match element (chars s) i with
                       | Some c => JStr (String c "")
                       | None => JUndefined
                       end
           | None => JUndefined
           end
  | _ => JUndefined
  end.

(** [v.k]: a TypeError on [null] and [undefined]. *)
Definition get (v : JsVal) (k : string) : Completion JsVal :=
  match v with
  | JUndefined =>
      inl (TypeError ("Cannot read properties of undefined (reading '" ++ k ++ "')"))
  | JNull =>
      inl (TypeError ("Cannot read properties of null (reading '" ++ k ++ "')"))
  | _ => inr (own v k)
  end.

(** [v?.[k]]. *)
Definition get_opt (v : JsVal) (k : string) : JsVal :=
  if is_nullish v then JUndefined else own v k.

(** Assignment to a property of a document, and a projection that drops
    properties. *)
Fixpoint set_prop (k : string) (v : JsVal) (l : list (string * JsVal))
  : list (string * JsVal) :=
  match l with
  | [] => [(k, v)]
  | (k', v') :: r => if k =? k' then (k, v) :: r else (k', v') :: set_prop k v r
  end.

Definition drop_props (ks : list string) (l : list (string * JsVal))
  : list (string * JsVal) :=
  filter (fun kv => negb (existsb (String.eqb (fst kv)) ks)) l.

(** [s.trim()] and [s.toLowerCase()] as method calls: on anything but a
    string the property is not a function. *)
Definition call_trim (what : string) (v : JsVal) : Completion string :=
  match v with
  | JStr s => inr (trim s)
  | JUndefined | JNull =>
      inl (TypeError ("Cannot read properties of " ++
                      (if is_undefined v then "undefined" else "null") ++
                      " (reading 'trim')"))
  | _ => inl (TypeError (what ++ ".trim is not a function"))
  end.

Definition call_toLowerCase (what : string) (v : JsVal) : Completion string :=
  match v with
  | JStr s => inr (toLowerCase s)
  | JUndefined | JNull =>
      inl (TypeError ("Cannot read properties of " ++
                      (if is_undefined v then "undefined" else "null") ++
                      " (reading 'toLowerCase')"))
  | _ => inl (TypeError (what ++ ".toLowerCase is not a function"))
  end.

(** ** Conversions.

    Number::toString is the runtime's (shortest round-trip digits); the
    development takes it as a parameter. *)

Section Conversions.

Variable Number_toString : number -> string.

(** ToString; an array joins its elements with a comma, [null] and
    [undefined] elements giving the empty string. *)
Fixpoint to_string (v : JsVal) : string :=
  match v with
  | JUndefined => "undefined"
  | JNull => "null"
  | JBool b => if b then "true" else "false"
  | JNum x => Number_toString x
  | JStr s => s
  | JArr l =>
      join "," (map (fun e => if is_nullish e then "" else to_string e) l)
  | JObj _ => "[object Object]"
  end.

(** [l.join(sep)] on values. *)
Definition join_values (sep : string) (l : list JsVal) : string :=
  join sep (map (fun e => if is_nullish e then "" else to_string e) l).

(** ToNumber; arrays and objects go through their string. *)
Definition to_number (v : JsVal) : number :=
  match v with
  | JUndefined => NaN
  | JNull => S754_zero false
  | JBool b => if b then num_of_Z 1 else S754_zero false
  | JNum x => x
  | JStr s => StringToNumber s
  | JArr _ | JObj _ => StringToNumber (to_string v)
  end.

(** [v < n] and [v > n] for a number [n]: false when [v] converts to
    [NaN]. *)
Definition lt_number (v : JsVal) (n : number) : bool :=
  num_ltb (to_number v) n.

Definition gt_number (v : JsVal) (n : number) : bool :=
  num_ltb n (to_number v).

(** [parseFloat(v)]. *)
Definition parseFloat (v : JsVal) : number := parseFloat_string (to_string v).

(** ToPrimitive on the values at hand: arrays and objects give their
    string. *)
Definition to_primitive (v : JsVal) : JsVal :=
  match v with
  | JArr _ | JObj _ => JStr (to_string v)
  | _ => v
  end.

(** [a + b]: concatenation as soon as one primitive is a string, the
    binary64 sum otherwise. *)
Definition js_add (a b : JsVal) : JsVal :=
  let pa := to_primitive a in
  let pb := to_primitive b in
  match pa, pb with
  | JStr _, _ | _, JStr _ => JStr (to_string pa ++ to_string pb)
  | _, _ => JNum (num_add (to_number pa) (to_number pb))
  end.

End Conversions.

(** ** The regular expression [/^([01]?[0-9]|2[0-3]):[0-5][0-9]$/]. *)

Definition in_range (lo hi : N) (c : ascii) : bool :=
  ((lo <=? code c) && (code c <=? hi))%N.

Definition minutes_ok (m1 m2 : ascii) : bool :=
  in_range 48 53 m1 && in_range 48 57 m2.

Definition timeRegex_match (s : string) : bool :=
  match s with
  | String h (String ":" (String m1 (String m2 EmptyString))) =>
      in_range 48 57 h && minutes_ok m1 m2
  | String h1 (String h2 (String ":" (String m1 (String m2 EmptyString)))) =>
      (in_range 48 49 h1 && in_range 48 57 h2 ||
       Ascii.eqb h1 "2" && in_range 48 51 h2) && minutes_ok m1 m2
  | _ => false
  end.

(** [typeof v === 'object']. *)
Definition typeof_object (v : JsVal) : bool :=
  match v with
  | JNull | JArr _ | JObj _ => true
  | _ => false
  end.

Definition index_key (i : nat) : string :=
  NilEmpty.string_of_uint (Nat.to_uint i).

Fixpoint indexed {A : Type} (i : nat) (l : list A) : list (string * A) :=
  match l with
  | [] => []
  | x :: rest => (index_key i, x) :: indexed (S i) rest
  end.

(** [Object.entries(v)]. *)
Definition entries (v : JsVal) : list (string * JsVal) :=
  match v with
  | JObj l => l
  | JArr l => indexed 0 l
  | JStr s => indexed 0 (map (fun c => JStr (String c "")) (chars s))
  | _ => []
  end.

(** [[...v]]: arrays and strings are the iterables among the values. *)
Definition spread (v : JsVal) : Completion (list JsVal) :=
  match v with
  | JArr l => inr l
  | JStr s => inr (map (fun c => JStr (String c "")) (chars s))
  | _ => inl (TypeError "object is not iterable")
  end.

End Js.

(* ===================================================================== *)
(** * Requests, responses and the handler monad                           *)
(* ===================================================================== *)

Module Http.
Import Js.

(** A document of the store, and [req.params]: always objects. *)
Definition Doc : Type := list (string * JsVal).

Record Request : Type := mkRequest {
  params : Doc;       (* req.params, filled by the router *)
  body : JsVal;       (* req.body *)
  files : JsVal       (* req.files, filled by the multipart parser *)
}.

Record Response : Type := mkResponse {
  status : nat;       (* res.status(..) *)
  payload : JsVal     (* res.json(..) *)
}.

(** The writes a handler commits to the document store, oldest first. *)
Inductive Write : Type :=
| RestaurantCreated (data : JsVal) (doc : Doc)   (* Restaurant.create(data) *)
| PermissionCreated (data : JsVal)               (* Permission.create(data) *)
| DocSaved (doc : Doc).                          (* doc.save() *)

Definition Log : Type := list Write.

(** A statement either falls through with a value, or leaves the handler
    with [return res.status(..).json(..)], or throws. *)
Inductive Outcome (A : Type) : Type :=
| Continue (a : A)
| Respond (r : Response)
| Throw (e : JsError).

Arguments Continue {A} a.
Arguments Respond {A} r.
Arguments Throw {A} e.

Definition Handler (A : Type) : Type := Log -> Outcome A * Log.

Definition ret {A : Type} (a : A) : Handler A := fun log => (Continue a, log).

Definition bind {A B : Type} (m : Handler A) (k : A -> Handler B) : Handler B :=
  fun log =>
    match m log with
    | (Continue a, log') => k a log'
    | (Respond r, log') => (Respond r, log')
    | (Throw e, log') => (Throw e, log')
    end.

Definition respond {A : Type} (st : nat) (p : JsVal) : Handler A :=
  fun log => (Respond (mkResponse st p), log).

Definition throw {A : Type} (e : JsError) : Handler A :=
  fun log => (Throw e, log).

(** Evaluation of an expression that may throw; also [await] of a promise
    that the world resolves or rejects. *)
Definition eval {A : Type} (c : Completion A) : Handler A :=
  match c with
  | inl e => throw e
  | inr a => ret a
  end.

Definition write (w : Write) : Handler unit :=
  fun log => (Continue tt, (log ++ [w])%list).

(** [try { body } catch (err) { res.status(..).json(..) }]. *)
Definition try_catch (body : Handler Response) (handler : JsError -> Response)
  : Log -> Response * Log :=
  fun log =>
    match body log with
    | (Continue r, log') => (r, log')
    | (Respond r, log') => (r, log')
    | (Throw e, log') => (handler e, log')
    end.

(** [items.map(f)] where [f] may throw or await; the index is passed as
    [Array.prototype.map] passes it. *)
Fixpoint map_from {A B : Type} (i : nat) (f : nat -> A -> Handler B)
  (l : list A) : Handler (list B) :=
  match l with
  | [] => ret []
  | x :: rest =>
      bind (f i x) (fun y =>
      bind (map_from (S i) f rest) (fun ys => ret (y :: ys)))
  end.

(** ** The world outside the module.

    [bcrypt] is the library a [require('bcrypt')] would give; whether the
    identifier is bound is a matter of the module's scope, below.
    [uploadOnCloudinary i path] is the [i]-th upload call of the request.
    The model operations answer as the store does at the time of the call.
    [Number_toString], [JSON_parse] and [Math_random_toString36] are the
    runtime's [Number.prototype.toString], [JSON.parse] ([None] for a
    SyntaxError) and [Math.random().toString(36)]. *)

Record Bcrypt : Type := mkBcrypt {
  genSalt : number -> Completion JsVal;
  hash : JsVal -> JsVal -> Completion JsVal
}.

Record World : Type := mkWorld {
  Number_toString : number -> string;
  JSON_parse : string -> option JsVal;
  Math_random_toString36 : string;
  ObjectId_isValid : JsVal -> bool;
  bcrypt : Bcrypt;
  uploadOnCloudinary : nat -> JsVal -> Completion JsVal;
  Restaurant_create : JsVal -> Completion Doc;
  Restaurant_findById : JsVal -> Completion (option Doc);
  Restaurant_findOne : JsVal -> Completion (option Doc);
  doc_save : Doc -> Completion unit;
  Permission_create : JsVal -> Completion Doc;
  Category_find : JsVal -> Completion (list Doc);
  Product_find : JsVal -> Completion (list Doc);
  RestaurantEarning_find : JsVal -> Completion (list Doc)
}.

End Http.

Declare Scope handler_scope.
Delimit Scope handler_scope with handler.
Notation "x <- m ;; k" := (Http.bind m (fun x => k))
  (at level 61, m at next level, right associativity) : handler_scope.
Notation "m ;; k" := (Http.bind m (fun _ => k))
  (at level 61, right associativity) : handler_scope.

(* ===================================================================== *)
(** * The controller                                                      *)
(* ===================================================================== *)

Module Controller.
Import Js Http.
Local Open Scope handler_scope.

(** The identifiers the module binds: its [require]s (lines 1-10), eight
    constants.  Evaluating an identifier that neither the module nor the
    global object of the runtime binds throws a ReferenceError; that is the
    case of [bcrypt], which createRestaurant uses and no line of the module
    declares.  createRestaurant is written over the scope, so that what
    its later steps do can also be stated for a module that binds it. *)
Definition module_scope : list string :=
  ["Restaurant"; "RestaurantEarning"; "Permission"; "Order"; "Product";
   "Category"; "mongoose"; "uploadOnCloudinary"].

Definition bound (scope : list string) (identifier : string) : bool :=
  existsb (String.eqb identifier) scope.

Definition obj_false (fields : list (string * JsVal)) : JsVal :=
  JObj (("success", JBool false) :: fields).

(** [req.body.a.b...]: plain member accesses, left to right. *)
Fixpoint get_path (v : JsVal) (path : list string) : Completion JsVal :=
  match path with
  | [] => inr v
  | f :: rest =>
      match get v f with
      | inr v' => get_path v' rest
      | inl e => inl e
      end
  end.

(** [req.body.<path>.trim()]. *)
Definition trimmed (req : Request) (path : list string) : Handler JsVal :=
  v <- eval (get_path (body req) path) ;;
  s <- eval (call_trim ("req.body." ++ join "." path) v) ;;
  ret (JStr s).

(** ** createRestaurant *)

Section CreateRestaurant.

Variable scope : list string.
Variable w : World.
Variable req : Request.

(** *** 1. Required fields *)

Definition requiredFields : list string :=
  ["name"; "ownerName"; "phone"; "email";
   "password";
   "fssaiNumber"; "gstNumber"; "aadharNumber";
   "address.street"; "address.city"; "address.state";
   "foodType"; "openingHours"].

(** The [for (const f of nestedFields)] loop: [value = value?.[f]], leaving
    the loop as soon as [value] is [undefined]. *)
Fixpoint walk (value : JsVal) (nestedFields : list string) : JsVal :=
  match nestedFields with
  | [] => value
  | f :: rest =>
      let value' := get_opt value f in
      if strict_eq value' JUndefined then value' else walk value' rest
  end.

Definition is_missing (field : string) : bool :=
  let nestedFields := split "." field in
  let value := walk (body req) nestedFields in
  strict_eq value JUndefined || strict_eq value (JStr "").

Definition missingFields : list string := filter is_missing requiredFields.

Definition required_fields_response : JsVal :=
  obj_false
    [("message", JStr ("Missing required fields: " ++ join ", " missingFields));
     ("code", JStr "REQUIRED_FIELD_MISSING")].

Definition check_required_fields : Handler unit :=
  if (0 <? List.length missingFields)%nat
  then respond 400 required_fields_response
  else ret tt.

(** *** 2. Password *)

Definition check_password : Handler unit :=
  password <- eval (get (body req) "password") ;;
  len <- eval (get password "length") ;;
  if lt_number (Number_toString w) len (num_of_Z 8) then
    respond 400
      (obj_false
         [("message", JStr "Password must be at least 8 characters long");
          ("code", JStr "WEAK_PASSWORD")])
  else ret tt.

(** *** 3. foodType *)

Definition validFoodTypes : list string := ["veg"; "non-veg"; "both"].

Definition check_foodType : Handler unit :=
  foodType <- eval (get (body req) "foodType") ;;
  t <- eval (call_trim "req.body.foodType" foodType) ;;
  if negb (includes validFoodTypes (JStr t)) then
    respond 400
      (obj_false
         [("message",
           JStr ("Invalid foodType. Allowed: " ++ join ", " validFoodTypes));
          ("code", JStr "INVALID_FOOD_TYPE")])
  else ret tt.

(** *** 4. openingHours: the inner [try]/[catch] answers 400 for whatever
    is thrown inside it. *)

Definition invalid_openingHours {A : Type} : Handler A :=
  respond 400
    (obj_false
       [("message", JStr "Invalid openingHours. Expected a valid JSON array.");
        ("code", JStr "INVALID_OPENING_HOURS")]).

Definition parse_openingHours : Handler JsVal :=
  match get (body req) "openingHours" with
  | inr text =>
      match JSON_parse w (to_string (Number_toString w) text) with
      | Some (JArr l) => ret (JArr l)
      | _ => invalid_openingHours
      end
  | inl _ => invalid_openingHours
  end.

(** *** 5. Required documents *)

Definition requiredDocs : list (string * string) :=
  [("fssaiDoc", "FSSAI License");
   ("gstDoc", "GST Certificate");
   ("aadharDoc", "Aadhar Card")].

(** [req.files?.[doc]?.[0]]. *)
Definition first_file (doc : string) : JsVal :=
  get_opt (get_opt (files req) doc) "0".

Definition missingDocs : list string :=
  map snd (filter (fun d => negb (truthy (first_file (fst d)))) requiredDocs).

Definition check_documents : Handler unit :=
  if (0 <? List.length missingDocs)%nat then
    respond 400
      (obj_false
         [("message", JStr ("Missing documents: " ++ join ", " missingDocs));
          ("code", JStr "DOCUMENT_REQUIRED")])
  else ret tt.

(** *** 6. Payment methods *)

Definition allowedPaymentMethods : list string := ["online"; "cod"; "wallet"].

Definition normalizePaymentMethods (paymentMethods : JsVal) : JsVal :=
  match paymentMethods with
  | JStr s => JArr (map (fun m => JStr (trim m)) (split "," s))
  | _ => if negb (truthy paymentMethods) then JArr [JStr "online"]
         else paymentMethods
  end.

(** [paymentMethods.filter(m => !allowedPaymentMethods.includes(m))]. *)
Definition invalidMethods (paymentMethods : JsVal) : Completion (list JsVal) :=
  match paymentMethods with
  | JArr l => inr (filter (fun m => negb (includes allowedPaymentMethods m)) l)
  | _ => inl (TypeError "paymentMethods.filter is not a function")
  end.

Definition invalid_methods_response (invalid : list JsVal) : JsVal :=
  obj_false
    [("message",
      JStr ("Invalid payment methods: " ++
            join_values (Number_toString w) ", " invalid ++
            ". Allowed: " ++ join ", " allowedPaymentMethods))].

Definition check_paymentMethods : Handler JsVal :=
  raw <- eval (get (body req) "paymentMethods") ;;
  let paymentMethods := normalizePaymentMethods raw in
  invalid <- eval (invalidMethods paymentMethods) ;;
  if (0 <? List.length invalid)%nat
  then respond 400 (invalid_methods_response invalid)
  else ret paymentMethods.

(** Steps 1 to 5, giving the parsed opening hours. *)
Definition validate_fields : Handler JsVal :=
  check_required_fields ;;
  check_password ;;
  check_foodType ;;
  openingHours <- parse_openingHours ;;
  check_documents ;;
  ret openingHours.

(** Steps 1 to 6, giving the parsed opening hours and the normalized
    payment methods. *)
Definition validate : Handler (JsVal * JsVal) :=
  openingHours <- validate_fields ;;
  paymentMethods <- check_paymentMethods ;;
  ret (openingHours, paymentMethods).

(** *** 7. Password hash: [bcrypt] is looked up in the scope. *)

Definition hash_password : Handler JsVal :=
  if bound scope "bcrypt" then
    salt <- eval (genSalt (bcrypt w) (num_of_Z 10)) ;;
    password <- eval (get (body req) "password") ;;
    eval (hash (bcrypt w) password salt)
  else throw (ReferenceError "bcrypt is not defined").

(** *** 8. Uploads: one after the other, each awaited. *)

Definition upload (i : nat) (doc : string) : Handler JsVal :=
  path <- eval (get_path (files req) [doc; "0"; "path"]) ;;
  eval (uploadOnCloudinary w i path).

Definition upload_documents : Handler (JsVal * JsVal * JsVal) :=
  fssaiDoc <- upload 0 "fssaiDoc" ;;
  gstDoc <- upload 1 "gstDoc" ;;
  aadharDoc <- upload 2 "aadharDoc" ;;
  if negb (truthy fssaiDoc) || negb (truthy gstDoc) || negb (truthy aadharDoc)
  then throw (Error "Document upload failed")
  else ret (fssaiDoc, gstDoc, aadharDoc).

(** *** 9. Slug (computed, not stored) *)

Definition make_slug : Handler string :=
  name <- eval (get (body req) "name") ;;
  lname <- eval (call_toLowerCase "req.body.name" name) ;;
  city <- eval (get_path (body req) ["address"; "city"]) ;;
  lcity <- eval (call_toLowerCase "req.body.address.city" city) ;;
  ret (replace_non_alnum lname ++ "-" ++ lcity ++ "-" ++
       substring 2 4 (Math_random_toString36 w))%string.

(** *** 10. The restaurant data *)

(** [parseFloat(x) || 0]. *)
Definition coordinate (x : JsVal) : JsVal :=
  js_or (JNum (parseFloat (Number_toString w) x)) (JNum (num_of_Z 0)).

Definition restaurantData (hashedPassword openingHours paymentMethods : JsVal)
  (docs : JsVal * JsVal * JsVal) : Handler JsVal :=
  let '(fssaiDoc, gstDoc, aadharDoc) := docs in
  name <- trimmed req ["name"] ;;
  ownerName <- trimmed req ["ownerName"] ;;
  street <- trimmed req ["address"; "street"] ;;
  city <- trimmed req ["address"; "city"] ;;
  state <- trimmed req ["address"; "state"] ;;
  pincode <- eval (get_path (body req) ["address"; "pincode"]) ;;
  zip <- (if truthy pincode then ret pincode
          else z <- eval (get_path (body req) ["address"; "zip"]) ;;
               ret (js_or z (JStr ""))) ;;
  longitude <- eval (get_path (body req) ["address"; "longitude"]) ;;
  latitude <- eval (get_path (body req) ["address"; "latitude"]) ;;
  phone <- trimmed req ["phone"] ;;
  email <- trimmed req ["email"] ;;
  foodType <- trimmed req ["foodType"] ;;
  minOrderAmount <- eval (get (body req) "minOrderAmount") ;;
  fssaiNumber <- trimmed req ["fssaiNumber"] ;;
  gstNumber <- trimmed req ["gstNumber"] ;;
  aadharNumber <- trimmed req ["aadharNumber"] ;;
  fssaiDocUrl <- eval (get fssaiDoc "secure_url") ;;
  gstDocUrl <- eval (get gstDoc "secure_url") ;;
  aadharDocUrl <- eval (get aadharDoc "secure_url") ;;
  ret (JObj
    [("name", name);
     ("ownerName", ownerName);
     ("address", JObj [("street", street); ("city", city); ("state", state);
                       ("zip", zip)]);
     ("location", JObj [("type", JStr "Point");
                        ("coordinates",
                         JArr [coordinate longitude; coordinate latitude])]);
     ("phone", phone);
     ("email", email);
     ("password", hashedPassword);
     ("openingHours", openingHours);
     ("foodType", foodType);
     ("minOrderAmount", js_or minOrderAmount (JNum (num_of_Z 100)));
     ("paymentMethods", paymentMethods);
     ("kyc", JObj [("fssaiNumber", fssaiNumber); ("gstNumber", gstNumber);
                   ("aadharNumber", aadharNumber)]);
     ("kycDocuments", JObj [("fssaiDocUrl", fssaiDocUrl);
                            ("gstDocUrl", gstDocUrl);
                            ("aadharDocUrl", aadharDocUrl)])]).

(** *** 11-12. Persistence and the answer *)

Definition defaultPermissions (restaurantId : JsVal) : JsVal :=
  JObj [("restaurantId", restaurantId);
        ("permissions",
         JObj [("canManageMenu", JBool true);
               ("canAcceptOrder", JBool false);
               ("canRejectOrder", JBool false);
               ("canManageOffers", JBool false);
               ("canViewReports", JBool true)])].

Definition created_response (newRestaurant : Doc) : Response :=
  mkResponse 201
    (JObj [("success", JBool true);
           ("code", JStr "RESTAURANT_CREATED");
           ("data", JObj [("restaurantId", lookup "_id" newRestaurant);
                          ("approvalStatus",
                           lookup "approvalStatus" newRestaurant)])]).

Definition persist (data : JsVal) : Handler Response :=
  newRestaurant <- eval (Restaurant_create w data) ;;
  write (RestaurantCreated data newRestaurant) ;;
  let permission := defaultPermissions (lookup "_id" newRestaurant) in
  eval (Permission_create w permission) ;;
  write (PermissionCreated permission) ;;
  ret (created_response newRestaurant).

Definition server_error (err : JsError) : Response :=
  mkResponse 500
    (obj_false [("message", JStr "Something went wrong");
                ("error", JStr (err_message err))]).

Definition createRestaurant_body : Handler Response :=
  v <- validate ;;
  let '(openingHours, paymentMethods) := v in
  hashedPassword <- hash_password ;;
  docs <- upload_documents ;;
  make_slug ;;
  data <- restaurantData hashedPassword openingHours paymentMethods docs ;;
  persist data.

Definition createRestaurant_in : Log -> Response * Log :=
  try_catch createRestaurant_body server_error.

End CreateRestaurant.

(** The exported handler: the module's own scope. *)
Definition createRestaurant (w : World) (req : Request)
  : Log -> Response * Log :=
  createRestaurant_in module_scope w req.

(** ** getRestaurantById *)

Definition message_only (m : string) : JsVal := JObj [("message", JStr m)].

Definition getRestaurantById (w : World) (req : Request)
  : Log -> Response * Log :=
  try_catch
    (let restaurantId := lookup "restaurantId" (params req) in
     if negb (truthy restaurantId) then
       respond 400 (message_only "restaurantId is required.")
     else if negb (ObjectId_isValid w restaurantId) then
       respond 400 (message_only "Invalid restaurantId format.")
     else
       restaurant <- eval (Restaurant_findOne w (JObj [("_id", restaurantId)])) ;;
       match restaurant with
       | None => respond 404 (message_only "Restaurant not found.")
       | Some doc =>
           ret (mkResponse 200
                  (JObj [("message", JStr "Restaurant fetched successfully.");
                         ("data", JObj doc)]))
       end)
    (fun _ => mkResponse 500 (message_only "Server error.")).

(** ** updateBusinessHours *)

Definition validDays : list string :=
  ["monday"; "tuesday"; "wednesday"; "thursday"; "friday"; "saturday";
   "sunday"].

Section BusinessHours.

Variable w : World.

(** [timeRegex.test(v)]. *)
Definition timeRegex_test (v : JsVal) : bool :=
  timeRegex_match (to_string (Number_toString w) v).

(** The [for (const [day, times] of Object.entries(businessHours))] loop. *)
Fixpoint check_days (days : list (string * JsVal)) : Handler unit :=
  match days with
  | [] => ret tt
  | (day, times) :: rest =>
      if negb (includes validDays (JStr day)) then
        respond 400 (message_only ("Invalid day: " ++ day))
      else
        startTime <- eval (get times "startTime") ;;
        endTime <- eval (get times "endTime") ;;
        closed <- eval (get times "closed") ;;
        if strict_eq closed (JBool true) then check_days rest
        else if negb (truthy startTime) || negb (truthy endTime) then
          respond 400
            (message_only ("Missing startTime or endTime for " ++ day ++ "."))
        else if negb (timeRegex_test startTime) || negb (timeRegex_test endTime)
        then
          respond 400
            (message_only ("Invalid time format for " ++ day ++ ". Use HH:mm."))
        else check_days rest
  end.

Definition updateBusinessHours (req : Request) : Log -> Response * Log :=
  try_catch
    (let restaurantId := lookup "restaurantId" (params req) in
     businessHours <- eval (get (body req) "businessHours") ;;
     if negb (truthy restaurantId) || negb (ObjectId_isValid w restaurantId) then
       respond 400 (message_only "Invalid or missing restaurantId.")
     else if negb (truthy businessHours) || negb (typeof_object businessHours)
     then respond 400 (message_only "businessHours must be a valid object.")
     else
       check_days (entries businessHours) ;;
       restaurant <- eval (Restaurant_findById w restaurantId) ;;
       match restaurant with
       | None => respond 404 (message_only "Restaurant not found.")
       | Some doc =>
           let doc' := set_prop "businessHours" businessHours doc in
           eval (doc_save w doc') ;;
           write (DocSaved doc') ;;
           ret (mkResponse 200
                  (JObj [("message", JStr "Business hours updated successfully.");
                         ("businessHours", lookup "businessHours" doc')]))
       end)
    (fun _ => mkResponse 500 (message_only "Server error.")).

End BusinessHours.

(** ** addKyc and getKyc *)

Section Kyc.

Variable w : World.

(** [result && result.secure_url], then [result.secure_url]. *)
Definition uploaded_urls (uploads : list JsVal) : list JsVal :=
  map (fun result => own result "secure_url")
      (filter (fun result => truthy result && truthy (own result "secure_url"))
              uploads).

(** [Promise.all(req.files.map(file => uploadOnCloudinary(file.path)))]. *)
Definition upload_all (fs : JsVal) : Handler (list JsVal) :=
  match fs with
  | JArr l =>
      paths <- map_from 0 (fun _ file => eval (get file "path")) l ;;
      map_from 0 (fun i path => eval (uploadOnCloudinary w i path)) paths
  | _ => throw (TypeError "req.files.map is not a function")
  end.

Definition addKyc (req : Request) : Log -> Response * Log :=
  try_catch
    (let restaurantId := lookup "restaurantId" (params req) in
     restaurant <- eval (Restaurant_findById w restaurantId) ;;
     match restaurant with
     | None => respond 404 (message_only "Restaurant not found.")
     | Some doc =>
         kycUrls <-
           (if truthy (files req) &&
               gt_number (Number_toString w) (own (files req) "length")
                         (num_of_Z 0)
            then uploads <- upload_all (files req) ;;
                 ret (uploaded_urls uploads)
            else ret []) ;;
         old <- eval (spread (lookup "kycDocuments" doc)) ;;
         let doc1 := set_prop "kycDocuments" (JArr (old ++ kycUrls)) doc in
         let doc2 := set_prop "kycStatus" (JStr "pending") doc1 in
         eval (doc_save w doc2) ;;
         write (DocSaved doc2) ;;
         ret (mkResponse 200
                (JObj [("message", JStr "KYC documents uploaded successfully.");
                       ("restaurant", JObj doc2)]))
     end)
    (fun _ => mkResponse 500 (message_only "Server error while uploading KYC.")).

Definition getKyc (req : Request) : Log -> Response * Log :=
  try_catch
    (let restaurantId := lookup "restaurantId" (params req) in
     restaurant <- eval (Restaurant_findById w restaurantId) ;;
     match restaurant with
     | None => respond 404 (message_only "Restaurant not found.")
     | Some doc =>
         ret (mkResponse 200
                (JObj [("message", JStr "KYC details fetched successfully.");
                       ("kycDocuments",
                        js_or (lookup "kycDocuments" doc) (JArr []));
                       ("kycStatus",
                        js_or (lookup "kycStatus" doc) (JStr "not-submitted"))]))
     end)
    (fun _ => mkResponse 500 (message_only "Server error while fetching KYC.")).

End Kyc.

(** ** getRestaurantMenu *)

Section Menu.

Variable w : World.

Definition failure (m : string) : JsVal :=
  JObj [("message", JStr m); ("messageType", JStr "failure"); ("data", JNull)].

(** [.select('-revenueShare -costPrice -profitMargin')]. *)
Definition hidden_fields : list string :=
  ["revenueShare"; "costPrice"; "profitMargin"].

Definition menu_entry (restaurantId : JsVal) (category : Doc) : Handler JsVal :=
  found <- eval (Product_find w
                   (JObj [("restaurantId", restaurantId);
                          ("categoryId", lookup "_id" category)])) ;;
  let products := map (drop_props hidden_fields) found in
  ret (JObj [("categoryId", lookup "_id" category);
             ("categoryName", lookup "name" category);
             ("description", lookup "description" category);
             ("images", lookup "images" category);
             ("totalProducts", JNum (num_of_nat (List.length products)));
             ("items", JArr (map JObj products))]).

Definition getRestaurantMenu (req : Request) : Log -> Response * Log :=
  let restaurantId := lookup "restaurantId" (params req) in
  try_catch
    (if negb (ObjectId_isValid w restaurantId) then
       respond 400 (failure "Invalid restaurantId format")
     else
       categories <- eval (Category_find w
                             (JObj [("restaurantId", restaurantId);
                                    ("active", JBool true)])) ;;
       if (List.length categories =? 0)%nat then
         respond 404 (failure "No categories found for this restaurant.")
       else
         menu <- map_from 0 (fun _ category => menu_entry restaurantId category)
                   categories ;;
         ret (mkResponse 200
                (JObj [("message", JStr "Menu fetched successfully");
                       ("messageType", JStr "success");
                       ("data", JArr menu)])))
    (fun _ => mkResponse 500 (failure "Failed to fetch restaurant menu")).

End Menu.

(** ** getRestaurantEarningSummary *)

Section Earnings.

Variable w : World.

(** The accumulator [{ totalAmount, totalRevenue }] of the [reduce]. *)
Definition accumulate (acc : JsVal * JsVal) (curr : Doc) : JsVal * JsVal :=
  let zero := JNum (num_of_Z 0) in
  (js_add (Number_toString w) (fst acc)
          (js_or (lookup "totalOrderAmount" curr) zero),
   js_add (Number_toString w) (snd acc)
          (js_or (lookup "revenueShareAmount" curr) zero)).

Definition summarize (totalEarnings : list Doc) : JsVal :=
  let zero := JNum (num_of_Z 0) in
  let '(totalAmount, totalRevenue) :=
    fold_left accumulate totalEarnings (zero, zero) in
  JObj [("totalAmount", totalAmount); ("totalRevenue", totalRevenue)].

Definition getRestaurantEarningSummary (req : Request)
  : Log -> Response * Log :=
  try_catch
    (let restaurantId := lookup "restaurantId" (params req) in
     totalEarnings <- eval (RestaurantEarning_find w
                              (JObj [("restaurantId", restaurantId)])) ;;
     ret (mkResponse 200
            (JObj [("success", JBool true);
                   ("summary", summarize totalEarnings)])))
    (fun _ =>
       mkResponse 500
         (obj_false [("message", JStr "Failed to fetch earning summary")])).

End Earnings.

End Controller.

(* ===================================================================== *)
(** * The vocabulary of the properties                                    *)
(* ===================================================================== *)

Module Spec.
Import Js Http Controller.
Local Open Scope handler_scope.

(** ** Handler fragments *)

(** A handler fragment is [quiet] when it commits no write and never
    answers: it either continues or throws. *)
Definition quiet {A : Type} (m : Handler A) : Prop :=
  forall log, snd (m log) = log /\ forall r, fst (m log) <> Respond r.

(** A fragment is [readonly] when it commits no write. *)
Definition readonly {A : Type} (m : Handler A) : Prop :=
  forall log, snd (m log) = log.

(** A fragment [answers P] when every response it gives satisfies [P]. *)
Definition answers {A : Type} (P : Response -> Prop) (m : Handler A) : Prop :=
  forall log r, fst (m log) = Respond r -> P r.

(** A fragment [returns P] when every value it falls through with
    satisfies [P]. *)
Definition returns {A : Type} (P : A -> Prop) (m : Handler A) : Prop :=
  forall log a, fst (m log) = Continue a -> P a.

Definition is_400 (r : Response) : Prop := status r = 400.

Definition not_400 (r : Response) : Prop := status r <> 400.

(** ** Required fields *)

(** The value a dotted path resolves to: optional chaining all the way. *)
Definition resolve (v : JsVal) (field : string) : JsVal :=
  fold_left get_opt (split "." field) v.

(** Undefined or the empty string. *)
Definition blank (v : JsVal) : Prop := v = JUndefined \/ v = JStr "".

Definition blankb (v : JsVal) : bool :=
  match v with
  | JUndefined => true
  | JStr s => s =? ""
  | _ => false
  end.

(** ** Payment methods *)

Definition not_allowed (m : JsVal) : bool :=
  negb (includes allowedPaymentMethods m).






(** ** Uploads *)

(** [req.files.<doc>[0].path]. *)
Definition document_path (req : Request) (doc : string) : JsVal :=
  own (own (own (files req) doc) "0") "path".

(** The [i]-th upload fails: the promise rejects, or resolves to a falsy
    value. *)
Definition upload_fails (w : World) (req : Request) (i : nat) (doc : string)
  : bool :=
  match uploadOnCloudinary w i (document_path req doc) with
  | inl _ => true
  | inr result => negb (truthy result)
  end.

(** ** Runs of createRestaurant *)

Definition permissions_created (l : Log) : list JsVal :=
  flat_map (fun wr => match wr with PermissionCreated d => [d] | _ => [] end) l.

Definition restaurants_created (l : Log) : list Doc :=
  flat_map (fun wr => match wr with RestaurantCreated _ d => [d] | _ => [] end) l.

Section Runs.

Variable scope : list string.
Variable w : World.
Variable req : Request.

(** What a run of the handler can be: a validation answer; a throw before
    anything is written; the restaurant written and the permission
    refused; or both written and the 201 answer. *)
Inductive Run (log : Log) : Response * Log -> Prop :=
| RunInvalid resp :
    validate w req log = (Respond resp, log) ->
    status resp = 400 ->
    Run log (resp, log)
| RunThrown e :
    Run log (server_error e, log)
| RunOrphan v h docs data doc e :
    validate w req log = (Continue v, log) ->
    hash_password scope w req log = (Continue h, log) ->
    upload_documents w req log = (Continue docs, log) ->
    restaurantData w req h (fst v) (snd v) docs log = (Continue data, log) ->
    Restaurant_create w data = inr doc ->
    Permission_create w (defaultPermissions (lookup "_id" doc)) = inl e ->
    Run log (server_error e, (log ++ [RestaurantCreated data doc])%list)
| RunCreated v h docs data doc pdoc :
    validate w req log = (Continue v, log) ->
    hash_password scope w req log = (Continue h, log) ->
    upload_documents w req log = (Continue docs, log) ->
    restaurantData w req h (fst v) (snd v) docs log = (Continue data, log) ->
    Restaurant_create w data = inr doc ->
    Permission_create w (defaultPermissions (lookup "_id" doc)) = inr pdoc ->
    Run log (created_response doc,
             (log ++ [RestaurantCreated data doc;
                      PermissionCreated
                        (defaultPermissions (lookup "_id" doc))])%list).

End Runs.

(** ** Coordinates *)

(** The request with [address.longitude] and [address.latitude] replaced;
    a request without an address object is left as it is. *)
Definition with_coordinates (longitude latitude : JsVal) (req : Request)
  : Request :=
  match body req with
  | JObj b =>
      match lookup "address" b with
      | JObj a =>
          mkRequest (params req)
            (JObj (set_prop "address"
                     (JObj (set_prop "latitude" latitude
                              (set_prop "longitude" longitude a))) b))
            (files req)
      | _ => req
      end
  | _ => req
  end.

(** ** Business hours *)

(** The rule for one day: a weekday name, and either closed, or both times
    given and in HH:MM form. *)
Definition day_ok (w : World) (entry : string * JsVal) : bool :=
  includes validDays (JStr (fst entry)) &&
  (strict_eq (own (snd entry) "closed") (JBool true) ||
   truthy (own (snd entry) "startTime") && truthy (own (snd entry) "endTime") &&
   timeRegex_test w (own (snd entry) "startTime") &&
   timeRegex_test w (own (snd entry) "endTime")).

(** The day maps to a value that can be destructured. *)
Definition has_times (entry : string * JsVal) : Prop :=
  is_nullish (snd entry) = false.

(** ** Menu *)

(** The menu entry of a category, given the products of each. *)
Definition menu_entry_of (products_of : Doc -> list Doc) (category : Doc)
  : JsVal :=
  let products := map (drop_props hidden_fields) (products_of category) in
  JObj [("categoryId", lookup "_id" category);
        ("categoryName", lookup "name" category);
        ("description", lookup "description" category);
        ("images", lookup "images" category);
        ("totalProducts", JNum (num_of_nat (List.length products)));
        ("items", JArr (map JObj products))].

(** ** Earnings *)

(** A number, or absent ([undefined] or [null]). *)
Definition numeric_or_absent (v : JsVal) : Prop :=
  match v with
  | JNum _ | JUndefined | JNull => True
  | _ => False
  end.

Definition amounts_numeric (record : Doc) : Prop :=
  numeric_or_absent (lookup "totalOrderAmount" record) /\
  numeric_or_absent (lookup "revenueShareAmount" record).

(** The amount a record contributes: its value, or 0 when the value is
    absent (or is itself 0 or NaN, which [|| 0] also replaces). *)
Definition amount (field : string) (record : Doc) : number :=
  match lookup field record with
  | JNum x => if num_falsy x then num_of_Z 0 else x
  | _ => num_of_Z 0
  end.

(** The binary64 sum of the amounts, from 0, in the order of the records. *)
Definition total (field : string) (records : list Doc) : number :=
  fold_left num_add (map (amount field) records) (num_of_Z 0).

End Spec.

(* ===================================================================== *)
(** * Sample worlds and requests                                          *)
(* ===================================================================== *)

Module Sample.
Import Js Http Controller.

(** Number::toString on the integers below 10^21, which print as their
    decimal digits; the samples print no other number. *)
Definition integer_toString (x : number) : string :=
  match x with
  | S754_zero _ => "0"
  | S754_nan => "NaN"
  | S754_infinity neg => if neg then "-Infinity" else "Infinity"
  | S754_finite neg m e =>
      let digits :=
        NilEmpty.string_of_uint (N.to_uint (Z.to_N (Z.shiftl (Zpos m) e))) in
      if neg then "-" ++ digits else digits
  end.

(** [JSON.parse], tabulated on the texts the samples send. *)
Definition parse_sample (text : string) : option JsVal :=
  if text =? "[]" then Some (JArr [])
  else if text =? "{}" then Some (JObj [])
  else if text =? "null" then Some JNull
  else None.

Definition is_hex (c : ascii) : bool :=
  in_range 48 57 c || in_range 97 102 c || in_range 65 70 c.

(** The 24 hexadecimal digits of an ObjectId. *)
Definition hex24 (v : JsVal) : bool :=
  match v with
  | JStr s => (String.length s =? 24)%nat && forallb is_hex (chars s)
  | _ => false
  end.

Definition sample_id : string := "64b7f0c2a1e4d5f6a7b8c9d0".

Definition sample_bcrypt : Bcrypt :=
  mkBcrypt (fun _ => inr (JStr "$2b$10$abcdefghijklmnopqrstuv"))
           (fun _ salt =>
              match salt with
              | JStr s => inr (JStr (s ++ "0123456789012345678901234567890"))
              | _ => inl (Error "Invalid salt")
              end).

Definition sample_restaurant : Doc :=
  [("_id", JStr sample_id);
   ("name", JStr "Spice Hub");
   ("kycDocuments", JArr []);
   ("approvalStatus", JStr "pending")].

Definition find_sample (id : JsVal) : Completion (option Doc) :=
  if hex24 id then
    inr (if strict_eq id (JStr sample_id) then Some sample_restaurant else None)
  else inl (Error "Cast to ObjectId failed")%string.

(** A world in which every collaborator succeeds. *)
Definition world : World :=
  {| Number_toString := integer_toString;
     JSON_parse := parse_sample;
     Math_random_toString36 := "0.k3x9q2m7";
     ObjectId_isValid := hex24;
     bcrypt := sample_bcrypt;
     uploadOnCloudinary := fun _ path =>
       inr (JObj [("secure_url", JStr "https://res.cloudinary.com/doc.pdf")]);
     Restaurant_create := fun data =>
       inr (("_id", JStr sample_id) :: ("approvalStatus", JStr "pending")
            :: entries data);
     Restaurant_findById := find_sample;
     Restaurant_findOne := fun query => find_sample (own query "_id");
     doc_save := fun _ => inr tt;
     Permission_create := fun data => inr (entries data);
     Category_find := fun _ => inr [];
     Product_find := fun _ => inr [];
     RestaurantEarning_find := fun _ => inr [] |}.

(** The same world, but the second upload resolves to [null]. *)
Definition world_upload_fails : World :=
  {| Number_toString := integer_toString;
     JSON_parse := parse_sample;
     Math_random_toString36 := "0.k3x9q2m7";
     ObjectId_isValid := hex24;
     bcrypt := sample_bcrypt;
     uploadOnCloudinary := fun i path =>
       if (i =? 1)%nat then inr JNull
       else inr (JObj [("secure_url", JStr "https://res.cloudinary.com/doc.pdf")]);
     Restaurant_create := Restaurant_create world;
     Restaurant_findById := find_sample;
     Restaurant_findOne := Restaurant_findOne world;
     doc_save := fun _ => inr tt;
     Permission_create := Permission_create world;
     Category_find := fun _ => inr [];
     Product_find := fun _ => inr [];
     RestaurantEarning_find := fun _ => inr [] |}.

Definition file (path : string) : JsVal :=
  JArr [JObj [("fieldname", JStr "doc"); ("path", JStr path)]].

Definition three_documents : JsVal :=
  JObj [("fssaiDoc", file "uploads/fssai.pdf");
        ("gstDoc", file "uploads/gst.pdf");
        ("aadharDoc", file "uploads/aadhar.pdf")].

Definition onboarding_fields (address : list (string * JsVal))
  : list (string * JsVal) :=
  [("name", JStr "Spice Hub");
   ("ownerName", JStr "Asha Rao");
   ("phone", JStr "9876543210");
   ("email", JStr "owner@spicehub.in");
   ("password", JStr "s3cretpass");
   ("fssaiNumber", JStr "12345678901234");
   ("gstNumber", JStr "22AAAAA0000A1Z5");
   ("aadharNumber", JStr "123412341234");
   ("address", JObj address);
   ("foodType", JStr "veg");
   ("openingHours", JStr "[]")].

Definition street_address : list (string * JsVal) :=
  [("street", JStr "12 MG Road"); ("city", JStr "Pune");
   ("state", JStr "MH")].

(** A complete onboarding request, without coordinates and without
    payment methods. *)
Definition onboarding : Request :=
  mkRequest [] (JObj (onboarding_fields street_address)) three_documents.

(** The scope the module would have with [require('bcrypt')]. *)
Definition scope_with_bcrypt : list string := "bcrypt" :: module_scope.

(** ** createRestaurant *)

(** What the handler does with [onboarding] once [bcrypt] is bound. *)
Definition onboarding_run : Response * Log :=
  createRestaurant_in scope_with_bcrypt world onboarding [].

(** An onboarding request that leaves out most fields; the city is empty. *)
Definition incomplete : Request :=
  mkRequest []
    (JObj [("name", JStr "Spice Hub");
           ("address", JObj [("street", JStr "12 MG Road"); ("city", JStr "")])])
    JUndefined.


(** [onboarding] with a longitude that is no number and no latitude. *)
Definition onboarding_lost : Request :=
  mkRequest []
    (JObj (onboarding_fields (("longitude", JStr "east") :: street_address)))
    three_documents.

Definition lost_run : Response * Log :=
  createRestaurant_in scope_with_bcrypt world onboarding_lost [].

Definition first_created (l : Log) : JsVal * Doc :=
  match l with
  | RestaurantCreated data doc :: _ => (data, doc)
  | _ => (JUndefined, [])
  end.

(** ** updateBusinessHours *)

Definition closed_on_monday : list (string * JsVal) :=
  [("monday", JObj [("closed", JBool true)])].

Definition hours_request (days : list (string * JsVal)) : Request :=
  mkRequest [("restaurantId", JStr sample_id)]
            (JObj [("businessHours", JObj days)]) JUndefined.

(** ** addKyc, getKyc, getRestaurantById *)

Definition malformed_id_request : Request :=
  mkRequest [("restaurantId", JStr "not-an-object-id")] (JObj []) JUndefined.

(** ** getRestaurantMenu *)

Definition starters : Doc :=
  [("_id", JStr "64b7f0c2a1e4d5f6a7b8c9d1"); ("name", JStr "Starters");
   ("description", JStr "Small plates"); ("images", JArr []);
   ("active", JBool true)].

Definition desserts : Doc :=
  [("_id", JStr "64b7f0c2a1e4d5f6a7b8c9d2"); ("name", JStr "Desserts");
   ("description", JStr "Sweets"); ("images", JArr []);
   ("active", JBool true)].

Definition samosa : Doc :=
  [("_id", JStr "64b7f0c2a1e4d5f6a7b8c9e1"); ("name", JStr "Samosa");
   ("price", JNum (num_of_Z 40));
   ("costPrice", JNum (num_of_Z 22));
   ("profitMargin", JNum (num_of_Z 18));
   ("revenueShare", JNum (num_of_Z 5))].

(** The products of a category: one starter, no dessert. *)
Definition products_of (category : Doc) : list Doc :=
  if strict_eq (lookup "_id" category) (lookup "_id" starters)
  then [samosa] else [].

Definition world_with_menu : World :=
  {| Number_toString := integer_toString;
     JSON_parse := parse_sample;
     Math_random_toString36 := "0.k3x9q2m7";
     ObjectId_isValid := hex24;
     bcrypt := sample_bcrypt;
     uploadOnCloudinary := uploadOnCloudinary world;
     Restaurant_create := Restaurant_create world;
     Restaurant_findById := find_sample;
     Restaurant_findOne := Restaurant_findOne world;
     doc_save := fun _ => inr tt;
     Permission_create := Permission_create world;
     Category_find := fun query =>
       if strict_eq (own query "restaurantId") (JStr sample_id)
       then inr [starters; desserts] else inr [];
     Product_find := fun query =>
       inr (products_of [("_id", own query "categoryId")]);
     RestaurantEarning_find := fun _ => inr [] |}.

Definition menu_request : Request :=
  mkRequest [("restaurantId", JStr sample_id)] JUndefined JUndefined.

(** ** getRestaurantEarningSummary *)

Definition earning (totalOrderAmount revenueShareAmount : Z) : Doc :=
  [("totalOrderAmount", JNum (num_of_Z totalOrderAmount));
   ("revenueShareAmount", JNum (num_of_Z revenueShareAmount))].

Definition world_with_earnings : World :=
  {| Number_toString := integer_toString;
     JSON_parse := parse_sample;
     Math_random_toString36 := "0.k3x9q2m7";
     ObjectId_isValid := hex24;
     bcrypt := sample_bcrypt;
     uploadOnCloudinary := uploadOnCloudinary world;
     Restaurant_create := Restaurant_create world;
     Restaurant_findById := find_sample;
     Restaurant_findOne := Restaurant_findOne world;
     doc_save := fun _ => inr tt;
     Permission_create := Permission_create world;
     Category_find := fun _ => inr [];
     Product_find := fun _ => inr [];
     RestaurantEarning_find := fun _ => inr [earning 100 10; earning 50 5] |}.

End Sample.

(* ===================================================================== *)
(** * The other handlers of the controller                                *)
(* ===================================================================== *)

Module Operations.
Import Js Http Controller.
Local Open Scope handler_scope.

(** What these handlers call besides the world of the handlers above:
    [Restaurant.find()], [doc.deleteOne()], [Permission.deleteOne(query)],
    [Order.findById(id)], and the caught error as [res.json] shows it
    (updateRestaurant puts the error object itself in its answer). *)
Record Models : Type := mkModels {
  world : World;
  Restaurant_find : Completion (list Doc);
  doc_deleteOne : Doc -> Completion unit;
  Permission_deleteOne : JsVal -> Completion unit;
  Order_findById : JsVal -> Completion (option Doc);
  error_json : JsError -> JsVal
}.

(** ** updateRestaurant *)

(** [if (v) restaurant.k = v]. *)
Definition assign_truthy (k : string) (v : JsVal) (doc : Doc) : Doc :=
  if truthy v then set_prop k v doc else doc.

(** The ten assignments of the basic fields, in the order of the source;
    [isActive] is the one tested against [undefined]. *)
Definition apply_fields (fields : JsVal) (doc : Doc) : Doc :=
  let doc := assign_truthy "name" (own fields "name") doc in
  let doc := assign_truthy "phone" (own fields "phone") doc in
  let doc := assign_truthy "email" (own fields "email") doc in
  let doc := assign_truthy "foodType" (own fields "foodType") doc in
  let doc := assign_truthy "merchantSearchName"
               (own fields "merchantSearchName") doc in
  let doc := assign_truthy "minOrderAmount" (own fields "minOrderAmount") doc in
  let doc := assign_truthy "paymentMethods" (own fields "paymentMethods") doc in
  let doc := assign_truthy "openingHours" (own fields "openingHours") doc in
  let doc := if negb (strict_eq (own fields "isActive") JUndefined)
             then set_prop "isActive" (own fields "isActive") doc else doc in
  assign_truthy "status" (own fields "status") doc.

(** [target.k = v]: a TypeError on [null] and [undefined]; outside strict
    mode the assignment to a primitive is dropped.  An array carries its
    elements only in this development, so a named property set on one is
    not kept. *)
Definition set_member (target : JsVal) (k : string) (v : JsVal)
  : Completion JsVal :=
  match target with
  | JObj l => inr (JObj (set_prop k v l))
  | JUndefined =>
      inl (TypeError ("Cannot set properties of undefined (setting '" ++ k ++ "')"))
  | JNull =>
      inl (TypeError ("Cannot set properties of null (setting '" ++ k ++ "')"))
  | _ => inr target
  end.

(** [restaurant.address.<field> = address?.<given> || restaurant.address.<field>]. *)
Definition merge_address_field (address : JsVal) (given field : string)
  (doc : Doc) : Handler Doc :=
  let offered := get_opt address given in
  value <- (if truthy offered then ret offered
            else eval (get (lookup "address" doc) field)) ;;
  target <- eval (set_member (lookup "address" doc) field value) ;;
  ret (set_prop "address" target doc).

(** The [if (address) { ... }] block. *)
Definition merge_address (address : JsVal) (doc : Doc) : Handler Doc :=
  if truthy address then
    doc <- merge_address_field address "street" "street" doc ;;
    doc <- merge_address_field address "city" "city" doc ;;
    doc <- merge_address_field address "state" "state" doc ;;
    doc <- merge_address_field address "pincode" "zip" doc ;;
    let coordinates := own address "coordinates" in
    if truthy coordinates &&
       strict_eq (own coordinates "length") (JNum (num_of_Z 2))
    then
      ret (set_prop "location"
             (JObj [("type", JStr "Point");
                    ("coordinates",
                     JArr [own coordinates "1"; own coordinates "0"])])
             doc)
    else ret doc
  else ret doc.

(** The [if (req.files && req.files.length > 0) { ... }] block. *)
Definition replace_images (w : World) (req : Request) (doc : Doc)
  : Handler Doc :=
  if truthy (files req) &&
     gt_number (Number_toString w) (own (files req) "length") (num_of_Z 0)
  then
    uploads <- upload_all w (files req) ;;
    ret (set_prop "images" (JArr (uploaded_urls uploads)) doc)
  else ret doc.

(** The document as the handler leaves it before [save]. *)
Definition updated (w : World) (req : Request) (doc : Doc) : Handler Doc :=
  let doc := apply_fields (body req) doc in
  doc <- merge_address (own (body req) "address") doc ;;
  replace_images w req doc.

Definition updateRestaurant (m : Models) (req : Request)
  : Log -> Response * Log :=
  try_catch
    (if negb (truthy (body req)) then
       respond 400 (message_only "Request body is missing.")
     else
       let restaurantId := lookup "restaurantId" (params req) in
       restaurant <- eval (Restaurant_findById (world m) restaurantId) ;;
       match restaurant with
       | None => respond 404 (message_only "Restaurant not found.")
       | Some doc =>
           doc' <- updated (world m) req doc ;;
           eval (doc_save (world m) doc') ;;
           write (DocSaved doc') ;;
           ret (mkResponse 200
                  (JObj [("message", JStr "Restaurant updated successfully.");
                         ("restaurant", JObj doc')]))
       end)
    (fun error =>
       mkResponse 500
         (JObj [("message", JStr "Server error.");
                ("error", error_json m error)])).

(** ** deleteRestaurant *)

(** What the handler removes from the store, oldest first. *)
Inductive Removal : Type :=
| RestaurantDeleted (doc : Doc)          (* restaurant.deleteOne() *)
| PermissionDeleted (query : JsVal).     (* Permission.deleteOne(query) *)

Definition deleteRestaurant (m : Models) (req : Request)
  : list Removal -> Response * list Removal :=
  fun removed =>
    let restaurantId := lookup "restaurantId" (params req) in
    let server_error :=
      mkResponse 500 (message_only "Server error.") in
    if negb (truthy restaurantId) then
      (mkResponse 400 (message_only "restaurantId is required."), removed)
    else if negb (ObjectId_isValid (world m) restaurantId) then
      (mkResponse 400 (message_only "Invalid restaurantId format."), removed)
    else
      match Restaurant_findById (world m) restaurantId with
      | inl _ => (server_error, removed)
      | inr None =>
          (mkResponse 404 (message_only "Restaurant not found."), removed)
      | inr (Some restaurant) =>
          match doc_deleteOne m restaurant with
          | inl _ => (server_error, removed)
          | inr _ =>
              let removed := (removed ++ [RestaurantDeleted restaurant])%list in
              let query := JObj [("restaurantId", restaurantId)] in
              match Permission_deleteOne m query with
              | inl _ => (server_error, removed)
              | inr _ =>
                  (mkResponse 200
                     (message_only
                        "Restaurant and its permissions deleted successfully."),
                   (removed ++ [PermissionDeleted query])%list)
              end
          end
      end.

(** ** addServiceArea *)

(** [Array.isArray(v)], and the elements a [for ... of] goes through. *)
Definition is_array (v : JsVal) : bool :=
  match v with JArr _ => true | _ => false end.

Definition elements (v : JsVal) : list JsVal :=
  match v with JArr l => l | _ => [] end.

Definition failure_only (m : string) : JsVal :=
  JObj [("message", JStr m); ("messageType", JStr "failure")].

Section ServiceAreas.

Variable w : World.

(** [!area.type || area.type !== "Polygon" ||
     !Array.isArray(area.coordinates) || area.coordinates.length === 0]. *)
Definition bad_area (area : JsVal) : Completion bool :=
  match get area "type" with
  | inl e => inl e
  | inr type =>
      inr (negb (truthy type) ||
           negb (strict_eq type (JStr "Polygon")) ||
           negb (is_array (own area "coordinates")) ||
           strict_eq (own (own area "coordinates") "length")
                     (JNum (num_of_Z 0)))
  end.

(** The [for (const area of serviceAreas)] loop. *)
Fixpoint check_areas (areas : list JsVal) : Handler unit :=
  match areas with
  | [] => ret tt
  | area :: rest =>
      bad <- eval (bad_area area) ;;
      if bad then
        respond 400
          (failure_only
             "Each serviceArea must be a valid GeoJSON Polygon with coordinates")
      else check_areas rest
  end.

(** [new mongoose.Types.ObjectId(restaurantId)] after the shape check is the
    ObjectId of that text; the store is asked with it. *)
Definition addServiceArea (req : Request) : Log -> Response * Log :=
  try_catch
    (let restaurantId := lookup "restaurantId" (params req) in
     serviceAreas <- eval (get (body req) "serviceAreas") ;;
     if negb (ObjectId_isValid w restaurantId) then
       respond 400 (failure_only "Invalid restaurant ID")
     else if negb (is_array serviceAreas) ||
             strict_eq (own serviceAreas "length") (JNum (num_of_Z 0))
     then
       respond 400
         (failure_only
            "serviceAreas must be a non-empty array of GeoJSON Polygons")
     else
       check_areas (elements serviceAreas) ;;
       restaurant <- eval (Restaurant_findById w restaurantId) ;;
       match restaurant with
       | None => respond 404 (failure_only "Restaurant not found")
       | Some doc =>
           let doc' := set_prop "serviceAreas" serviceAreas doc in
           eval (doc_save w doc') ;;
           write (DocSaved doc') ;;
           ret (mkResponse 200
                  (JObj [("message", JStr "Service areas updated successfully");
                         ("messageType", JStr "success");
                         ("data", lookup "serviceAreas" doc')]))
       end)
    (fun _ => mkResponse 500 (failure_only "Server error")).

End ServiceAreas.

(** ** getAllApprovedRestaurants *)

(** [Restaurant.find().select('-kycDocuments')]: no filter is given. *)
Definition getAllApprovedRestaurants (m : Models) (req : Request)
  : Log -> Response * Log :=
  try_catch
    (found <- eval (Restaurant_find m) ;;
     let approvedRestaurants := map (drop_props ["kycDocuments"]) found in
     ret (mkResponse 200
            (JObj [("message", JStr "Approved restaurants fetched successfully.");
                   ("count",
                    JNum (num_of_nat (List.length approvedRestaurants)));
                   ("restaurants", JArr (map JObj approvedRestaurants))])))
    (fun error =>
       mkResponse 500
         (JObj [("message", JStr "Failed to fetch approved restaurants.");
                ("error", JStr (err_message error))])).

(** ** updateRestaurantOrderStatus *)

Definition updateRestaurantOrderStatus (m : Models) (req : Request)
  : Log -> Response * Log :=
  try_catch
    (let orderId := lookup "orderId" (params req) in
     status <- eval (get (body req) "status") ;;
     order <- eval (Order_findById m orderId) ;;
     match order with
     | None => respond 404 (message_only "Order not found")
     | Some doc =>
         let doc' := set_prop "status" status doc in
         eval (doc_save (world m) doc') ;;
         write (DocSaved doc') ;;
         ret (mkResponse 200
                (JObj [("message", JStr "Order status updated successfully");
                       ("order", JObj doc')]))
     end)
    (fun error =>
       mkResponse 500
         (JObj [("message", JStr "Failed to update order status");
                ("error", JStr (err_message error))])).

End Operations.

(* ===================================================================== *)
(** * The vocabulary and the samples of the other properties            *)
(* ===================================================================== *)

Module Cases.
Import Js Http Controller Operations.

(** The number of binary digits of a mantissa. *)
Definition digits (q : positive) : Z := Zpos (digits2_pos q).

(** [req.params.restaurantId]. *)
Definition restaurantId (req : Request) : JsVal :=
  lookup "restaurantId" (params req).

(** ** deleteRestaurant *)

(** The filter [{ restaurantId }] handed to [Permission.deleteOne]. *)
Definition permission_of (req : Request) : JsVal :=
  JObj [("restaurantId", restaurantId req)].

(** A store whose six operations succeed, and whose errors print as [{}].  *)
Definition models : Models :=
  {| world := Sample.world;
     Restaurant_find := inr [Sample.sample_restaurant];
     doc_deleteOne := fun _ => inr tt;
     Permission_deleteOne := fun _ => inr tt;
     Order_findById := fun _ => inr None;
     error_json := fun _ => JObj [] |}.

(** The same store, but [Permission.deleteOne] rejects. *)
Definition models_permission_lost : Models :=
  {| world := Sample.world;
     Restaurant_find := inr [Sample.sample_restaurant];
     doc_deleteOne := fun _ => inr tt;
     Permission_deleteOne := fun _ => inl (Error "connection lost");
     Order_findById := fun _ => inr None;
     error_json := fun _ => JObj [] |}.

Definition sample_request : Request :=
  mkRequest [("restaurantId", JStr Sample.sample_id)] JUndefined JUndefined.

(** ** updateRestaurant *)

(** [doc'] has the value of [doc] at every path outside [keys]. *)
Definition frame (keys : list string) (doc doc' : Doc) : Prop :=
  forall k, ~ In k keys -> lookup k doc' = lookup k doc.

(** The fields assigned when the request gives a truthy value. *)
Definition truthy_fields : list string :=
  ["name"; "phone"; "email"; "foodType"; "merchantSearchName";
   "minOrderAmount"; "paymentMethods"; "openingHours"; "status"].

(** Every path updateRestaurant may assign. *)
Definition assigned_fields : list string :=
  truthy_fields ++ ["isActive"; "address"; "location"; "images"].

(** The stored address after the four assignments of the address block. *)
Definition merged_address (address : JsVal) (stored : Doc) : Doc :=
  let a1 := set_prop "street"
              (js_or (own address "street") (lookup "street" stored)) stored in
  let a2 := set_prop "city"
              (js_or (own address "city") (lookup "city" a1)) a1 in
  let a3 := set_prop "state"
              (js_or (own address "state") (lookup "state" a2)) a2 in
  set_prop "zip" (js_or (own address "pincode") (lookup "zip" a3)) a3.

(** The results of the uploads of the files [fs], in order: the [i]-th
    call is given [fs[i].path]. *)
Definition uploads_of (w : World) (fs uploads : list JsVal) : Prop :=
  Forall2 (fun call result =>
             uploadOnCloudinary w (fst call) (snd call) = inr result)
          (combine (seq 0 (List.length fs))
                   (map (fun file => own file "path") fs))
          uploads.

Definition point (longitude latitude : JsVal) : JsVal :=
  JObj [("type", JStr "Point"); ("coordinates", JArr [longitude; latitude])].

(** A stored restaurant with an address, a location and an image. *)
Definition stored_restaurant : Doc :=
  [("_id", JStr Sample.sample_id);
   ("name", JStr "Spice Hub");
   ("minOrderAmount", JNum (num_of_Z 100));
   ("isActive", JBool true);
   ("address", JObj [("street", JStr "12 MG Road"); ("city", JStr "Pune");
                     ("state", JStr "MH"); ("zip", JStr "411001")]);
   ("location", point (JNum (num_of_Z 73)) (JNum (num_of_Z 18)));
   ("images", JArr [JStr "https://res.cloudinary.com/old.jpg"]);
   ("password", JStr "$2b$10$abcdefghijklmnopqrstuv0123456789012345678901234567890")].

Definition find_stored (id : JsVal) : Completion (option Doc) :=
  if Sample.hex24 id then
    inr (if strict_eq id (JStr Sample.sample_id) then Some stored_restaurant
         else None)
  else inl (Error "Cast to ObjectId failed")%string.

(** A world whose store holds [stored_restaurant]; the second upload of a
    request resolves to [null]. *)
Definition world_stored : World :=
  {| Number_toString := Sample.integer_toString;
     JSON_parse := Sample.parse_sample;
     Math_random_toString36 := "0.k3x9q2m7";
     ObjectId_isValid := Sample.hex24;
     bcrypt := Sample.sample_bcrypt;
     uploadOnCloudinary := fun i path =>
       if (i =? 1)%nat then inr JNull
       else inr (JObj [("secure_url",
                        JStr ("https://res.cloudinary.com/" ++
                              to_string Sample.integer_toString path))]);
     Restaurant_create := Restaurant_create Sample.world;
     Restaurant_findById := find_stored;
     Restaurant_findOne := fun query => find_stored (own query "_id");
     doc_save := fun _ => inr tt;
     Permission_create := Permission_create Sample.world;
     Category_find := fun _ => inr [];
     Product_find := fun _ => inr [];
     RestaurantEarning_find := fun _ => inr [] |}.

Definition models_stored : Models :=
  {| world := world_stored;
     Restaurant_find := inr [stored_restaurant];
     doc_deleteOne := fun _ => inr tt;
     Permission_deleteOne := fun _ => inr tt;
     Order_findById := fun _ => inr None;
     error_json := fun _ => JObj [] |}.

(** An update that renames the restaurant, closes it, sends an empty
    minimum order amount, a new city and pincode with coordinates given as
    latitude then longitude, and three images. *)
Definition update_request : Request :=
  mkRequest [("restaurantId", JStr Sample.sample_id)]
    (JObj [("name", JStr "Spice Hub Express");
           ("minOrderAmount", JNum (num_of_Z 0));
           ("isActive", JBool false);
           ("address",
            JObj [("city", JStr "Mumbai"); ("pincode", JStr "400001");
                  ("zip", JStr "999999");
                  ("coordinates",
                   JArr [JNum (num_of_Z 19); JNum (num_of_Z 72)])])])
    (JArr [JObj [("path", JStr "a.jpg")]; JObj [("path", JStr "b.jpg")];
           JObj [("path", JStr "c.jpg")]]).

Definition update_run : Response * Log :=
  updateRestaurant models_stored update_request [].

Definition saved_doc (l : Log) : Doc :=
  match l with
  | [DocSaved doc] => doc
  | _ => []
  end.

(** ** addServiceArea *)

(** A GeoJSON polygon as the handler checks it: [type] is "Polygon" and
    [coordinates] is an array that is not empty. *)
Definition polygon (area : JsVal) : bool :=
  strict_eq (own area "type") (JStr "Polygon") &&
  match own area "coordinates" with
  | JArr (_ :: _) => true
  | _ => false
  end.

Definition ring : JsVal :=
  let corner (x y : Z) := JArr [JNum (num_of_Z x); JNum (num_of_Z y)] in
  JArr [corner 73 18; corner 74 18; corner 74 19; corner 73 18]%Z.

Definition delivery_zone : JsVal :=
  JObj [("type", JStr "Polygon"); ("coordinates", JArr [ring])].

Definition areas_request (serviceAreas : JsVal) : Request :=
  mkRequest [("restaurantId", JStr Sample.sample_id)]
            (JObj [("serviceAreas", serviceAreas)]) JUndefined.

(** ** updateRestaurantOrderStatus *)

(** [req.params.orderId]. *)
Definition orderId (req : Request) : JsVal := lookup "orderId" (params req).

Definition order_id : string := "64b7f0c2a1e4d5f6a7b8c9f0".

Definition stored_order : Doc :=
  [("_id", JStr order_id);
   ("restaurantId", JStr "64b7f0c2a1e4d5f6a7b8c9aa");
   ("status", JStr "delivered");
   ("totalAmount", JNum (num_of_Z 250))].

(** A store that holds [stored_order] and two restaurants, the second one
    rejected. *)
Definition models_with_order : Models :=
  {| world := Sample.world;
     Restaurant_find :=
       inr [Sample.sample_restaurant;
            [("_id", JStr "64b7f0c2a1e4d5f6a7b8c9aa");
             ("name", JStr "Closed Kitchen");
             ("kycDocuments", JArr [JStr "https://res.cloudinary.com/k.pdf"]);
             ("approvalStatus", JStr "rejected")]];
     doc_deleteOne := fun _ => inr tt;
     Permission_deleteOne := fun _ => inr tt;
     Order_findById := fun id =>
       if Sample.hex24 id then
         inr (if strict_eq id (JStr order_id) then Some stored_order else None)
       else inl (Error "Cast to ObjectId failed")%string;
     error_json := fun _ => JObj [] |}.

Definition order_request (status : JsVal) : Request :=
  mkRequest [("orderId", JStr order_id)] (JObj [("status", status)]) JUndefined.

(** ** createRestaurant *)

(** The documents of [requiredDocs] that the request does not carry. *)
Definition document_missing (req : Request) (doc : string) : bool :=
  negb (truthy (first_file req doc)).

(** The text fields stored trimmed. *)
Definition trimmed_fields : list string :=
  ["name"; "ownerName"; "phone"; "email"; "foodType"].

(** [Sample.onboarding] with one field of the body replaced. *)
Definition onboarding_with (field : string) (value : JsVal) : Request :=
  mkRequest []
    (JObj (set_prop field value (Sample.onboarding_fields Sample.street_address)))
    Sample.three_documents.

(** [Sample.onboarding] with padded texts, a pincode and no minimum order
    amount. *)
Definition onboarding_padded : Request :=
  mkRequest []
    (JObj (set_prop "name" (JStr "  Spice Hub ")
             (Sample.onboarding_fields
                (("pincode", JStr "411001") :: Sample.street_address))))
    Sample.three_documents.

Definition padded_run : Response * Log :=
  createRestaurant_in Sample.scope_with_bcrypt Sample.world onboarding_padded [].

(** [Sample.world], but [Permission.create] rejects. *)
Definition world_permission_refused : World :=
  {| Number_toString := Sample.integer_toString;
     JSON_parse := Sample.parse_sample;
     Math_random_toString36 := "0.k3x9q2m7";
     ObjectId_isValid := Sample.hex24;
     bcrypt := Sample.sample_bcrypt;
     uploadOnCloudinary := uploadOnCloudinary Sample.world;
     Restaurant_create := Restaurant_create Sample.world;
     Restaurant_findById := Sample.find_sample;
     Restaurant_findOne := Restaurant_findOne Sample.world;
     doc_save := fun _ => inr tt;
     Permission_create := fun _ => inl (Error "E11000 duplicate key");
     Category_find := fun _ => inr [];
     Product_find := fun _ => inr [];
     RestaurantEarning_find := fun _ => inr [] |}.

Definition refused_run : Response * Log :=
  createRestaurant_in Sample.scope_with_bcrypt world_permission_refused
    Sample.onboarding [].

(** ** addKyc after createRestaurant *)

(** A store that gives back the restaurant [padded_run] created. *)
Definition world_after_onboarding : World :=
  {| Number_toString := Sample.integer_toString;
     JSON_parse := Sample.parse_sample;
     Math_random_toString36 := "0.k3x9q2m7";
     ObjectId_isValid := Sample.hex24;
     bcrypt := Sample.sample_bcrypt;
     uploadOnCloudinary := uploadOnCloudinary Sample.world;
     Restaurant_create := Restaurant_create Sample.world;
     Restaurant_findById := fun _ =>
       inr (Some (snd (Sample.first_created (snd padded_run))));
     Restaurant_findOne := Restaurant_findOne Sample.world;
     doc_save := fun _ => inr tt;
     Permission_create := Permission_create Sample.world;
     Category_find := fun _ => inr [];
     Product_find := fun _ => inr [];
     RestaurantEarning_find := fun _ => inr [] |}.

(** The store of [Sample.world] with the uploads of [world_stored]: the
    second upload of a request resolves to [null]. *)
Definition world_kyc : World :=
  {| Number_toString := Sample.integer_toString;
     JSON_parse := Sample.parse_sample;
     Math_random_toString36 := "0.k3x9q2m7";
     ObjectId_isValid := Sample.hex24;
     bcrypt := Sample.sample_bcrypt;
     uploadOnCloudinary := uploadOnCloudinary world_stored;
     Restaurant_create := Restaurant_create Sample.world;
     Restaurant_findById := fun id =>
       match Sample.find_sample id with
       | inr (Some doc) =>
           inr (Some (set_prop "kycDocuments"
                        (JArr [JStr "https://res.cloudinary.com/old.pdf"]) doc))
       | other => other
       end;
     Restaurant_findOne := Restaurant_findOne Sample.world;
     doc_save := fun _ => inr tt;
     Permission_create := Permission_create Sample.world;
     Category_find := fun _ => inr [];
     Product_find := fun _ => inr [];
     RestaurantEarning_find := fun _ => inr [] |}.

Definition two_files : JsVal :=
  JArr [JObj [("path", JStr "a.pdf")]; JObj [("path", JStr "b.pdf")]].

Definition kyc_request (fs : JsVal) : Request :=
  mkRequest [("restaurantId", JStr Sample.sample_id)] JUndefined fs.

(** ** getRestaurantMenu *)

(** The filter of the product query of a category. *)
Definition products_query (req : Request) (category : Doc) : JsVal :=
  JObj [("restaurantId", restaurantId req);
        ("categoryId", lookup "_id" category)].

Definition categories_query (req : Request) : JsVal :=
  JObj [("restaurantId", restaurantId req); ("active", JBool true)].

(** [Sample.world_with_menu], but the product query of the desserts
    rejects. *)
Definition world_menu_broken : World :=
  {| Number_toString := Sample.integer_toString;
     JSON_parse := Sample.parse_sample;
     Math_random_toString36 := "0.k3x9q2m7";
     ObjectId_isValid := Sample.hex24;
     bcrypt := Sample.sample_bcrypt;
     uploadOnCloudinary := uploadOnCloudinary Sample.world;
     Restaurant_create := Restaurant_create Sample.world;
     Restaurant_findById := Sample.find_sample;
     Restaurant_findOne := Restaurant_findOne Sample.world;
     doc_save := fun _ => inr tt;
     Permission_create := Permission_create Sample.world;
     Category_find := Category_find Sample.world_with_menu;
     Product_find := fun query =>
       if strict_eq (own query "categoryId") (lookup "_id" Sample.desserts)
       then inl (Error "cursor timed out")
       else Product_find Sample.world_with_menu query;
     RestaurantEarning_find := fun _ => inr [] |}.

(** ** getRestaurantEarningSummary *)

(** Two records, the amount of the second one kept as a text. *)
Definition world_text_earnings : World :=
  {| Number_toString := Sample.integer_toString;
     JSON_parse := Sample.parse_sample;
     Math_random_toString36 := "0.k3x9q2m7";
     ObjectId_isValid := Sample.hex24;
     bcrypt := Sample.sample_bcrypt;
     uploadOnCloudinary := uploadOnCloudinary Sample.world;
     Restaurant_create := Restaurant_create Sample.world;
     Restaurant_findById := Sample.find_sample;
     Restaurant_findOne := Restaurant_findOne Sample.world;
     doc_save := fun _ => inr tt;
     Permission_create := Permission_create Sample.world;
     Category_find := fun _ => inr [];
     Product_find := fun _ => inr [];
     RestaurantEarning_find := fun _ =>
       inr [Sample.earning 100 10;
            [("totalOrderAmount", JStr "50");
             ("revenueShareAmount", JNum (num_of_Z 5))]] |}.

End Cases.

(* ===================================================================== *)
(** * Properties of the handler monad                                     *)
(* ===================================================================== *)

Module HandlerFacts.
Import Js Http Spec.
Local Open Scope handler_scope.

Lemma quiet_readonly {A} (m : Handler A) : quiet m -> readonly m.
Proof. intros H log. apply H. Qed.

Lemma quiet_answers {A} P (m : Handler A) : quiet m -> answers P m.
Proof. intros H log r Hr. destruct (H log) as [_ Hn]. now apply Hn in Hr. Qed.

Lemma quiet_ret {A} (a : A) : quiet (ret a).
Proof. intro log; split; [reflexivity | discriminate]. Qed.

Lemma quiet_throw {A} e : quiet (@throw A e).
Proof. intro log; split; [reflexivity | discriminate]. Qed.

Lemma quiet_eval {A} (c : Completion A) : quiet (eval c).
Proof. destruct c; [apply quiet_throw | apply quiet_ret]. Qed.

Lemma quiet_bind {A B} (m : Handler A) (k : A -> Handler B) :
  quiet m -> (forall a, quiet (k a)) -> quiet (bind m k).
Proof.
  intros Hm Hk log. unfold bind.
  destruct (Hm log) as [Hl Hr].
  destruct (m log) as [[a | r | e] log'] eqn:E; simpl in *; subst.
  - apply Hk.
  - now destruct (Hr r).
  - split; [reflexivity | discriminate].
Qed.

Lemma readonly_ret {A} (a : A) : readonly (ret a).
Proof. intro; reflexivity. Qed.

Lemma readonly_respond {A} st p : readonly (@respond A st p).
Proof. intro; reflexivity. Qed.

Lemma readonly_eval {A} (c : Completion A) : readonly (eval c).
Proof. destruct c; intro; reflexivity. Qed.

Lemma readonly_bind {A B} (m : Handler A) (k : A -> Handler B) :
  readonly m -> (forall a, readonly (k a)) -> readonly (bind m k).
Proof.
  intros Hm Hk log. unfold bind. specialize (Hm log).
  destruct (m log) as [[a | r | e] log'] eqn:E; simpl in *; subst;
    [apply Hk | reflexivity | reflexivity].
Qed.

Lemma answers_ret {A} P (a : A) : answers P (ret a).
Proof. intros log r; discriminate. Qed.

Lemma answers_respond {A} (P : Response -> Prop) st p :
  P (mkResponse st p) -> answers P (@respond A st p).
Proof. intros H log r [= <-]. exact H. Qed.

Lemma answers_eval {A} P (c : Completion A) : answers P (eval c).
Proof. destruct c; intros log r; discriminate. Qed.

Lemma answers_bind {A B} P (m : Handler A) (k : A -> Handler B) :
  answers P m -> (forall a, answers P (k a)) -> answers P (bind m k).
Proof.
  intros Hm Hk log r. unfold bind. specialize (Hm log).
  destruct (m log) as [[a | r' | e] log'] eqn:E; simpl in *.
  - apply Hk.
  - intros [= <-]. now apply Hm.
  - discriminate.
Qed.

(** Inversion of a [bind] that did not throw. *)
Lemma bind_inv {A B} (m : Handler A) (k : A -> Handler B) log o log' :
  bind m k log = (o, log') ->
  (exists a l, m log = (Continue a, l) /\ k a l = (o, log')) \/
  (exists r, m log = (Respond r, log') /\ o = Respond r) \/
  (exists e, m log = (Throw e, log') /\ o = Throw e).
Proof.
  unfold bind. destruct (m log) as [[a | r | e] l] eqn:E; intro H.
  - left. now exists a, l.
  - right; left. exists r. now inversion H.
  - right; right. exists e. now inversion H.
Qed.

(** Through a quiet fragment, a run that does not end in a throw goes on
    with the same log. *)
Lemma bind_quiet_inv {A B} (m : Handler A) (k : A -> Handler B) log o log' :
  quiet m ->
  bind m k log = (o, log') ->
  (forall e, o <> Throw e) ->
  exists a, m log = (Continue a, log) /\ k a log = (o, log').
Proof.
  intros Hq H Ho. destruct (Hq log) as [Hl Hr].
  apply bind_inv in H as [(a & l & Hm & Hk) | [(r & Hm & _) | (e & _ & ->)]].
  - rewrite Hm in Hl; simpl in Hl; subst l. now exists a.
  - rewrite Hm in Hr. now destruct (Hr r).
  - now destruct (Ho e).
Qed.

Lemma bind_Continue {A B} (m : Handler A) (k : A -> Handler B) log a l :
  m log = (Continue a, l) -> bind m k log = k a l.
Proof. unfold bind. now intros ->. Qed.

Lemma bind_Respond {A B} (m : Handler A) (k : A -> Handler B) log r l :
  m log = (Respond r, l) -> bind m k log = (Respond r, l).
Proof. unfold bind. now intros ->. Qed.

Lemma bind_Throw {A B} (m : Handler A) (k : A -> Handler B) log e l :
  m log = (Throw e, l) -> bind m k log = (Throw e, l).
Proof. unfold bind. now intros ->. Qed.

Lemma eval_inr {A} (c : Completion A) a log :
  c = inr a -> eval c log = (Continue a, log).
Proof. now intros ->. Qed.

Lemma eval_Continue_inv {A} (c : Completion A) a log l :
  eval c log = (Continue a, l) -> c = inr a /\ l = log.
Proof. destruct c; simpl; unfold throw, ret; intros [= <- <-]; auto. Qed.

Lemma answers_write P wr : answers P (write wr).
Proof. intros log r; discriminate. Qed.

Lemma returns_ret {A} (P : A -> Prop) a : P a -> returns P (ret a).
Proof. intros H log a' [= <-]. exact H. Qed.

Lemma returns_respond {A} (P : A -> Prop) st p : returns P (@respond A st p).
Proof. intros log a; discriminate. Qed.

Lemma returns_bind {A B} (P : B -> Prop) (m : Handler A) (k : A -> Handler B) :
  (forall a, returns P (k a)) -> returns P (bind m k).
Proof.
  intros Hk log b. unfold bind.
  destruct (m log) as [[a | r | e] l]; cbn [fst]; try discriminate.
  apply Hk.
Qed.

(** What holds of every answer, of every value the body ends with and of
    every answer of the [catch] block holds of the handler's response. *)
Lemma try_catch_status (P : Response -> Prop) body handler log :
  answers P body -> returns P body -> (forall e, P (handler e)) ->
  P (fst (try_catch body handler log)).
Proof.
  intros Ha Hr Hh. unfold try_catch.
  specialize (Ha log). specialize (Hr log).
  destruct (body log) as [[r | r | e] l]; cbn [fst] in *; auto.
Qed.

Lemma quiet_map_from {A B} (f : nat -> A -> Handler B) l :
  (forall i x, quiet (f i x)) -> forall i, quiet (map_from i f l).
Proof.
  intro Hf. induction l as [| x rest IH]; intro i; cbn [map_from].
  - apply quiet_ret.
  - apply quiet_bind; [apply Hf |]. intro y.
    apply quiet_bind; [apply IH |]. intro ys. apply quiet_ret.
Qed.

(** A [map] whose every call continues with the same log is the list
    [map]. *)
Lemma map_from_all {A B} (f : nat -> A -> Handler B) (g : A -> B) l :
  forall i log,
    (forall j x, In x l -> f j x log = (Continue (g x), log)) ->
    map_from i f l log = (Continue (map g l), log).
Proof.
  induction l as [| x rest IH]; intros i log H; [reflexivity |].
  cbn [map_from map].
  rewrite (bind_Continue _ _ _ _ _ (H i x (or_introl eq_refl))).
  rewrite (bind_Continue _ _ _ _ _
             (IH (S i) log (fun j y Hy => H j y (or_intror Hy)))).
  reflexivity.
Qed.

(** Proof steps for the three predicates, one constructor of the fragment
    at a time. *)
Ltac quiet_step :=
  first
    [ apply quiet_ret | apply quiet_throw | apply quiet_eval
    | apply quiet_bind; [ | intro ]
    | match goal with
      | |- quiet (match ?x with _ => _ end) => destruct x
      end ].

Ltac readonly_step :=
  first
    [ apply readonly_ret | apply readonly_respond | apply readonly_eval
    | apply quiet_readonly; solve [repeat quiet_step]
    | apply readonly_bind; [ | intro ]
    | match goal with
      | |- readonly (match ?x with _ => _ end) => destruct x
      end ].

Ltac answers_step :=
  first
    [ apply answers_ret | apply answers_eval
    | apply answers_respond; reflexivity
    | apply answers_bind; [ | intro ]
    | match goal with
      | |- answers _ (match ?x with _ => _ end) => destruct x
      end ].

(** One step of a run that reached a value: the fragment before it
    continued with [x]. *)
Ltac next H x :=
  let l := fresh "l" in
  let E := fresh "E" in
  apply bind_inv in H as [(x & l & E & H) | [(? & _ & [=]) | (? & _ & [=])]].

End HandlerFacts.

(* ===================================================================== *)
(** * Properties of the values                                            *)
(* ===================================================================== *)

Module JsFacts.
Import Js Http Controller Spec.

Lemma append_assoc (a b c : string) : ((a ++ b) ++ c = a ++ (b ++ c))%string.
Proof. induction a; simpl; congruence. Qed.

Lemma append_empty (a : string) : (a ++ "")%string = a.
Proof. induction a; simpl; congruence. Qed.

(** Every element of a joined list occurs in the result. *)
Lemma join_occurs sep l x :
  In x l -> exists pre post, join sep l = (pre ++ x ++ post)%string.
Proof.
  induction l as [| y rest IH]; [contradiction |].
  intros [-> | Hin].
  - exists "". destruct rest as [| z rest'].
    + exists "". simpl. now rewrite append_empty.
    + now exists (sep ++ join sep (z :: rest'))%string.
  - destruct (IH Hin) as (pre & post & E).
    destruct rest as [| z rest']; [contradiction |].
    exists (y ++ sep ++ pre)%string, post.
    change (join sep (y :: z :: rest'))
      with (y ++ sep ++ join sep (z :: rest'))%string.
    rewrite E. now rewrite !append_assoc.
Qed.

Lemma get_inr v k x : get v k = inr x -> x = own v k.
Proof. destruct v; simpl; intros [= <-]; reflexivity. Qed.

Lemma get_not_nullish v k : is_nullish v = false -> get v k = inr (own v k).
Proof. now destruct v. Qed.

Lemma get_path_inr2 v a b x :
  get_path v [a; b] = inr x -> x = own (own v a) b.
Proof.
  simpl. destruct (get v a) as [| va] eqn:Ea; [discriminate |].
  destruct (get va b) as [| vb] eqn:Eb; [discriminate |].
  intros [= <-]. apply get_inr in Ea, Eb. now subst.
Qed.

Lemma get_path_inr3 v a b c x :
  get_path v [a; b; c] = inr x -> x = own (own (own v a) b) c.
Proof.
  simpl. destruct (get v a) as [| va] eqn:Ea; [discriminate |].
  destruct (get va b) as [| vb] eqn:Eb; [discriminate |].
  destruct (get vb c) as [| vc] eqn:Ec; [discriminate |].
  intros [= <-]. apply get_inr in Ea, Eb, Ec. now subst.
Qed.

Lemma lookup_set_prop_same k v l : lookup k (set_prop k v l) = v.
Proof.
  induction l as [| [k' v'] r IH]; simpl.
  - now rewrite String.eqb_refl.
  - destruct (k =? k')%string eqn:E; simpl.
    + now rewrite String.eqb_refl.
    + now rewrite E.
Qed.

Lemma lookup_set_prop_other k k' v l :
  k <> k' -> lookup k (set_prop k' v l) = lookup k l.
Proof.
  intro Hne. apply String.eqb_neq in Hne.
  induction l as [| [k0 v0] r IH]; simpl.
  - now rewrite Hne.
  - destruct (k' =? k0)%string eqn:E; simpl.
    + apply String.eqb_eq in E. subst k0. now rewrite Hne.
    + now rewrite IH.
Qed.

(** A projected document has none of the dropped properties. *)
Lemma lookup_drop_props ks l k :
  In k ks -> lookup k (drop_props ks l) = JUndefined.
Proof.
  intro Hin. unfold drop_props.
  induction l as [| [k' v] r IH]; [reflexivity |].
  cbn [filter fst].
  destruct (existsb (String.eqb k') ks) eqn:E; cbn [negb].
  - exact IH.
  - cbn [lookup]. destruct (k =? k')%string eqn:Ek; [| exact IH].
    apply String.eqb_eq in Ek. subst k'.
    assert (existsb (String.eqb k) ks = true).
    { apply existsb_exists. exists k. split; [exact Hin | apply String.eqb_refl]. }
    congruence.
Qed.

Lemma blankb_spec v : blankb v = true <-> blank v.
Proof.
  unfold blank. split.
  - destruct v; simpl; intro H; try discriminate; [now left |].
    right. apply String.eqb_eq in H. now subst.
  - intros [-> | ->]; reflexivity.
Qed.

Lemma strict_eq_undefined v : strict_eq v JUndefined = is_undefined v.
Proof. now destruct v. Qed.

Lemma blankb_strict_eq v :
  strict_eq v JUndefined || strict_eq v (JStr "") = blankb v.
Proof. now destruct v. Qed.

Lemma fold_get_opt_undefined path : fold_left get_opt path JUndefined = JUndefined.
Proof. induction path; simpl; auto. Qed.

Lemma app_self_nil {A} (l new : list A) : l = (l ++ new)%list -> new = [].
Proof. intro H. apply (app_inv_head l). now rewrite app_nil_r. Qed.

(** ** [trim] and [split] *)
















End JsFacts.

(* ===================================================================== *)
(** * createRestaurant                                                    *)
(* ===================================================================== *)

Module CreateRestaurantFacts.
Import Js Http Controller Spec HandlerFacts JsFacts.
Local Open Scope handler_scope.

(** ** The stages *)

Section Stages.

Variable scope : list string.
Variable w : World.
Variable req : Request.

Lemma trimmed_quiet path : quiet (trimmed req path).
Proof. unfold trimmed. repeat quiet_step. Qed.

Lemma hash_password_quiet : quiet (hash_password scope w req).
Proof. unfold hash_password. repeat quiet_step. Qed.

Lemma upload_documents_quiet : quiet (upload_documents w req).
Proof. unfold upload_documents, upload. repeat quiet_step. Qed.

Lemma make_slug_quiet : quiet (make_slug w req).
Proof. unfold make_slug. repeat quiet_step. Qed.

Lemma restaurantData_quiet h o p d : quiet (restaurantData w req h o p d).
Proof.
  unfold restaurantData. destruct d as [[? ?] ?].
  repeat first [apply trimmed_quiet | quiet_step].
Qed.

Lemma validate_fields_readonly : readonly (validate_fields w req).
Proof.
  unfold validate_fields, check_required_fields, check_password,
    check_foodType, parse_openingHours, invalid_openingHours, check_documents.
  repeat readonly_step.
Qed.

Lemma validate_fields_answers : answers is_400 (validate_fields w req).
Proof.
  unfold validate_fields, check_required_fields, check_password,
    check_foodType, parse_openingHours, invalid_openingHours, check_documents.
  repeat answers_step.
Qed.

Lemma check_paymentMethods_readonly : readonly (check_paymentMethods w req).
Proof. unfold check_paymentMethods. repeat readonly_step. Qed.

Lemma check_paymentMethods_answers : answers is_400 (check_paymentMethods w req).
Proof. unfold check_paymentMethods. repeat answers_step. Qed.

Lemma validate_readonly : readonly (validate w req).
Proof.
  unfold validate.
  repeat first [apply validate_fields_readonly
               | apply check_paymentMethods_readonly | readonly_step].
Qed.

Lemma validate_answers : answers is_400 (validate w req).
Proof.
  unfold validate.
  repeat first [apply validate_fields_answers
               | apply check_paymentMethods_answers | answers_step].
Qed.

(** Go through a quiet stage of the body: it continues with [x], or it
    throws and the run is over. *)
Ltac through Hq x :=
  match goal with
  | |- context [bind ?m ?k ?log] =>
      let E := fresh "E" in
      let Hl := fresh "Hl" in
      let Hr := fresh "Hr" in
      let r := fresh "r" in
      let e := fresh "e" in
      let l := fresh "l" in
      destruct (Hq log) as [Hl Hr];
      destruct (m log) as [[x | r | e] l] eqn:E; simpl in Hl, Hr; subst;
      [ rewrite (bind_Continue _ _ _ _ _ E)
      | exfalso; eapply Hr; reflexivity
      | rewrite (bind_Throw _ _ _ _ _ E); apply RunThrown ]
  end.

(** Every run of the handler is one of the four of [Run]. *)
Lemma createRestaurant_runs log :
  Run scope w req log (createRestaurant_in scope w req log).
Proof.
  unfold createRestaurant_in, try_catch, createRestaurant_body.
  pose proof (validate_readonly log) as Hl.
  pose proof (validate_answers log) as Ha.
  destruct (validate w req log) as [[v | r | e] l] eqn:Ev;
    simpl in Hl; subst l.
  2: { rewrite (bind_Respond _ _ _ _ _ Ev). apply RunInvalid; [exact Ev |].
       now apply Ha. }
  2: { rewrite (bind_Throw _ _ _ _ _ Ev). apply RunThrown. }
  rewrite (bind_Continue _ _ _ _ _ Ev).
  destruct v as [openingHours paymentMethods].
  through hash_password_quiet hashed.
  through upload_documents_quiet docs.
  through make_slug_quiet slug.
  through (restaurantData_quiet hashed openingHours paymentMethods docs) data.
  unfold persist, bind, eval, write, ret, throw.
  destruct (Restaurant_create w data) as [e | doc] eqn:Ec;
    [apply RunThrown |].
  destruct (Permission_create w (defaultPermissions (lookup "_id" doc)))
    as [e | pdoc] eqn:Ep.
  - eapply RunOrphan; eauto.
  - rewrite <- app_assoc. simpl. eapply RunCreated; eauto.
Qed.

End Stages.

(** ** The unbound identifier *)

Lemma bcrypt_unbound : bound module_scope "bcrypt" = false.
Proof. reflexivity. Qed.

(** The handler as exported writes nothing and answers 400 or 500. *)
Lemma createRestaurant_outcome w req log :
  snd (createRestaurant w req log) = log /\
  (status (fst (createRestaurant w req log)) = 400 \/
   status (fst (createRestaurant w req log)) = 500).
Proof.
  unfold createRestaurant.
  destruct (createRestaurant_runs module_scope w req log)
    as [resp _ H | e | v h docs data doc e _ Hh | v h docs data doc pdoc _ Hh].
  - auto.
  - auto.
  - unfold hash_password in Hh. rewrite bcrypt_unbound in Hh. discriminate.
  - unfold hash_password in Hh. rewrite bcrypt_unbound in Hh. discriminate.
Qed.

(** C1.  A request that passes the six validation steps (none of them
    answers or throws) gets the 500 answer of the catch-all handler, with
    the message of the ReferenceError on [bcrypt], which the module never
    binds; nothing is written and the 201 answer is not reached. *)
Theorem createRestaurant_stops_at_bcrypt w req log v log' :
  validate w req log = (Continue v, log') ->
  createRestaurant w req log =
    (mkResponse 500
       (JObj [("success", JBool false);
              ("message", JStr "Something went wrong");
              ("error", JStr "bcrypt is not defined")]), log) /\
  status (fst (createRestaurant w req log)) <> 201.
Proof.
  intro Hv.
  assert (log' = log) as ->.
  { pose proof (validate_readonly w req log) as H. now rewrite Hv in H. }
  split.
  - unfold createRestaurant, createRestaurant_in, try_catch,
      createRestaurant_body.
    rewrite (bind_Continue _ _ _ _ _ Hv). destruct v as [o p].
    unfold hash_password. rewrite bcrypt_unbound. reflexivity.
  - destruct (createRestaurant_outcome w req log) as [_ [H | H]];
      rewrite H; discriminate.
Qed.

Lemma createRestaurant_stops_at_bcrypt_witness :
  validate Sample.world Sample.onboarding [] =
    (Continue (JArr [], JArr [JStr "online"]), []) /\
  createRestaurant Sample.world Sample.onboarding [] =
    (mkResponse 500
       (JObj [("success", JBool false);
              ("message", JStr "Something went wrong");
              ("error", JStr "bcrypt is not defined")]), []).
Proof.
  split; [reflexivity |].
  apply (createRestaurant_stops_at_bcrypt Sample.world Sample.onboarding []
           (JArr [], JArr [JStr "online"]) []).
  reflexivity.
Defined.

(** ** Required fields *)

(** The loop with its early exit computes the optional chain. *)
Lemma walk_resolve path : forall v, walk v path = fold_left get_opt path v.
Proof.
  induction path as [| f rest IH]; intro v; simpl; [reflexivity |].
  rewrite strict_eq_undefined.
  destruct (get_opt v f) eqn:E; simpl; try apply IH.
  symmetry. apply fold_get_opt_undefined.
Qed.

Lemma is_missing_blank req field :
  is_missing req field = blankb (resolve (body req) field).
Proof.
  unfold is_missing, resolve. rewrite walk_resolve. apply blankb_strict_eq.
Qed.

Lemma missingFields_spec req field :
  In field (missingFields req) <->
  In field requiredFields /\ blank (resolve (body req) field).
Proof.
  unfold missingFields. rewrite filter_In, is_missing_blank, blankb_spec.
  reflexivity.
Qed.

Lemma missing_then_400 w req log :
  missingFields req <> [] ->
  createRestaurant w req log =
    (mkResponse 400 (required_fields_response req), log).
Proof.
  intro Hne.
  assert (E : check_required_fields req log =
              (Respond (mkResponse 400 (required_fields_response req)), log)).
  { unfold check_required_fields.
    destruct (missingFields req); [contradiction | reflexivity]. }
  assert (E1 : validate_fields w req log =
               (Respond (mkResponse 400 (required_fields_response req)), log))
    by (unfold validate_fields; now apply bind_Respond).
  assert (E2 : validate w req log =
               (Respond (mkResponse 400 (required_fields_response req)), log))
    by (unfold validate; now apply bind_Respond).
  unfold createRestaurant, createRestaurant_in, try_catch,
    createRestaurant_body.
  now rewrite (bind_Respond _ _ _ _ _ E2).
Qed.

(** C5.  When at least one of the thirteen required dotted paths resolves
    to undefined or to the empty string, createRestaurant answers 400 with
    the code REQUIRED_FIELD_MISSING, writes nothing, and its message is
    the prefix followed by all the blank required paths, in the order of
    the list, joined by a comma: every blank required path occurs in it. *)
Theorem createRestaurant_reports_every_missing_field w req log :
  (exists field, In field requiredFields /\ blank (resolve (body req) field)) ->
  exists message,
    createRestaurant w req log =
      (mkResponse 400
         (JObj [("success", JBool false);
                ("message", JStr message);
                ("code", JStr "REQUIRED_FIELD_MISSING")]), log) /\
    message = ("Missing required fields: " ++
               join ", " (filter (fun f => blankb (resolve (body req) f))
                                 requiredFields))%string /\
    forall field,
      In field requiredFields -> blank (resolve (body req) field) ->
      exists pre post, message = (pre ++ field ++ post)%string.
Proof.
  intros (f0 & Hin0 & Hb0).
  assert (Hm : missingFields req =
               filter (fun f => blankb (resolve (body req) f)) requiredFields).
  { unfold missingFields. apply filter_ext. intro. apply is_missing_blank. }
  eexists. split; [| split; [reflexivity |]].
  - rewrite missing_then_400.
    + unfold required_fields_response, obj_false. now rewrite Hm.
    + intro E. assert (H : In f0 (missingFields req))
        by (apply missingFields_spec; auto).
      now rewrite E in H.
  - intros field Hin Hb.
    assert (H : In field (missingFields req))
      by (apply missingFields_spec; auto).
    rewrite Hm in H.
    destruct (join_occurs ", " _ _ H) as (pre & post & E).
    exists ("Missing required fields: " ++ pre)%string, post.
    rewrite E. now rewrite append_assoc.
Qed.

Lemma createRestaurant_reports_every_missing_field_witness :
  blank (resolve (body Sample.incomplete) "address.city") /\
  blank (resolve (body Sample.incomplete) "foodType") /\
  createRestaurant Sample.world Sample.incomplete [] =
    (mkResponse 400
       (JObj [("success", JBool false);
              ("message",
               JStr "Missing required fields: ownerName, phone, email, password, fssaiNumber, gstNumber, aadharNumber, address.city, address.state, foodType, openingHours");
              ("code", JStr "REQUIRED_FIELD_MISSING")]), []).
Proof.
  split; [right; reflexivity |]. split; [left; reflexivity |].
  destruct (createRestaurant_reports_every_missing_field
              Sample.world Sample.incomplete [])
    as (message & E & -> & _).
  - exists "foodType". split; [| left; reflexivity].
    do 11 right. left. reflexivity.
  - exact E.
Defined.

Lemma nullish_body_misses_name req :
  is_nullish (body req) = true -> In "name" (missingFields req).
Proof.
  intro H. apply missingFields_spec. split; [now left |].
  left. unfold resolve. simpl. unfold get_opt. now rewrite H.
Qed.

(** The six steps in the words of the specification, for a request whose
    password and food type are strings: every required path present, a
    password of eight characters or more, a food type among the three, an
    opening-hours text that parses to an array, the three documents
    attached, and payment methods all allowed. *)
Lemma validate_passes w req log password foodType openingHours methods :
  missingFields req = [] ->
  own (body req) "password" = JStr password ->
  num_ltb (num_of_nat (String.length password)) (num_of_Z 8) = false ->
  own (body req) "foodType" = JStr foodType ->
  In (trim foodType) validFoodTypes ->
  JSON_parse w (to_string (Number_toString w) (own (body req) "openingHours")) =
    Some (JArr openingHours) ->
  missingDocs req = [] ->
  normalizePaymentMethods (own (body req) "paymentMethods") = JArr methods ->
  filter not_allowed methods = [] ->
  validate w req log = (Continue (JArr openingHours, JArr methods), log).
Proof.
  intros Hmiss Hpw Hlen Hft Hin Hoh Hdocs Hpm Hok.
  assert (Hb : is_nullish (body req) = false).
  { destruct (is_nullish (body req)) eqn:E; [| reflexivity].
    apply nullish_body_misses_name in E. now rewrite Hmiss in E. }
  assert (E1 : check_required_fields req log = (Continue tt, log))
    by (unfold check_required_fields; now rewrite Hmiss).
  assert (E2 : check_password w req log = (Continue tt, log)).
  { unfold check_password. rewrite (get_not_nullish _ _ Hb), Hpw.
    unfold bind, eval, ret. cbn [get own String.eqb Ascii.eqb Bool.eqb].
    unfold lt_number. cbn [to_number]. now rewrite Hlen. }
  assert (E3 : check_foodType req log = (Continue tt, log)).
  { unfold check_foodType. rewrite (get_not_nullish _ _ Hb), Hft.
    unfold bind, eval, ret. cbn [call_trim includes].
    assert (H : existsb (String.eqb (trim foodType)) validFoodTypes = true).
    { apply existsb_exists. exists (trim foodType).
      split; [exact Hin | apply String.eqb_refl]. }
    now rewrite H. }
  assert (E4 : parse_openingHours w req log = (Continue (JArr openingHours), log)).
  { unfold parse_openingHours. now rewrite (get_not_nullish _ _ Hb), Hoh. }
  assert (E5 : check_documents req log = (Continue tt, log))
    by (unfold check_documents; now rewrite Hdocs).
  assert (E6 : check_paymentMethods w req log = (Continue (JArr methods), log)).
  { unfold check_paymentMethods. rewrite (get_not_nullish _ _ Hb).
    unfold bind at 1. cbn [eval]. unfold ret at 1. rewrite Hpm.
    unfold bind, eval, ret. cbn [invalidMethods]. fold not_allowed.
    now rewrite Hok. }
  assert (E : validate_fields w req log = (Continue (JArr openingHours), log)).
  { unfold validate_fields.
    rewrite (bind_Continue _ _ _ _ _ E1), (bind_Continue _ _ _ _ _ E2),
      (bind_Continue _ _ _ _ _ E3), (bind_Continue _ _ _ _ _ E4),
      (bind_Continue _ _ _ _ _ E5). reflexivity. }
  unfold validate.
  rewrite (bind_Continue _ _ _ _ _ E), (bind_Continue _ _ _ _ _ E6).
  reflexivity.
Qed.

(** ** Payment methods *)








(** ** Uploads *)

Lemma upload_Continue w req i doc result log l :
  upload w req i doc log = (Continue result, l) ->
  uploadOnCloudinary w i (document_path req doc) = inr result.
Proof.
  unfold upload, bind.
  destruct (get_path (files req) [doc; "0"; "path"]) as [e | path] eqn:Ep;
    simpl; [discriminate |].
  apply get_path_inr3 in Ep. fold (document_path req doc) in Ep. subst path.
  destruct (uploadOnCloudinary w i (document_path req doc));
    simpl; [discriminate |].
  now intros [= <- _].
Qed.

(** Once the three uploads are over and the check on their results is
    passed, none of them has failed. *)
Lemma upload_documents_Continue w req docs log l :
  upload_documents w req log = (Continue docs, l) ->
  upload_fails w req 0 "fssaiDoc" = false /\
  upload_fails w req 1 "gstDoc" = false /\
  upload_fails w req 2 "aadharDoc" = false.
Proof.
  unfold upload_documents. intro H.
  next H d1. next H d2. next H d3.
  repeat match goal with
         | E : upload _ _ _ _ _ = _ |- _ => apply upload_Continue in E
         end.
  unfold upload_fails.
  repeat match goal with
         | E : uploadOnCloudinary _ _ _ = _ |- _ => rewrite E; clear E
         end.
  destruct (truthy d1), (truthy d2), (truthy d3); simpl in H;
    try discriminate; auto.
Qed.

(** C3.  After a passed validation, when one of the three uploads fails
    (its promise rejects, or resolves to a falsy value), the handler
    answers 500 and writes nothing: no restaurant and no permission is
    created.  This holds whatever the scope binds, and so for the handler
    as exported. *)
Theorem failed_upload_aborts_onboarding scope w req log v :
  validate w req log = (Continue v, log) ->
  upload_fails w req 0 "fssaiDoc" || upload_fails w req 1 "gstDoc" ||
    upload_fails w req 2 "aadharDoc" = true ->
  (status (fst (createRestaurant_in scope w req log)) = 500 /\
   snd (createRestaurant_in scope w req log) = log) /\
  (status (fst (createRestaurant w req log)) = 500 /\
   snd (createRestaurant w req log) = log).
Proof.
  intros Hv Hf.
  assert (G : forall sc,
             status (fst (createRestaurant_in sc w req log)) = 500 /\
             snd (createRestaurant_in sc w req log) = log).
  { intro sc.
    destruct (createRestaurant_runs sc w req log)
      as [resp Hr _ | e | v' h docs data doc e _ _ Hu | v' h docs data doc p _ _ Hu].
    - rewrite Hv in Hr. discriminate.
    - split; reflexivity.
    - apply upload_documents_Continue in Hu as (U0 & U1 & U2).
      rewrite U0, U1, U2 in Hf. discriminate.
    - apply upload_documents_Continue in Hu as (U0 & U1 & U2).
      rewrite U0, U1, U2 in Hf. discriminate. }
  split; [apply G | apply (G module_scope)].
Qed.

Lemma failed_upload_aborts_onboarding_witness :
  upload_fails Sample.world_upload_fails Sample.onboarding 1 "gstDoc" = true /\
  createRestaurant_in Sample.scope_with_bcrypt Sample.world_upload_fails
    Sample.onboarding [] =
    (mkResponse 500
       (JObj [("success", JBool false);
              ("message", JStr "Something went wrong");
              ("error", JStr "Document upload failed")]), []) /\
  status (fst (createRestaurant_in Sample.scope_with_bcrypt
                 Sample.world_upload_fails Sample.onboarding [])) = 500 /\
  snd (createRestaurant_in Sample.scope_with_bcrypt
         Sample.world_upload_fails Sample.onboarding []) = [].
Proof.
  split; [reflexivity |]. split; [reflexivity |].
  apply (failed_upload_aborts_onboarding Sample.scope_with_bcrypt
           Sample.world_upload_fails Sample.onboarding []
           (JArr [], JArr [JStr "online"])); reflexivity.
Defined.

(** ** Permissions *)

(** C4.  Whenever the handler gives the 201 answer, whatever the scope
    binds: the run has written exactly one restaurant and exactly one
    permission record; the permission carries the id of the new
    restaurant, which is the id of the answer, with canManageMenu and
    canViewReports true and canAcceptOrder, canRejectOrder and
    canManageOffers false. *)
Theorem created_restaurant_has_default_permission scope w req log resp log' :
  createRestaurant_in scope w req log = (resp, log') ->
  status resp = 201 ->
  exists new newRestaurant,
    log' = (log ++ new)%list /\
    restaurants_created new = [newRestaurant] /\
    get_path (payload resp) ["data"; "restaurantId"] =
      inr (lookup "_id" newRestaurant) /\
    permissions_created new =
      [JObj [("restaurantId", lookup "_id" newRestaurant);
             ("permissions",
              JObj [("canManageMenu", JBool true);
                    ("canAcceptOrder", JBool false);
                    ("canRejectOrder", JBool false);
                    ("canManageOffers", JBool false);
                    ("canViewReports", JBool true)])]].
Proof.
  intros Hrun Hst.
  pose proof (createRestaurant_runs scope w req log) as R.
  rewrite Hrun in R.
  inversion R as [resp' _ H4 | e | v h docs data doc e | v h docs data doc p];
    subst.
  - rewrite H4 in Hst. discriminate.
  - discriminate.
  - discriminate.
  - exists [RestaurantCreated data doc;
            PermissionCreated (defaultPermissions (lookup "_id" doc))], doc.
    repeat split.
Qed.

Lemma created_restaurant_has_default_permission_witness :
  status (fst Sample.onboarding_run) = 201 /\
  exists new newRestaurant,
    snd Sample.onboarding_run = ([] ++ new)%list /\
    restaurants_created new = [newRestaurant] /\
    get_path (payload (fst Sample.onboarding_run)) ["data"; "restaurantId"] =
      inr (lookup "_id" newRestaurant) /\
    permissions_created new =
      [JObj [("restaurantId", lookup "_id" newRestaurant);
             ("permissions",
              JObj [("canManageMenu", JBool true);
                    ("canAcceptOrder", JBool false);
                    ("canRejectOrder", JBool false);
                    ("canManageOffers", JBool false);
                    ("canViewReports", JBool true)])]].
Proof.
  split; [reflexivity |].
  apply (created_restaurant_has_default_permission
           Sample.scope_with_bcrypt Sample.world Sample.onboarding []
           (fst Sample.onboarding_run) (snd Sample.onboarding_run));
    reflexivity.
Defined.

(** ** Coordinates *)

Lemma coordinate_nan w x :
  num_is_nan (parseFloat (Number_toString w) x) = true ->
  coordinate w x = JNum (S754_zero false).
Proof.
  unfold coordinate, js_or. intro H.
  destruct (parseFloat (Number_toString w) x); try discriminate. reflexivity.
Qed.

(** The coordinates of the data handed to [Restaurant.create]. *)
Lemma restaurantData_coordinates w req h o p docs data log l :
  restaurantData w req h o p docs log = (Continue data, l) ->
  get_path data ["location"; "coordinates"] =
    inr (JArr [coordinate w (own (own (body req) "address") "longitude");
               coordinate w (own (own (body req) "address") "latitude")]).
Proof.
  unfold restaurantData. destruct docs as [[fssaiDoc gstDoc] aadharDoc].
  intro H.
  next H name. next H ownerName. next H street. next H city. next H state.
  next H pincode. next H zip. next H longitude. next H latitude.
  next H phone. next H email. next H foodType. next H minOrderAmount.
  next H fssaiNumber. next H gstNumber. next H aadharNumber.
  next H fssaiDocUrl. next H gstDocUrl. next H aadharDocUrl.
  match goal with
  | E : eval (get_path _ ["address"; "longitude"]) _ = _ |- _ =>
      apply eval_Continue_inv in E as [E _]; apply get_path_inr2 in E
  end.
  match goal with
  | E : eval (get_path _ ["address"; "latitude"]) _ = _ |- _ =>
      apply eval_Continue_inv in E as [E _]; apply get_path_inr2 in E
  end.
  subst longitude latitude.
  unfold ret in H. injection H as <- _. reflexivity.
Qed.

(** Two requests that differ only inside [address], and not on the
    required paths, are validated alike. *)
Section Agreement.

Variable w : World.
Variables req req' : Request.
Hypothesis same_files : files req' = files req.
Hypothesis same_fields :
  forall k, k <> "address" -> get (body req') k = get (body req) k.
Hypothesis same_missing :
  forall f, In f requiredFields -> is_missing req' f = is_missing req f.

Lemma validate_agrees log : validate w req' log = validate w req log.
Proof.
  unfold validate, validate_fields, check_required_fields, check_password,
    check_foodType, parse_openingHours, check_documents, check_paymentMethods,
    required_fields_response, missingDocs, first_file, missingFields.
  rewrite same_files.
  rewrite !same_fields by discriminate.
  rewrite (filter_ext_in _ _ _ same_missing).
  reflexivity.
Qed.

End Agreement.

Lemma validate_ignores_coordinates w req longitude latitude log :
  validate w (with_coordinates longitude latitude req) log =
  validate w req log.
Proof.
  unfold with_coordinates.
  destruct (body req) as [| | | | | | b] eqn:Eb; try reflexivity.
  destruct (lookup "address" b) as [| | | | | | a] eqn:Ea; try reflexivity.
  apply validate_agrees; simpl.
  - reflexivity.
  - intros k Hk. rewrite Eb. simpl. now rewrite lookup_set_prop_other.
  - intros f Hf. unfold is_missing. simpl body. rewrite Eb.
    repeat (destruct Hf as [<- | Hf]); try contradiction; simpl;
      unfold get_opt; simpl;
      rewrite ?lookup_set_prop_same, ?Ea; simpl;
      rewrite ?lookup_set_prop_other by discriminate; reflexivity.
Qed.

(** C10.  Whatever the scope binds, the data of every restaurant the
    handler writes has location.coordinates
    [parseFloat(address.longitude) || 0, parseFloat(address.latitude) || 0]:
    a component whose text parses to NaN, and an absent one, is 0.  The
    validation of a request does not depend on the two coordinates, and
    neither path is in the list of required fields. *)
Theorem coordinates_default_to_zero scope w req log resp new data doc :
  createRestaurant_in scope w req log = (resp, (log ++ new)%list) ->
  In (RestaurantCreated data doc) new ->
  (exists longitude latitude,
     get_path data ["location"; "coordinates"] = inr (JArr [longitude; latitude]) /\
     longitude = coordinate w (own (own (body req) "address") "longitude") /\
     latitude = coordinate w (own (own (body req) "address") "latitude")) /\
  (own (own (body req) "address") "longitude" = JUndefined ->
   own (own (body req) "address") "latitude" = JUndefined ->
   get_path data ["location"; "coordinates"] =
     inr (JArr [JNum (S754_zero false); JNum (S754_zero false)])) /\
  (forall x, num_is_nan (parseFloat (Number_toString w) x) = true ->
             coordinate w x = JNum (S754_zero false)) /\
  coordinate w JUndefined = JNum (S754_zero false) /\
  (forall longitude latitude log0,
     validate w (with_coordinates longitude latitude req) log0 =
     validate w req log0) /\
  ~ In "address.longitude" requiredFields /\
  ~ In "address.latitude" requiredFields.
Proof.
  intros Hrun Hin.
  assert (Hdata :
            get_path data ["location"; "coordinates"] =
              inr (JArr [coordinate w (own (own (body req) "address") "longitude");
                         coordinate w (own (own (body req) "address") "latitude")])).
  { pose proof (createRestaurant_runs scope w req log) as R.
    rewrite Hrun in R.
    inversion R; subst;
      match goal with
      | Hl : ?l = (?l ++ new)%list |- _ =>
          apply app_self_nil in Hl; subst new; contradiction
      | Hl : (?l ++ _)%list = (?l ++ new)%list |- _ =>
          apply app_inv_head in Hl; subst new
      end.
    - destruct Hin as [[= <- <-] | []].
      eapply restaurantData_coordinates; eassumption.
    - destruct Hin as [[= <- <-] | [[=] | []]].
      eapply restaurantData_coordinates; eassumption. }
  split; [| split; [| split; [| split; [| split; [| split]]]]].
  - eexists _, _. split; [exact Hdata | split; reflexivity].
  - intros Hlon Hlat. rewrite Hdata, Hlon, Hlat. reflexivity.
  - apply coordinate_nan.
  - reflexivity.
  - intros. apply validate_ignores_coordinates.
  - simpl. intuition discriminate.
  - simpl. intuition discriminate.
Qed.

Lemma coordinates_default_to_zero_witness :
  status (fst Sample.lost_run) = 201 /\
  In (RestaurantCreated (fst (Sample.first_created (snd Sample.lost_run)))
                        (snd (Sample.first_created (snd Sample.lost_run))))
     (snd Sample.lost_run) /\
  get_path (fst (Sample.first_created (snd Sample.lost_run)))
           ["location"; "coordinates"] =
    inr (JArr [JNum (S754_zero false); JNum (S754_zero false)]).
Proof.
  split; [reflexivity |]. split; [left; reflexivity |].
  destruct (proj1 (coordinates_default_to_zero
                     Sample.scope_with_bcrypt Sample.world
                     Sample.onboarding_lost [] (fst Sample.lost_run)
                     (snd Sample.lost_run)
                     (fst (Sample.first_created (snd Sample.lost_run)))
                     (snd (Sample.first_created (snd Sample.lost_run)))
                     eq_refl (or_introl eq_refl)))
    as (longitude & latitude & E & -> & ->).
  exact E.
Defined.

End CreateRestaurantFacts.

(* ===================================================================== *)
(** * updateBusinessHours                                                 *)
(* ===================================================================== *)

Module BusinessHoursFacts.
Import Js Http Controller Spec HandlerFacts JsFacts.
Local Open Scope handler_scope.

(** One turn of the loop, for a day whose value can be destructured. *)
Lemma check_days_cons w day times rest log :
  is_nullish times = false ->
  check_days w ((day, times) :: rest) log =
    if negb (includes validDays (JStr day)) then
      (Respond (mkResponse 400 (message_only ("Invalid day: " ++ day))), log)
    else if strict_eq (own times "closed") (JBool true) then
      check_days w rest log
    else if negb (truthy (own times "startTime")) ||
            negb (truthy (own times "endTime")) then
      (Respond (mkResponse 400
         (message_only ("Missing startTime or endTime for " ++ day ++ "."))), log)
    else if negb (timeRegex_test w (own times "startTime")) ||
            negb (timeRegex_test w (own times "endTime")) then
      (Respond (mkResponse 400
         (message_only ("Invalid time format for " ++ day ++ ". Use HH:mm."))),
       log)
    else check_days w rest log.
Proof.
  intro Hn. cbn [check_days].
  destruct (negb (includes validDays (JStr day))); [reflexivity |].
  rewrite !(get_not_nullish _ _ Hn). unfold bind, eval, ret.
  destruct (strict_eq (own times "closed") (JBool true)); [reflexivity |].
  destruct (negb (truthy (own times "startTime")) ||
            negb (truthy (own times "endTime"))); [reflexivity |].
  destruct (negb (timeRegex_test w (own times "startTime")) ||
            negb (timeRegex_test w (own times "endTime"))); reflexivity.
Qed.

Lemma check_days_accepts w days log :
  Forall has_times days ->
  forallb (day_ok w) days = true ->
  check_days w days log = (Continue tt, log).
Proof.
  induction 1 as [| [day times] rest Hn _ IH]; intro Hok; [reflexivity |].
  cbn [forallb] in Hok. apply andb_true_iff in Hok as [Hd Hrest].
  rewrite check_days_cons by exact Hn.
  unfold day_ok in Hd. cbn [fst snd] in Hd.
  apply andb_true_iff in Hd as [Hday Ht]. rewrite Hday. cbn [negb].
  destruct (strict_eq (own times "closed") (JBool true)); [now apply IH |].
  cbn [orb] in Ht. apply andb_true_iff in Ht as [Ht He].
  apply andb_true_iff in Ht as [Ht Hs].
  apply andb_true_iff in Ht as [Ht1 Ht2].
  rewrite Ht1, Ht2, Hs, He. cbn [negb orb]. now apply IH.
Qed.

Lemma check_days_rejects w days log :
  Forall has_times days ->
  forallb (day_ok w) days = false ->
  exists r, check_days w days log = (Respond r, log) /\ status r = 400.
Proof.
  induction 1 as [| [day times] rest Hn _ IH]; intro Hbad; [discriminate |].
  rewrite check_days_cons by exact Hn.
  cbn [forallb] in Hbad. unfold day_ok in Hbad at 1. cbn [fst snd] in Hbad.
  destruct (includes validDays (JStr day)); cbn [negb andb orb] in *;
    [| eexists; split; reflexivity].
  destruct (strict_eq (own times "closed") (JBool true)); cbn [negb andb orb] in *;
    [now apply IH |].
  destruct (truthy (own times "startTime")); cbn [negb andb orb] in *;
    [| eexists; split; reflexivity].
  destruct (truthy (own times "endTime")); cbn [negb andb orb] in *;
    [| eexists; split; reflexivity].
  destruct (timeRegex_test w (own times "startTime")); cbn [negb andb orb] in *;
    [| eexists; split; reflexivity].
  destruct (timeRegex_test w (own times "endTime")); cbn [negb andb orb] in *;
    [now apply IH | eexists; split; reflexivity].
Qed.

Lemma weekday_included day :
  In day validDays <-> includes validDays (JStr day) = true.
Proof.
  cbn [includes]. rewrite existsb_exists. split.
  - intro H. exists day. split; [exact H | apply String.eqb_refl].
  - intros (d & Hd & E). apply String.eqb_eq in E. now subst d.
Qed.

Lemma unknown_day_not_ok w days day times :
  In (day, times) days -> ~ In day validDays ->
  forallb (day_ok w) days = false.
Proof.
  intros Hin Hday.
  destruct (forallb (day_ok w) days) eqn:E; [| reflexivity].
  rewrite forallb_forall in E. specialize (E _ Hin).
  unfold day_ok in E. apply andb_true_iff in E as [E _].
  cbn [fst] in E. apply weekday_included in E. contradiction.
Qed.

Section Handler.

Variable w : World.
Variable req : Request.
Variable days : list (string * JsVal).

Hypothesis id_given : truthy (lookup "restaurantId" (params req)) = true.
Hypothesis id_valid :
  ObjectId_isValid w (lookup "restaurantId" (params req)) = true.
Hypothesis hours_given : get (body req) "businessHours" = inr (JObj days).
Hypothesis days_have_times : Forall has_times days.

Lemma updateBusinessHours_rejects log :
  forallb (day_ok w) days = false ->
  exists r, updateBusinessHours w req log = (r, log) /\ status r = 400.
Proof.
  intro Hbad.
  destruct (check_days_rejects w days log days_have_times Hbad) as (r & Hr & Hs).
  exists r. split; [| exact Hs].
  unfold updateBusinessHours, try_catch.
  rewrite hours_given. unfold bind at 1. simpl eval. unfold ret at 1.
  rewrite id_given, id_valid. simpl.
  now rewrite (bind_Respond _ _ _ _ _ Hr).
Qed.

Lemma updateBusinessHours_accepts log doc :
  forallb (day_ok w) days = true ->
  Restaurant_findById w (lookup "restaurantId" (params req)) = inr (Some doc) ->
  doc_save w (set_prop "businessHours" (JObj days) doc) = inr tt ->
  updateBusinessHours w req log =
    (mkResponse 200
       (JObj [("message", JStr "Business hours updated successfully.");
              ("businessHours",
               lookup "businessHours"
                 (set_prop "businessHours" (JObj days) doc))]),
     (log ++ [DocSaved (set_prop "businessHours" (JObj days) doc)])%list).
Proof.
  intros Hok Hfind Hsave.
  pose proof (check_days_accepts w days log days_have_times Hok) as Hc.
  unfold updateBusinessHours, try_catch.
  rewrite hours_given. unfold bind at 1. simpl eval. unfold ret at 1.
  rewrite id_given, id_valid. simpl.
  rewrite (bind_Continue _ _ _ _ _ Hc).
  rewrite Hfind. unfold bind at 1. simpl eval. unfold ret at 1.
  rewrite Hsave. unfold bind, eval, ret, write. reflexivity.
Qed.

End Handler.

(** The rule of the loop, where every day maps to a value that can be
    destructured.  For a request with a valid restaurant id whose
    businessHours is such an object: a day
    key outside the seven weekday names gives a 400 answer; more
    generally, as soon as one day breaks the rule [day_ok] (a weekday
    name, and either closed === true, or startTime and endTime both given
    and both matching the HH:MM expression) the answer is 400 and nothing
    is written; when every day keeps the rule, the hours are saved and the
    answer is 200 (the restaurant being found and the save accepted).  A
    valid day marked closed keeps the rule without any time; a day that is
    not closed keeps it only with both times, in format.  So
    {monday: {closed: true}} passes, and
    {monday: {startTime: "25:00", endTime: "10:00"}} is answered 400 with
    the invalid-time-format message. *)
Theorem updateBusinessHours_validates_each_day w req days log :
  truthy (lookup "restaurantId" (params req)) = true ->
  ObjectId_isValid w (lookup "restaurantId" (params req)) = true ->
  get (body req) "businessHours" = inr (JObj days) ->
  Forall has_times days ->
  ((exists day times, In (day, times) days /\ ~ In day validDays) ->
   status (fst (updateBusinessHours w req log)) = 400) /\
  (forallb (day_ok w) days = false ->
   status (fst (updateBusinessHours w req log)) = 400 /\
   snd (updateBusinessHours w req log) = log) /\
  (forallb (day_ok w) days = true ->
   forall doc,
     Restaurant_findById w (lookup "restaurantId" (params req)) = inr (Some doc) ->
     doc_save w (set_prop "businessHours" (JObj days) doc) = inr tt ->
     status (fst (updateBusinessHours w req log)) = 200 /\
     snd (updateBusinessHours w req log) =
       (log ++ [DocSaved (set_prop "businessHours" (JObj days) doc)])%list) /\
  (forall day times,
     In day validDays -> own times "closed" = JBool true ->
     day_ok w (day, times) = true) /\
  (forall day times,
     day_ok w (day, times) = true ->
     strict_eq (own times "closed") (JBool true) = false ->
     truthy (own times "startTime") = true /\
     truthy (own times "endTime") = true /\
     timeRegex_test w (own times "startTime") = true /\
     timeRegex_test w (own times "endTime") = true) /\
  day_ok w ("monday", JObj [("closed", JBool true)]) = true /\
  check_days w [("monday", JObj [("startTime", JStr "25:00");
                                 ("endTime", JStr "10:00")])] log =
    (Respond (mkResponse 400
       (JObj [("message", JStr "Invalid time format for monday. Use HH:mm.")])),
     log).
Proof.
  intros Hid Hvalid Hbody Htimes.
  split; [| split; [| split; [| split; [| split; [| split]]]]].
  - intros (day & times & Hin & Hday).
    destruct (updateBusinessHours_rejects w req days Hid Hvalid Hbody Htimes log)
      as (r & -> & Hr); [| exact Hr].
    eapply unknown_day_not_ok; eassumption.
  - intro Hbad.
    destruct (updateBusinessHours_rejects w req days Hid Hvalid Hbody Htimes log
                Hbad) as (r & -> & Hr).
    now split.
  - intros Hok doc Hfind Hsave.
    rewrite (updateBusinessHours_accepts w req days Hid Hvalid Hbody Htimes
               log doc Hok Hfind Hsave).
    split; reflexivity.
  - intros day times Hday Hclosed. unfold day_ok. cbn [fst snd].
    apply weekday_included in Hday. rewrite Hday, Hclosed. reflexivity.
  - intros day times Hok Hopen. unfold day_ok in Hok. cbn [fst snd] in Hok.
    rewrite Hopen in Hok. cbn [orb] in Hok.
    apply andb_true_iff in Hok as [_ Hok].
    apply andb_true_iff in Hok as [Hok He].
    apply andb_true_iff in Hok as [Hok Hs].
    apply andb_true_iff in Hok as [H1 H2]. auto.
  - reflexivity.
  - reflexivity.
Qed.

Lemma updateBusinessHours_validates_each_day_witness :
  forallb (day_ok Sample.world) Sample.closed_on_monday = true /\
  status (fst (updateBusinessHours Sample.world
                 (Sample.hours_request Sample.closed_on_monday) [])) = 200 /\
  snd (updateBusinessHours Sample.world
         (Sample.hours_request Sample.closed_on_monday) []) =
    [DocSaved (set_prop "businessHours" (JObj Sample.closed_on_monday)
                        Sample.sample_restaurant)].
Proof.
  split; [reflexivity |].
  refine (proj1 (proj2 (proj2
            (updateBusinessHours_validates_each_day
               Sample.world (Sample.hours_request Sample.closed_on_monday)
               Sample.closed_on_monday [] eq_refl eq_refl eq_refl _)))
            eq_refl Sample.sample_restaurant eq_refl eq_refl).
  repeat constructor.
Defined.

(** The second example of the claim, through the whole handler. *)
Example updateBusinessHours_bad_time :
  updateBusinessHours Sample.world
    (Sample.hours_request
       [("monday", JObj [("startTime", JStr "25:00"); ("endTime", JStr "10:00")])])
    [] =
  (mkResponse 400
     (JObj [("message", JStr "Invalid time format for monday. Use HH:mm.")]),
   []).
Proof. reflexivity. Qed.

(** The expression admits a one-digit hour. *)
Example one_digit_hour_accepted w :
  day_ok w ("sunday", JObj [("startTime", JStr "9:30"); ("endTime", JStr "23:59")])
  = true.
Proof. reflexivity. Qed.

(** A day mapped to [null] cannot be destructured: the handler answers 500
    before it looks at the days after it. *)
Example updateBusinessHours_null_day :
  updateBusinessHours Sample.world
    (Sample.hours_request [("monday", JNull); ("funday", JObj [])]) [] =
  (mkResponse 500 (JObj [("message", JStr "Server error.")]), []).
Proof. reflexivity. Qed.

(** A day that maps to [null] or [undefined], after days that keep the
    rule: the destructuring throws, whatever comes after it. *)
Lemma check_days_null_value w before day hole after log :
  Forall has_times before ->
  forallb (day_ok w) before = true ->
  In day validDays ->
  is_nullish hole = true ->
  exists e,
    check_days w (before ++ (day, hole) :: after)%list log = (Throw e, log).
Proof.
  intros Ht Hok Hday Hh.
  induction Ht as [| [d times] rest Hn _ IH]; cbn [app].
  - cbn [check_days]. apply weekday_included in Hday. rewrite Hday.
    cbn [negb]. destruct hole; try discriminate; eexists; reflexivity.
  - cbn [forallb] in Hok. apply andb_true_iff in Hok as [Hd Hrest].
    rewrite check_days_cons by exact Hn.
    unfold day_ok in Hd. cbn [fst snd] in Hd.
    apply andb_true_iff in Hd as [Hd Hrule]. rewrite Hd. cbn [negb].
    destruct (strict_eq (own times "closed") (JBool true)); [now apply IH |].
    cbn [orb] in Hrule. apply andb_true_iff in Hrule as [Hrule He].
    apply andb_true_iff in Hrule as [Hrule Hs].
    apply andb_true_iff in Hrule as [H1 H2].
    rewrite H1, H2, Hs, He. cbn [negb orb]. now apply IH.
Qed.

(** C7.  Where the code leaves the claim: a weekday that maps to [null]
    (or [undefined]) is neither answered 400 for its missing times, nor
    are the days after it looked at.  For a valid restaurant id, as soon
    as such a day comes after days that keep the rule, the handler answers
    500 and writes nothing, whatever the later entries are: so
    {monday: null, funday: {}} is answered 500 although funday is no
    weekday name, and so is {monday: null}, a day that is not marked
    closed and has no times; with the two keys in the other order the
    answer is the 400 for the invalid day.  The handler does guard against
    a businessHours that is itself [null] (400), but not against a day
    value that is. *)
Theorem updateBusinessHours_null_day_is_a_server_error :
  (forall w req before day hole after log,
     truthy (lookup "restaurantId" (params req)) = true ->
     ObjectId_isValid w (lookup "restaurantId" (params req)) = true ->
     get (body req) "businessHours" =
       inr (JObj (before ++ (day, hole) :: after)%list) ->
     Forall has_times before ->
     forallb (day_ok w) before = true ->
     In day validDays ->
     is_nullish hole = true ->
     updateBusinessHours w req log =
       (mkResponse 500 (JObj [("message", JStr "Server error.")]), log)) /\
  ~ In "funday" validDays /\
  updateBusinessHours Sample.world
    (Sample.hours_request [("monday", JNull); ("funday", JObj [])]) [] =
    (mkResponse 500 (JObj [("message", JStr "Server error.")]), []) /\
  updateBusinessHours Sample.world
    (Sample.hours_request [("monday", JNull)]) [] =
    (mkResponse 500 (JObj [("message", JStr "Server error.")]), []) /\
  updateBusinessHours Sample.world
    (Sample.hours_request [("funday", JObj []); ("monday", JNull)]) [] =
    (mkResponse 400 (JObj [("message", JStr "Invalid day: funday")]), []) /\
  updateBusinessHours Sample.world
    (mkRequest [("restaurantId", JStr Sample.sample_id)]
       (JObj [("businessHours", JNull)]) JUndefined) [] =
    (mkResponse 400
       (JObj [("message", JStr "businessHours must be a valid object.")]), []).
Proof.
  split; [| split; [| repeat split]].
  - intros w req before day hole after log Hid Hvalid Hbody Ht Hok Hday Hh.
    destruct (check_days_null_value w before day hole after log Ht Hok Hday Hh)
      as (e & He).
    unfold updateBusinessHours, try_catch.
    rewrite Hbody. unfold bind at 1. simpl eval. unfold ret at 1.
    rewrite Hid, Hvalid. simpl.
    now rewrite (bind_Throw _ _ _ _ _ He).
  - cbn. intuition discriminate.
Qed.

End BusinessHoursFacts.

(* ===================================================================== *)
(** * addKyc and getKyc                                                   *)
(* ===================================================================== *)

Module KycFacts.
Import Js Http Controller Spec HandlerFacts JsFacts.
Local Open Scope handler_scope.

Lemma upload_all_quiet w fs : quiet (upload_all w fs).
Proof.
  unfold upload_all. destruct fs; try apply quiet_throw.
  apply quiet_bind.
  - apply quiet_map_from. intros; apply quiet_eval.
  - intro paths. apply quiet_map_from. intros; apply quiet_eval.
Qed.

Lemma kyc_uploads_quiet w req :
  quiet (if truthy (files req) &&
            gt_number (Number_toString w) (own (files req) "length") (num_of_Z 0)
         then uploads <- upload_all w (files req) ;; ret (uploaded_urls uploads)
         else ret []).
Proof.
  destruct (truthy (files req) && _).
  - apply quiet_bind; [apply upload_all_quiet | intro; apply quiet_ret].
  - apply quiet_ret.
Qed.

Lemma addKyc_never_400 w req log : not_400 (fst (addKyc w req log)).
Proof.
  unfold addKyc. apply try_catch_status.
  - apply answers_bind; [apply answers_eval |].
    intros [doc |]; [| apply answers_respond; discriminate].
    apply answers_bind; [apply quiet_answers, kyc_uploads_quiet |]. intro urls.
    apply answers_bind; [apply answers_eval |]. intro old.
    apply answers_bind; [apply answers_eval |]. intros [].
    apply answers_bind; [apply answers_write |]. intros [].
    apply answers_ret.
  - apply returns_bind.
    intros [doc |]; [| apply returns_respond].
    repeat (apply returns_bind; intro).
    apply returns_ret. discriminate.
  - intro e. discriminate.
Qed.

Lemma getKyc_never_400 w req log : not_400 (fst (getKyc w req log)).
Proof.
  unfold getKyc. apply try_catch_status.
  - apply answers_bind; [apply answers_eval |].
    intros [doc |]; [apply answers_ret | apply answers_respond; discriminate].
  - apply returns_bind.
    intros [doc |]; [apply returns_ret; discriminate | apply returns_respond].
  - intro e. discriminate.
Qed.

(** The sibling handler checks the shape first. *)
Lemma getRestaurantById_checks_shape w req log :
  ObjectId_isValid w (lookup "restaurantId" (params req)) = false ->
  status (fst (getRestaurantById w req log)) = 400.
Proof.
  intro H. unfold getRestaurantById, try_catch.
  destruct (truthy (lookup "restaurantId" (params req))); cbn [negb];
    [rewrite H |]; reflexivity.
Qed.

(** With a store that refuses to cast a malformed id, as Mongoose does. *)
Example addKyc_malformed_id :
  addKyc Sample.world Sample.malformed_id_request [] =
  (mkResponse 500 (JObj [("message", JStr "Server error while uploading KYC.")]),
   []).
Proof. reflexivity. Qed.

Example getKyc_malformed_id :
  getKyc Sample.world Sample.malformed_id_request [] =
  (mkResponse 500 (JObj [("message", JStr "Server error while fetching KYC.")]),
   []).
Proof. reflexivity. Qed.

Example getRestaurantById_malformed_id :
  getRestaurantById Sample.world Sample.malformed_id_request [] =
  (mkResponse 400 (JObj [("message", JStr "Invalid restaurantId format.")]), []).
Proof. reflexivity. Qed.

(** C2.  What the code does where the claim expects the 400 answer for an
    id of the wrong shape: addKyc and getKyc never answer 400, whatever the
    id, the store and the uploads, because they hand the id to
    [Restaurant.findById] as it comes; with a store that refuses to cast
    the id "not-an-object-id" both answer 500, where getRestaurantById,
    which checks the shape first, answers 400. *)
Theorem kyc_handlers_never_answer_400 :
  (forall w req log,
     status (fst (addKyc w req log)) <> 400 /\
     status (fst (getKyc w req log)) <> 400) /\
  ObjectId_isValid Sample.world
    (lookup "restaurantId" (params Sample.malformed_id_request)) = false /\
  status (fst (addKyc Sample.world Sample.malformed_id_request [])) = 500 /\
  status (fst (getKyc Sample.world Sample.malformed_id_request [])) = 500 /\
  status (fst (getRestaurantById Sample.world Sample.malformed_id_request []))
    = 400.
Proof.
  split.
  - intros w req log.
    split; [apply addKyc_never_400 | apply getKyc_never_400].
  - rewrite addKyc_malformed_id, getKyc_malformed_id,
      getRestaurantById_malformed_id.
    repeat split.
Qed.

End KycFacts.

(* ===================================================================== *)
(** * getRestaurantMenu                                                   *)
(* ===================================================================== *)

Module MenuFacts.
Import Js Http Controller Spec HandlerFacts JsFacts.
Local Open Scope handler_scope.

(** C8.  For a valid restaurant id: when the store has no active category
    the answer is the 404 failure; when it has some and the product
    queries succeed, the answer is 200 with one entry per category, in
    order; the entry of a category without products has the empty list of
    items; and no item of any entry has a revenueShare, costPrice or
    profitMargin property. *)
Theorem getRestaurantMenu_categories_and_items w req log :
  ObjectId_isValid w (lookup "restaurantId" (params req)) = true ->
  (Category_find w
     (JObj [("restaurantId", lookup "restaurantId" (params req));
            ("active", JBool true)]) = inr [] ->
   getRestaurantMenu w req log =
     (mkResponse 404
        (JObj [("message", JStr "No categories found for this restaurant.");
               ("messageType", JStr "failure");
               ("data", JNull)]), log)) /\
  (forall categories products_of,
     categories <> [] ->
     Category_find w
       (JObj [("restaurantId", lookup "restaurantId" (params req));
              ("active", JBool true)]) = inr categories ->
     (forall category, In category categories ->
        Product_find w
          (JObj [("restaurantId", lookup "restaurantId" (params req));
                 ("categoryId", lookup "_id" category)]) =
        inr (products_of category)) ->
     getRestaurantMenu w req log =
       (mkResponse 200
          (JObj [("message", JStr "Menu fetched successfully");
                 ("messageType", JStr "success");
                 ("data", JArr (map (menu_entry_of products_of) categories))]),
        log) /\
     forall category, In category categories ->
       (products_of category = [] ->
        own (menu_entry_of products_of category) "items" = JArr []) /\
       forall items item field,
         own (menu_entry_of products_of category) "items" = JArr items ->
         In item items ->
         In field ["revenueShare"; "costPrice"; "profitMargin"] ->
         own item field = JUndefined).
Proof.
  intro Hvalid. split.
  - intro Hfind. unfold getRestaurantMenu, try_catch.
    rewrite Hvalid. cbn [negb]. rewrite Hfind. reflexivity.
  - intros categories products_of Hne Hfind Hprod. split.
    + unfold getRestaurantMenu, try_catch.
      rewrite Hvalid. cbn [negb]. rewrite Hfind.
      unfold bind at 1. cbn [eval]. unfold ret at 1.
      destruct categories as [| c cs]; [contradiction |].
      cbn [List.length Nat.eqb].
      assert (Hm : map_from 0
                     (fun _ category =>
                        menu_entry w (lookup "restaurantId" (params req)) category)
                     (c :: cs) log =
                   (Continue (map (menu_entry_of products_of) (c :: cs)), log)).
      { apply map_from_all. intros j x Hx.
        unfold menu_entry. rewrite (Hprod x Hx). reflexivity. }
      now rewrite (bind_Continue _ _ _ _ _ Hm).
    + intros category Hin. split.
      * intro He. unfold menu_entry_of. rewrite He. reflexivity.
      * intros items item field Hitems Hitem Hfield.
        unfold menu_entry_of in Hitems. cbn in Hitems.
        injection Hitems as <-.
        apply in_map_iff in Hitem as (doc & <- & Hdoc).
        apply in_map_iff in Hdoc as (p & <- & _).
        cbn [own]. now apply lookup_drop_props.
Qed.

Lemma getRestaurantMenu_categories_and_items_witness :
  ObjectId_isValid Sample.world_with_menu
    (lookup "restaurantId" (params Sample.menu_request)) = true /\
  getRestaurantMenu Sample.world_with_menu Sample.menu_request [] =
    (mkResponse 200
       (JObj [("message", JStr "Menu fetched successfully");
              ("messageType", JStr "success");
              ("data",
               JArr (map (menu_entry_of Sample.products_of)
                         [Sample.starters; Sample.desserts]))]), []) /\
  own (menu_entry_of Sample.products_of Sample.desserts) "items" = JArr [] /\
  own (menu_entry_of Sample.products_of Sample.starters) "items" =
    JArr [JObj [("_id", JStr "64b7f0c2a1e4d5f6a7b8c9e1");
                ("name", JStr "Samosa");
                ("price", JNum (num_of_Z 40))]].
Proof.
  split; [reflexivity |].
  split; [| split; reflexivity].
  refine (proj1 (proj2 (getRestaurantMenu_categories_and_items
                          Sample.world_with_menu Sample.menu_request []
                          eq_refl)
                   [Sample.starters; Sample.desserts] Sample.products_of
                   _ eq_refl _)).
  - discriminate.
  - intros category [<- | [<- | []]]; reflexivity.
Defined.

Example getRestaurantMenu_no_category :
  getRestaurantMenu Sample.world Sample.menu_request [] =
  (mkResponse 404
     (JObj [("message", JStr "No categories found for this restaurant.");
            ("messageType", JStr "failure");
            ("data", JNull)]), []).
Proof. reflexivity. Qed.

End MenuFacts.

(* ===================================================================== *)
(** * getRestaurantEarningSummary                                         *)
(* ===================================================================== *)

Module EarningFacts.
Import Js Http Controller Spec HandlerFacts JsFacts.
Local Open Scope handler_scope.

Lemma add_amount w a v field record :
  lookup field record = v -> numeric_or_absent v ->
  js_add (Number_toString w) (JNum a) (js_or v (JNum (num_of_Z 0))) =
  JNum (num_add a (amount field record)).
Proof.
  intros Hv Hn. unfold amount. rewrite Hv.
  destruct v as [| | | x | | |]; try contradiction; try reflexivity.
  unfold js_or. cbn [truthy]. destruct (num_falsy x); reflexivity.
Qed.

(** The [reduce] keeps two running binary64 sums. *)
Lemma fold_accumulate w records :
  Forall amounts_numeric records ->
  forall a r,
    fold_left (accumulate w) records (JNum a, JNum r) =
    (JNum (fold_left num_add (map (amount "totalOrderAmount") records) a),
     JNum (fold_left num_add (map (amount "revenueShareAmount") records) r)).
Proof.
  induction 1 as [| record rest [H1 H2] _ IH]; intros a r; [reflexivity |].
  cbn [fold_left map]. unfold accumulate at 2. cbn [fst snd].
  rewrite (add_amount w a _ "totalOrderAmount" record eq_refl H1).
  rewrite (add_amount w r _ "revenueShareAmount" record eq_refl H2).
  apply IH.
Qed.

(** C9.  When the query for the restaurant's earning records gives
    [records], whose two amounts are numbers or absent, the answer is 200
    with totalAmount the sum of the totalOrderAmount values and
    totalRevenue the sum of the revenueShareAmount values, an absent value
    counting for 0; on the two records (100, 10) and (50, 5) the summary
    is {totalAmount: 150, totalRevenue: 15}. *)
Theorem earning_summary_sums_the_records w req log records :
  RestaurantEarning_find w
    (JObj [("restaurantId", lookup "restaurantId" (params req))]) =
    inr records ->
  Forall amounts_numeric records ->
  getRestaurantEarningSummary w req log =
    (mkResponse 200
       (JObj [("success", JBool true);
              ("summary",
               JObj [("totalAmount", JNum (total "totalOrderAmount" records));
                     ("totalRevenue",
                      JNum (total "revenueShareAmount" records))])]), log) /\
  summarize w [Sample.earning 100 10; Sample.earning 50 5] =
    JObj [("totalAmount", JNum (num_of_Z 150));
          ("totalRevenue", JNum (num_of_Z 15))].
Proof.
  intros Hfind Hnum. split; [| reflexivity].
  unfold getRestaurantEarningSummary, try_catch. rewrite Hfind.
  unfold bind, eval, ret. unfold summarize.
  rewrite (fold_accumulate w records Hnum). reflexivity.
Qed.

Lemma earning_summary_sums_the_records_witness :
  Forall amounts_numeric [Sample.earning 100 10; Sample.earning 50 5] /\
  getRestaurantEarningSummary Sample.world_with_earnings Sample.menu_request [] =
    (mkResponse 200
       (JObj [("success", JBool true);
              ("summary",
               JObj [("totalAmount", JNum (num_of_Z 150));
                     ("totalRevenue", JNum (num_of_Z 15))])]), []).
Proof.
  assert (H : Forall amounts_numeric
                [Sample.earning 100 10; Sample.earning 50 5])
    by (repeat constructor).
  split; [exact H |].
  exact (proj1 (earning_summary_sums_the_records
                  Sample.world_with_earnings Sample.menu_request []
                  [Sample.earning 100 10; Sample.earning 50 5] eq_refl H)).
Defined.

(** A record without amounts counts for nothing. *)
Example summary_with_absent_amounts w :
  summarize w [Sample.earning 100 10; []; [("totalOrderAmount", JNull)]] =
  JObj [("totalAmount", JNum (num_of_Z 100));
        ("totalRevenue", JNum (num_of_Z 10))].
Proof. reflexivity. Qed.

End EarningFacts.

(* ===================================================================== *)
(** * Array lengths as binary64 numbers                                 *)
(* ===================================================================== *)

Module NumberFacts.
Import Js Cases.
Local Open Scope Z_scope.

Lemma shr_1_div2 mrs : 0 <= shr_m mrs -> shr_m (shr_1 mrs) = Z.div2 (shr_m mrs).
Proof.
  destruct mrs as [m r s]; cbn [shr_m].
  destruct m as [|p|p]; [reflexivity | destruct p; reflexivity | lia].
Qed.

Lemma iter_shr_1 k : forall mrs, 0 <= shr_m mrs ->
  shr_m (iter_pos shr_1 k mrs) = Z.shiftr (shr_m mrs) (Zpos k).
Proof.
  induction k as [k IH|k IH|]; intros mrs Hm; cbn [iter_pos].
  - assert (H1 : 0 <= shr_m (shr_1 mrs)).
    { rewrite shr_1_div2 by exact Hm. apply Z.div2_nonneg, Hm. }
    assert (H2 : 0 <= shr_m (iter_pos shr_1 k (shr_1 mrs))).
    { rewrite IH by exact H1. apply Z.shiftr_nonneg, H1. }
    rewrite IH by exact H2. rewrite IH by exact H1.
    rewrite shr_1_div2 by exact Hm. rewrite Z.div2_spec.
    rewrite !Z.shiftr_shiftr by lia. f_equal. lia.
  - assert (H2 : 0 <= shr_m (iter_pos shr_1 k mrs)).
    { rewrite IH by exact Hm. apply Z.shiftr_nonneg, Hm. }
    rewrite IH by exact H2. rewrite IH by exact Hm.
    rewrite !Z.shiftr_shiftr by lia. f_equal. lia.
  - rewrite shr_1_div2 by exact Hm. apply Z.div2_spec.
Qed.

Lemma digits_bounds q : 2 ^ (digits q - 1) <= Zpos q < 2 ^ digits q.
Proof.
  unfold digits.
  induction q as [q IH|q IH|]; cbn [digits2_pos].
  - rewrite Pos2Z.inj_succ.
    replace (Z.succ (Zpos (digits2_pos q)) - 1) with (Z.succ (Zpos (digits2_pos q) - 1)) by lia.
    rewrite !Z.pow_succ_r by lia. lia.
  - rewrite Pos2Z.inj_succ.
    replace (Z.succ (Zpos (digits2_pos q)) - 1) with (Z.succ (Zpos (digits2_pos q) - 1)) by lia.
    rewrite !Z.pow_succ_r by lia. lia.
  - simpl. lia.
Qed.

Lemma digits_positive q : 0 < digits q.
Proof. unfold digits; lia. Qed.

Lemma shr_fexp_positive q e l :
  -1000 <= e ->
  exists mrs e',
    shr_fexp prec emax (Zpos q) e l = (mrs, e') /\ 0 < shr_m mrs /\ e <= e' /\
    (53 < digits q -> e < e') /\
    (digits q <= 53 -> mrs = shr_record_of_loc (Zpos q) l /\ e' = e).
Proof.
  intros He. unfold shr_fexp, shr.
  set (mrs := shr_record_of_loc (Zpos q) l).
  assert (Hm : shr_m mrs = Zpos q) by (destruct l as [|[| |]]; reflexivity).
  assert (Hn : fexp prec emax (Zdigits2 (Zpos q) + e) - e = digits q - 53).
  { unfold fexp, emin, prec, emax. cbn [Zdigits2]. fold (digits q).
    pose proof (digits_positive q). lia. }
  rewrite Hn.
  destruct (digits q - 53) as [|k|k] eqn:Hk.
  - exists mrs, e. rewrite Hm. repeat split; lia.
  - exists (iter_pos shr_1 k mrs), (e + Zpos k). repeat split; try lia.
    rewrite iter_shr_1 by (rewrite Hm; lia). rewrite Hm.
    rewrite Z.shiftr_div_pow2 by lia.
    pose proof (digits_bounds q) as [Hl _].
    apply Z.div_str_pos. split; [apply Z.pow_pos_nonneg; lia|].
    eapply Z.le_trans; [|exact Hl].
    apply Z.pow_le_mono_r; lia.
  - exists mrs, e. rewrite Hm. repeat split; lia.
Qed.

Lemma round_nearest_even_positive m l : 0 < m -> 0 < round_nearest_even m l.
Proof.
  intros H. destruct l as [|[| |]]; cbn [round_nearest_even]; try lia.
  destruct (Z.even m); lia.
Qed.

(** Rounding a positive mantissa gives a positive number, and never lowers
    the exponent. *)
Lemma binary_round_aux_positive q e l :
  -1000 <= e ->
  (exists m e', binary_round_aux prec emax false (Zpos q) e l = S754_finite false m e' /\
                e <= e' /\ (53 < digits q -> e < e')) \/
  binary_round_aux prec emax false (Zpos q) e l = S754_infinity false.
Proof.
  intros He. unfold binary_round_aux.
  destruct (shr_fexp_positive q e l He) as (mrs1 & e1 & E1 & P1 & B1 & L1 & _).
  rewrite E1.
  pose proof (round_nearest_even_positive (shr_m mrs1) (loc_of_shr_record mrs1) P1) as P.
  destruct (round_nearest_even (shr_m mrs1) (loc_of_shr_record mrs1)) as [|q1|q1]; try lia.
  destruct (shr_fexp_positive q1 e1 loc_Exact ltac:(lia)) as (mrs2 & e2 & E2 & P2 & B2 & _).
  rewrite E2.
  destruct (shr_m mrs2) as [|m|m]; try lia.
  destruct (e2 <=? emax - prec); [left | right; reflexivity].
  exists m, e2. repeat split; lia.
Qed.

(** A mantissa of 53 digits is kept as it is. *)
Lemma binary_round_aux_exact q e :
  digits q = 53 -> -1000 <= e <= 0 ->
  binary_round_aux prec emax false (Zpos q) e loc_Exact = S754_finite false q e.
Proof.
  intros Hd He. unfold binary_round_aux.
  destruct (shr_fexp_positive q e loc_Exact ltac:(lia)) as (mrs1 & e1 & E1 & _ & _ & _ & X1).
  destruct X1 as [-> ->]; [lia|]. rewrite E1.
  cbn [shr_record_of_loc shr_m loc_of_shr_record round_nearest_even].
  rewrite E1. cbn [shr_record_of_loc shr_m].
  replace (e <=? emax - prec) with true; [reflexivity|].
  symmetry. apply Z.leb_le. unfold emax, prec. lia.
Qed.

Lemma iter_xO_value k : forall p, Zpos (Pos.iter xO p k) = Zpos p * 2 ^ Zpos k.
Proof.
  induction k as [|k IH] using Pos.peano_ind; intros p.
  - cbn [Pos.iter]. rewrite Pos2Z.inj_xO. change (2 ^ 1) with 2. lia.
  - rewrite Pos.iter_succ, Pos2Z.inj_succ, Z.pow_succ_r by lia.
    rewrite Pos2Z.inj_xO, IH. lia.
Qed.

Lemma iter_xO_digits k : forall p, digits (Pos.iter xO p k) = digits p + Zpos k.
Proof.
  unfold digits.
  induction k as [|k IH] using Pos.peano_ind; intros p.
  - cbn [Pos.iter digits2_pos]. lia.
  - rewrite Pos.iter_succ. cbn [digits2_pos]. rewrite Pos2Z.inj_succ, IH. lia.
Qed.

(** The two shapes of the number of an integer: below [2^53] it is the
    integer itself, with a mantissa of 53 digits; from [2^53] on its exponent
    is positive. *)
Lemma num_of_pos_small p :
  digits p <= 53 ->
  exists m, num_of_Z (Zpos p) = S754_finite false m (digits p - 53) /\
            Zpos m = Zpos p * 2 ^ (53 - digits p).
Proof.
  intros Hd. unfold num_of_Z. cbn [binary_normalize].
  unfold binary_round, shl_align. fold (digits p).
  pose proof (digits_positive p) as Hp.
  assert (Hf : fexp prec emax (digits p + 0) = digits p - 53).
  { unfold fexp, emin, prec, emax. lia. }
  rewrite Hf.
  destruct (digits p - 53 - 0) as [|k|k] eqn:Hk; try lia.
  - exists p. replace (digits p - 53) with 0 by lia.
    replace (53 - digits p) with 0 by lia.
    split; [apply binary_round_aux_exact; lia | simpl; lia].
  - exists (Pos.iter xO p k).
    split; [apply binary_round_aux_exact; [rewrite iter_xO_digits|]; lia |].
    rewrite iter_xO_value. f_equal. f_equal. lia.
Qed.

Lemma num_of_pos_large p :
  53 < digits p ->
  (exists m e, num_of_Z (Zpos p) = S754_finite false m e /\ 0 < e) \/
  num_of_Z (Zpos p) = S754_infinity false.
Proof.
  intros Hd. unfold num_of_Z. cbn [binary_normalize].
  unfold binary_round, shl_align. fold (digits p).
  assert (Hf : fexp prec emax (digits p + 0) = digits p - 53).
  { unfold fexp, emin, prec, emax. lia. }
  rewrite Hf.
  destruct (digits p - 53 - 0) as [|k|k] eqn:Hk; try lia.
  destruct (binary_round_aux_positive p 0 loc_Exact ltac:(lia))
    as [(m & e & E & _ & L)|E]; [left|right; exact E].
  exists m, e. split; [exact E | lia].
Qed.

(** Comparison with an integer below [2^53] is the comparison of the
    integers. *)
Lemma compare_pos p c :
  Zpos c < 2 ^ 53 ->
  SFcompare (num_of_Z (Zpos p)) (num_of_Z (Zpos c)) = Some (Pos.compare p c).
Proof.
  intros Hc.
  pose proof (digits_bounds c) as [Lc Uc].
  pose proof (digits_bounds p) as [Lp Up].
  pose proof (digits_positive c) as Pc.
  pose proof (digits_positive p) as Pp.
  assert (Dc : digits c <= 53).
  { destruct (Z.le_gt_cases (digits c) 53) as [H|H]; [exact H|].
    assert (2 ^ 53 <= 2 ^ (digits c - 1)) by (apply Z.pow_le_mono_r; lia). lia. }
  destruct (num_of_pos_small c Dc) as (mc & -> & Vc).
  destruct (Z.le_gt_cases (digits p) 53) as [Dp|Dp].
  - destruct (num_of_pos_small p Dp) as (mp & -> & Vp).
    cbn [SFcompare].
    destruct (Z.compare_spec (digits p - 53) (digits c - 53)) as [E|E|E].
    + f_equal. change (Pos.compare_cont Eq mp mc) with (Pos.compare mp mc).
      rewrite !Pos2Z.inj_compare, Vp, Vc.
      replace (digits c) with (digits p) by lia.
      symmetry. apply Zmult_compare_compat_r.
      apply Z.lt_gt, Z.pow_pos_nonneg; lia.
    + f_equal. symmetry. apply Pos.compare_lt_iff.
      assert (2 ^ digits p <= 2 ^ (digits c - 1)) by (apply Z.pow_le_mono_r; lia).
      lia.
    + f_equal. symmetry. apply Pos.compare_gt_iff.
      assert (2 ^ digits c <= 2 ^ (digits p - 1)) by (apply Z.pow_le_mono_r; lia).
      lia.
  - assert (G : Pos.compare p c = Gt).
    { apply Pos.compare_gt_iff.
      assert (2 ^ 53 <= 2 ^ (digits p - 1)) by (apply Z.pow_le_mono_r; lia). lia. }
    rewrite G.
    destruct (num_of_pos_large p Dp) as [(m & e & -> & He)| ->]; [|reflexivity].
    cbn [SFcompare].
    destruct (Z.compare_spec e (digits c - 53)) as [E|E|E]; try lia. reflexivity.
Qed.

Lemma compare_lengths n k :
  Z.of_nat k < 2 ^ 53 ->
  SFcompare (num_of_nat n) (num_of_nat k) = Some (Nat.compare n k).
Proof.
  intros Hk. unfold num_of_nat.
  rewrite <- Nat2Z.inj_compare.
  destruct (Z.of_nat k) as [|c|c] eqn:Ek; [| |lia];
    destruct (Z.of_nat n) as [|p|p] eqn:En; try lia.
  - reflexivity.
  - destruct (Z.le_gt_cases (digits p) 53) as [Dp|Dp].
    + destruct (num_of_pos_small p Dp) as (m & -> & _). reflexivity.
    + destruct (num_of_pos_large p Dp) as [(m & e & -> & _)| ->]; reflexivity.
  - destruct (Z.le_gt_cases (digits c) 53) as [Dc|Dc].
    + destruct (num_of_pos_small c Dc) as (m & -> & _). reflexivity.
    + destruct (num_of_pos_large c Dc) as [(m & e & -> & _)| ->]; reflexivity.
  - apply compare_pos. exact Hk.
Qed.

Lemma length_eqb n k :
  Z.of_nat k < 2 ^ 53 -> num_eqb (num_of_nat n) (num_of_nat k) = (n =? k)%nat.
Proof.
  intros Hk. unfold num_eqb, SFeqb. rewrite compare_lengths by exact Hk.
  destruct (Nat.compare_spec n k) as [E|E|E].
  - symmetry. apply Nat.eqb_eq, E.
  - symmetry. apply Nat.eqb_neq. lia.
  - symmetry. apply Nat.eqb_neq. lia.
Qed.

Lemma length_ltb n k :
  Z.of_nat k < 2 ^ 53 -> num_ltb (num_of_nat n) (num_of_nat k) = (n <? k)%nat.
Proof.
  intros Hk. unfold num_ltb, SFltb. rewrite compare_lengths by exact Hk.
  destruct (Nat.compare_spec n k) as [E|E|E].
  - symmetry. apply Nat.ltb_ge. lia.
  - symmetry. apply Nat.ltb_lt. lia.
  - symmetry. apply Nat.ltb_ge. lia.
Qed.

Lemma length_positive n : num_ltb (num_of_Z 0) (num_of_nat n) = (0 <? n)%nat.
Proof.
  destruct n as [|n]; [reflexivity|].
  unfold num_of_nat. rewrite Nat2Z.inj_succ, <- Z.add_1_r.
  destruct (Z.of_nat n + 1) as [|p|p] eqn:E; try lia.
  destruct (Z.le_gt_cases (digits p) 53) as [Dp|Dp].
  - destruct (num_of_pos_small p Dp) as (m & -> & _). reflexivity.
  - destruct (num_of_pos_large p Dp) as [(m & e & -> & _)| ->]; reflexivity.
Qed.

End NumberFacts.

(* ===================================================================== *)
(** * Frames, maps and uploads                                          *)
(* ===================================================================== *)

Module FrameFacts.
Import Js Http Controller Operations Spec Cases HandlerFacts JsFacts.
Local Open Scope handler_scope.

Lemma frame_refl keys doc : frame keys doc doc.
Proof. intros k _. reflexivity. Qed.

Lemma frame_trans keys a b c : frame keys a b -> frame keys b c -> frame keys a c.
Proof. intros H1 H2 k Hk. rewrite (H2 k Hk). apply H1, Hk. Qed.

Lemma frame_incl keys keys' a b :
  incl keys keys' -> frame keys a b -> frame keys' a b.
Proof. intros Hi H k Hk. apply H. intro Hin. apply Hk, Hi, Hin. Qed.

Lemma frame_set_prop keys k v doc : In k keys -> frame keys doc (set_prop k v doc).
Proof.
  intros Hin k' Hk'. apply lookup_set_prop_other. intros ->. contradiction.
Qed.

(** What holds of the value of the first fragment may be used for the
    second. *)
Lemma returns_bind_with {A B} (Q : A -> Prop) (P : B -> Prop)
  (m : Handler A) (k : A -> Handler B) :
  returns Q m -> (forall a, Q a -> returns P (k a)) -> returns P (bind m k).
Proof.
  intros Hm Hk log b. unfold bind. specialize (Hm log).
  destruct (m log) as [[a | r | e] l]; cbn [fst] in *; try discriminate.
  apply Hk. now apply Hm.
Qed.

Lemma returns_eval {A} (P : A -> Prop) (c : Completion A) :
  (forall a, c = inr a -> P a) -> returns P (eval c).
Proof.
  intros H log a. destruct c; cbn; [discriminate |].
  intros [= <-]. now apply H.
Qed.

Lemma returns_run {A} (P : A -> Prop) (m : Handler A) log a l :
  returns P m -> m log = (Continue a, l) -> P a.
Proof. intros H E. apply (H log). now rewrite E. Qed.

Lemma returns_throw {A} (P : A -> Prop) e : returns P (@throw A e).
Proof. intros log a; discriminate. Qed.

(** A handler whose body is read-only writes nothing. *)
Lemma try_catch_readonly body handler log :
  readonly body -> snd (try_catch body handler log) = log.
Proof.
  intro H. unfold try_catch. specialize (H log).
  destruct (body log) as [[r | r | e] l]; exact H.
Qed.

(** The calls of a [map] that went through, one by one. *)
Lemma map_from_Continue {A B} (f : nat -> A -> Handler B) l :
  (forall j x, quiet (f j x)) ->
  forall i log ys log',
    map_from i f l log = (Continue ys, log') ->
    log' = log /\
    Forall2 (fun call y => f (fst call) (snd call) log = (Continue y, log))
            (combine (seq i (List.length l)) l) ys.
Proof.
  intro Hq. induction l as [| x rest IH]; intros i log ys log' H.
  - cbn in H. injection H as <- <-. split; [reflexivity | constructor].
  - cbn [map_from] in H.
    apply bind_quiet_inv in H as (y & Ey & H); [| apply Hq | discriminate].
    apply bind_inv in H as [(ys' & l & E & H) | [(? & _ & [=]) | (? & _ & [=])]].
    apply IH in E as [-> Hall].
    unfold ret in H. injection H as <- <-.
    split; [reflexivity |].
    cbn [List.length seq combine]. constructor; [exact Ey | exact Hall].
Qed.

Lemma Forall2_map_l {A B C} (R : B -> C -> Prop) (g : A -> B) l ys :
  Forall2 (fun x y => R (g x) y) l ys -> Forall2 R (map g l) ys.
Proof. induction 1; cbn; constructor; auto. Qed.

Lemma combine_seq_map {A B} (g : A -> B) l :
  forall i, combine (seq i (List.length l)) (map g l) =
            map (fun call => (fst call, g (snd call)))
                (combine (seq i (List.length l)) l).
Proof.
  induction l as [| x rest IH]; intro i; [reflexivity |].
  cbn. f_equal. apply IH.
Qed.

End FrameFacts.

Module UploadFacts.
Import Js Http Controller Operations Spec Cases HandlerFacts JsFacts FrameFacts.
Local Open Scope handler_scope.

(** The paths read from the files are their [path] properties. *)
Lemma paths_read fs : forall i log paths,
  Forall2 (fun call y =>
             eval (get (snd call) "path") log = (Continue y, log))
          (combine (seq i (List.length fs)) fs) paths ->
  paths = map (fun file => own file "path") fs.
Proof.
  induction fs as [| file rest IH]; intros i log paths H.
  - cbn in H. inversion H. reflexivity.
  - cbn [List.length seq combine] in H. inversion H as [| ? y ? ys Hy Hys]; subst.
    cbn [snd] in Hy. apply eval_Continue_inv in Hy as [Hy _].
    apply get_inr in Hy. subst y. cbn [map]. f_equal. eapply IH, Hys.
Qed.

Lemma upload_all_Continue w fs uploads log log' :
  upload_all w (JArr fs) log = (Continue uploads, log') ->
  log' = log /\ uploads_of w fs uploads.
Proof.
  unfold upload_all. intro H.
  apply bind_inv in H as [(paths & l & E & H) | [(? & _ & [=]) | (? & _ & [=])]].
  apply map_from_Continue in E as [-> Hp]; [| intros; apply quiet_eval].
  apply paths_read in Hp. subst paths.
  apply map_from_Continue in H as [-> Hu]; [| intros; apply quiet_eval].
  split; [reflexivity |].
  unfold uploads_of. rewrite length_map in Hu.
  eapply Forall2_impl; [| exact Hu].
  intros call result Hc. cbn beta in Hc.
  now apply eval_Continue_inv in Hc as [Hc _].
Qed.

(** Only the uploads that resolved to a value with an address are kept. *)
Lemma uploaded_urls_spec uploads url :
  In url (uploaded_urls uploads) <->
  exists result, In result uploads /\ truthy result = true /\
                 truthy (own result "secure_url") = true /\
                 url = own result "secure_url".
Proof.
  unfold uploaded_urls. rewrite in_map_iff. split.
  - intros (result & <- & Hin). apply filter_In in Hin as [Hin Ht].
    apply andb_true_iff in Ht as [H1 H2]. now exists result.
  - intros (result & Hin & H1 & H2 & ->). exists result. split; [reflexivity |].
    apply filter_In. split; [exact Hin |]. now rewrite H1, H2.
Qed.

End UploadFacts.

(* ===================================================================== *)
(** * createRestaurant: the validation steps                            *)
(* ===================================================================== *)

Module OnboardingFacts.
Import Js Http Controller Operations Spec Cases HandlerFacts JsFacts.
Import NumberFacts FrameFacts CreateRestaurantFacts.
Local Open Scope handler_scope.

(** ** The validation steps, one by one *)

Lemma required_fields_pass req log :
  missingFields req = [] ->
  check_required_fields req log = (Continue tt, log) /\
  is_nullish (body req) = false.
Proof.
  intro Hm. split.
  - unfold check_required_fields. now rewrite Hm.
  - destruct (is_nullish (body req)) eqn:E; [| reflexivity].
    apply nullish_body_misses_name in E. now rewrite Hm in E.
Qed.

(** The length test on a password that is a string. *)
Lemma check_password_string w req log password :
  is_nullish (body req) = false ->
  own (body req) "password" = JStr password ->
  check_password w req log =
    if (String.length password <? 8)%nat then
      (Respond (mkResponse 400
         (obj_false
            [("message", JStr "Password must be at least 8 characters long");
             ("code", JStr "WEAK_PASSWORD")])), log)
    else (Continue tt, log).
Proof.
  intros Hb Hp. unfold check_password.
  rewrite (get_not_nullish _ _ Hb), Hp. unfold bind, eval, ret.
  cbn [get own String.eqb Ascii.eqb Bool.eqb]. unfold lt_number.
  cbn [to_number]. change (num_of_Z 8) with (num_of_nat 8).
  rewrite length_ltb by (cbn; lia).
  destruct (String.length password <? 8)%nat; reflexivity.
Qed.

Lemma check_foodType_string req log foodType :
  is_nullish (body req) = false ->
  own (body req) "foodType" = JStr foodType ->
  check_foodType req log =
    if existsb (String.eqb (trim foodType)) validFoodTypes then (Continue tt, log)
    else
      (Respond (mkResponse 400
         (obj_false
            [("message", JStr "Invalid foodType. Allowed: veg, non-veg, both");
             ("code", JStr "INVALID_FOOD_TYPE")])), log).
Proof.
  intros Hb Hf. unfold check_foodType.
  rewrite (get_not_nullish _ _ Hb), Hf. unfold bind, eval, ret.
  cbn [call_trim includes].
  destruct (existsb (String.eqb (trim foodType)) validFoodTypes); reflexivity.
Qed.

Lemma valid_foodType foodType :
  existsb (String.eqb foodType) validFoodTypes = true <-> In foodType validFoodTypes.
Proof.
  rewrite existsb_exists. split.
  - intros (x & Hx & E). apply String.eqb_eq in E. now subst.
  - intro H. exists foodType. split; [exact H | apply String.eqb_refl].
Qed.

(** A validation answer is the handler's answer, whatever the scope. *)
Lemma answered_by_validation scope w req log r :
  validate_fields w req log = (Respond r, log) ->
  createRestaurant_in scope w req log = (r, log).
Proof.
  intro H.
  assert (E : validate w req log = (Respond r, log))
    by (unfold validate; now apply bind_Respond).
  unfold createRestaurant_in, try_catch, createRestaurant_body.
  now rewrite (bind_Respond _ _ _ _ _ E).
Qed.

(** X2.  With every required field present, a password that is a string of
    fewer than eight characters is answered 400 with the code
    WEAK_PASSWORD, before the food type, the opening hours, the documents
    and the payment methods are looked at; nothing is written. *)
Theorem createRestaurant_rejects_a_short_password scope w req log password :
  missingFields req = [] ->
  own (body req) "password" = JStr password ->
  (String.length password < 8)%nat ->
  createRestaurant_in scope w req log =
    (mkResponse 400
       (JObj [("success", JBool false);
              ("message", JStr "Password must be at least 8 characters long");
              ("code", JStr "WEAK_PASSWORD")]), log) /\
  createRestaurant w req log = createRestaurant_in scope w req log.
Proof.
  intros Hm Hp Hl.
  destruct (required_fields_pass req log Hm) as [E1 Hb].
  pose proof (check_password_string w req log password Hb Hp) as E2.
  apply Nat.ltb_lt in Hl. rewrite Hl in E2.
  assert (E : validate_fields w req log =
              (Respond (mkResponse 400
                 (obj_false
                    [("message", JStr "Password must be at least 8 characters long");
                     ("code", JStr "WEAK_PASSWORD")])), log)).
  { unfold validate_fields. rewrite (bind_Continue _ _ _ _ _ E1).
    now apply bind_Respond. }
  unfold createRestaurant.
  rewrite !(answered_by_validation _ _ _ _ _ E). split; reflexivity.
Qed.

Lemma createRestaurant_rejects_a_short_password_witness :
  createRestaurant Sample.world (onboarding_with "password" (JStr "short")) [] =
    (mkResponse 400
       (JObj [("success", JBool false);
              ("message", JStr "Password must be at least 8 characters long");
              ("code", JStr "WEAK_PASSWORD")]), []).
Proof.
  apply (createRestaurant_rejects_a_short_password
           module_scope Sample.world (onboarding_with "password" (JStr "short"))
           [] "short"); [reflexivity | reflexivity | cbn; lia].
Defined.

(** X3.  With every required field present and a password of eight
    characters or more, a food type whose trimmed text is not exactly veg,
    non-veg or both (the comparison keeps the case) is answered 400 with
    the code INVALID_FOOD_TYPE; nothing is written. *)
Theorem createRestaurant_rejects_an_unknown_foodType
  scope w req log password foodType :
  missingFields req = [] ->
  own (body req) "password" = JStr password ->
  (8 <= String.length password)%nat ->
  own (body req) "foodType" = JStr foodType ->
  ~ In (trim foodType) ["veg"; "non-veg"; "both"] ->
  createRestaurant_in scope w req log =
    (mkResponse 400
       (JObj [("success", JBool false);
              ("message", JStr "Invalid foodType. Allowed: veg, non-veg, both");
              ("code", JStr "INVALID_FOOD_TYPE")]), log).
Proof.
  intros Hm Hp Hl Hf Hn.
  destruct (required_fields_pass req log Hm) as [E1 Hb].
  pose proof (check_password_string w req log password Hb Hp) as E2.
  apply Nat.ltb_ge in Hl. rewrite Hl in E2.
  pose proof (check_foodType_string req log foodType Hb Hf) as E3.
  destruct (existsb (String.eqb (trim foodType)) validFoodTypes) eqn:Ev.
  { apply valid_foodType in Ev. contradiction. }
  apply answered_by_validation. unfold validate_fields.
  rewrite (bind_Continue _ _ _ _ _ E1), (bind_Continue _ _ _ _ _ E2).
  now apply bind_Respond.
Qed.

Lemma createRestaurant_rejects_an_unknown_foodType_witness :
  createRestaurant Sample.world (onboarding_with "foodType" (JStr "Veg")) [] =
    (mkResponse 400
       (JObj [("success", JBool false);
              ("message", JStr "Invalid foodType. Allowed: veg, non-veg, both");
              ("code", JStr "INVALID_FOOD_TYPE")]), []).
Proof.
  apply (createRestaurant_rejects_an_unknown_foodType
           module_scope Sample.world (onboarding_with "foodType" (JStr "Veg"))
           [] "s3cretpass" "Veg");
    [reflexivity | reflexivity | cbn; lia | reflexivity |].
  cbn. intuition discriminate.
Defined.

(** X4.  With the first three steps passed, opening hours whose text does
    not parse as JSON, or parses to anything but an array, are answered
    400 with the code INVALID_OPENING_HOURS; nothing is written. *)
Theorem createRestaurant_rejects_openingHours_that_are_no_array
  scope w req log password foodType :
  missingFields req = [] ->
  own (body req) "password" = JStr password ->
  (8 <= String.length password)%nat ->
  own (body req) "foodType" = JStr foodType ->
  In (trim foodType) ["veg"; "non-veg"; "both"] ->
  (forall hours,
     JSON_parse w (to_string (Number_toString w) (own (body req) "openingHours"))
     <> Some (JArr hours)) ->
  createRestaurant_in scope w req log =
    (mkResponse 400
       (JObj [("success", JBool false);
              ("message",
               JStr "Invalid openingHours. Expected a valid JSON array.");
              ("code", JStr "INVALID_OPENING_HOURS")]), log).
Proof.
  intros Hm Hp Hl Hf Hv Hh.
  destruct (required_fields_pass req log Hm) as [E1 Hb].
  pose proof (check_password_string w req log password Hb Hp) as E2.
  apply Nat.ltb_ge in Hl. rewrite Hl in E2.
  pose proof (check_foodType_string req log foodType Hb Hf) as E3.
  apply valid_foodType in Hv. rewrite Hv in E3.
  apply answered_by_validation. unfold validate_fields.
  rewrite (bind_Continue _ _ _ _ _ E1), (bind_Continue _ _ _ _ _ E2),
    (bind_Continue _ _ _ _ _ E3).
  apply bind_Respond. unfold parse_openingHours.
  rewrite (get_not_nullish _ _ Hb).
  destruct (JSON_parse w _) as [[| | | | | hours |] |] eqn:Ej; try reflexivity.
  now destruct (Hh hours).
Qed.

Lemma createRestaurant_rejects_openingHours_that_are_no_array_witness :
  createRestaurant Sample.world (onboarding_with "openingHours" (JStr "{}")) [] =
    (mkResponse 400
       (JObj [("success", JBool false);
              ("message",
               JStr "Invalid openingHours. Expected a valid JSON array.");
              ("code", JStr "INVALID_OPENING_HOURS")]), []).
Proof.
  apply (createRestaurant_rejects_openingHours_that_are_no_array
           module_scope Sample.world
           (onboarding_with "openingHours" (JStr "{}")) [] "s3cretpass" "veg");
    [reflexivity | reflexivity | cbn; lia | reflexivity | cbn; tauto |].
  intros hours. discriminate.
Defined.

(** ** Documents *)

Lemma missingDocs_spec req label :
  In label (missingDocs req) <->
  exists doc, In (doc, label) requiredDocs /\ document_missing req doc = true.
Proof.
  unfold missingDocs, document_missing. rewrite in_map_iff. split.
  - intros ([doc l] & <- & Hin). apply filter_In in Hin as [Hin H].
    exists doc. auto.
  - intros (doc & Hin & H). exists (doc, label). split; [reflexivity |].
    apply filter_In. auto.
Qed.

(** X5.  With the first four steps passed, a request that lacks the first
    file of one of the fields fssaiDoc, gstDoc, aadharDoc is answered 400
    with the code DOCUMENT_REQUIRED, and the message names every document
    that is missing; nothing is written. *)
Theorem createRestaurant_names_the_missing_documents
  scope w req log password foodType hours :
  missingFields req = [] ->
  own (body req) "password" = JStr password ->
  (8 <= String.length password)%nat ->
  own (body req) "foodType" = JStr foodType ->
  In (trim foodType) ["veg"; "non-veg"; "both"] ->
  JSON_parse w (to_string (Number_toString w) (own (body req) "openingHours"))
    = Some (JArr hours) ->
  (exists doc label,
     In (doc, label) requiredDocs /\ document_missing req doc = true) ->
  exists message,
    createRestaurant_in scope w req log =
      (mkResponse 400
         (JObj [("success", JBool false);
                ("message", JStr message);
                ("code", JStr "DOCUMENT_REQUIRED")]), log) /\
    forall doc label,
      In (doc, label) requiredDocs -> document_missing req doc = true ->
      exists pre post, message = (pre ++ label ++ post)%string.
Proof.
  intros Hm Hp Hl Hf Hv Hh (doc0 & label0 & Hin0 & Hd0).
  destruct (required_fields_pass req log Hm) as [E1 Hb].
  pose proof (check_password_string w req log password Hb Hp) as E2.
  apply Nat.ltb_ge in Hl. rewrite Hl in E2.
  pose proof (check_foodType_string req log foodType Hb Hf) as E3.
  apply valid_foodType in Hv. rewrite Hv in E3.
  assert (E4 : parse_openingHours w req log = (Continue (JArr hours), log)).
  { unfold parse_openingHours. now rewrite (get_not_nullish _ _ Hb), Hh. }
  exists ("Missing documents: " ++ join ", " (missingDocs req))%string. split.
  - apply answered_by_validation. unfold validate_fields.
    rewrite (bind_Continue _ _ _ _ _ E1), (bind_Continue _ _ _ _ _ E2),
      (bind_Continue _ _ _ _ _ E3), (bind_Continue _ _ _ _ _ E4).
    apply bind_Respond. unfold check_documents.
    assert (H : In label0 (missingDocs req))
      by (apply missingDocs_spec; eauto).
    destruct (missingDocs req); [contradiction | reflexivity].
  - intros doc label Hin Hd.
    assert (H : In label (missingDocs req))
      by (apply missingDocs_spec; eauto).
    destruct (join_occurs ", " _ _ H) as (pre & post & E).
    exists ("Missing documents: " ++ pre)%string, post.
    rewrite E. now rewrite append_assoc.
Qed.

Lemma createRestaurant_names_the_missing_documents_witness :
  exists message,
    createRestaurant Sample.world
      (mkRequest [] (body Sample.onboarding)
         (JObj [("gstDoc", Sample.file "uploads/gst.pdf")])) [] =
      (mkResponse 400
         (JObj [("success", JBool false);
                ("message", JStr message);
                ("code", JStr "DOCUMENT_REQUIRED")]), []) /\
    (exists pre post, message = (pre ++ "FSSAI License" ++ post)%string) /\
    (exists pre post, message = (pre ++ "Aadhar Card" ++ post)%string).
Proof.
  destruct (createRestaurant_names_the_missing_documents
              module_scope Sample.world
              (mkRequest [] (body Sample.onboarding)
                 (JObj [("gstDoc", Sample.file "uploads/gst.pdf")]))
              [] "s3cretpass" "veg" [])
    as (message & E & H);
    [reflexivity | reflexivity | cbn; lia | reflexivity | cbn; tauto
    | reflexivity | | ].
  - exists "fssaiDoc", "FSSAI License". split; [now left | reflexivity].
  - exists message. split; [exact E |]. split.
    + apply (H "fssaiDoc"); [now left | reflexivity].
    + apply (H "aadharDoc"); [right; right; now left | reflexivity].
Defined.

End OnboardingFacts.

(* ===================================================================== *)
(** * createRestaurant: what is stored                                  *)
(* ===================================================================== *)

Module CreatedFacts.
Import Js Http Controller Operations Spec Cases HandlerFacts JsFacts.
Import NumberFacts FrameFacts CreateRestaurantFacts.
Local Open Scope handler_scope.

(** X6.  What a run of createRestaurant leaves in the store, whatever the
    scope binds: nothing (and the answer is 400 or 500); or the restaurant
    alone, when [Permission.create] rejects after [Restaurant.create] went
    through: the answer is then 500 and the restaurant stays, without
    permissions; or the restaurant and its permissions, with 201. *)
Theorem createRestaurant_may_leave_a_restaurant_without_permissions
  scope w req log resp new :
  createRestaurant_in scope w req log = (resp, (log ++ new)%list) ->
  (new = [] /\ (status resp = 400 \/ status resp = 500)) \/
  (exists data doc e,
     new = [RestaurantCreated data doc] /\
     Restaurant_create w data = inr doc /\
     Permission_create w (defaultPermissions (lookup "_id" doc)) = inl e /\
     resp = mkResponse 500
              (JObj [("success", JBool false);
                     ("message", JStr "Something went wrong");
                     ("error", JStr (err_message e))])) \/
  (exists data doc,
     new = [RestaurantCreated data doc;
            PermissionCreated (defaultPermissions (lookup "_id" doc))] /\
     status resp = 201).
Proof.
  intro Hrun.
  pose proof (createRestaurant_runs scope w req log) as R.
  rewrite Hrun in R.
  inversion R; subst;
    match goal with
    | Hl : ?l = (?l ++ new)%list |- _ => apply app_self_nil in Hl; subst new
    | Hl : (?l ++ _)%list = (?l ++ new)%list |- _ =>
        apply app_inv_head in Hl; subst new
    end.
  - left. auto.
  - left. auto.
  - right; left. eexists _, _, _. repeat split; eassumption.
  - right; right. eexists _, _. split; reflexivity.
Qed.

Lemma createRestaurant_may_leave_a_restaurant_without_permissions_witness :
  status (fst refused_run) = 500 /\
  exists data doc, snd refused_run = [RestaurantCreated data doc].
Proof.
  split; [reflexivity |].
  destruct (createRestaurant_may_leave_a_restaurant_without_permissions
              Sample.scope_with_bcrypt world_permission_refused
              Sample.onboarding [] (fst refused_run) (snd refused_run) eq_refl)
    as [[E _] | [(data & doc & e & E & _) | (data & doc & E & _)]];
    try discriminate E.
  exists data, doc. exact E.
Defined.

(** ** The data handed to [Restaurant.create] *)

Lemma get_path_inr1 v a x : get_path v [a] = inr x -> x = own v a.
Proof.
  simpl. destruct (get v a) as [| va] eqn:Ea; [discriminate |].
  intros [= <-]. now apply get_inr in Ea.
Qed.

Lemma trimmed_Continue req path v log l :
  trimmed req path log = (Continue v, l) ->
  exists text, get_path (body req) path = inr (JStr text) /\ v = JStr (trim text).
Proof.
  unfold trimmed. intro H. next H x. next H s.
  repeat match goal with
         | E : eval _ _ = _ |- _ => apply eval_Continue_inv in E as [E _]
         end.
  unfold ret in H. injection H as <- _.
  destruct x; try discriminate.
  match goal with E : call_trim _ _ = _ |- _ => cbn in E; injection E as <- end.
  eexists. split; [eassumption | reflexivity].
Qed.

Lemma trimmed_field req field v log l :
  trimmed req [field] log = (Continue v, l) ->
  exists text, own (body req) field = JStr text /\ v = JStr (trim text).
Proof.
  intro H. apply trimmed_Continue in H as (text & Hg & ->).
  apply get_path_inr1 in Hg. eauto.
Qed.

(** The fields of the data, read off a run of [restaurantData]. *)
Lemma restaurantData_fields w req h o p docs data log l :
  restaurantData w req h o p docs log = (Continue data, l) ->
  own data "password" = h /\
  own data "openingHours" = o /\
  own data "paymentMethods" = p /\
  own data "minOrderAmount" =
    js_or (own (body req) "minOrderAmount") (JNum (num_of_Z 100)) /\
  own (own data "address") "zip" =
    js_or (own (own (body req) "address") "pincode")
          (js_or (own (own (body req) "address") "zip") (JStr "")) /\
  (forall field, In field trimmed_fields ->
     exists text,
       own (body req) field = JStr text /\ own data field = JStr (trim text)) /\
  own data "slug" = JUndefined /\
  exists fssai gst aadhar,
    own data "kycDocuments" =
      JObj [("fssaiDocUrl", fssai); ("gstDocUrl", gst); ("aadharDocUrl", aadhar)].
Proof.
  unfold restaurantData. destruct docs as [[fssaiDoc gstDoc] aadharDoc].
  intro H.
  next H name. next H ownerName. next H street. next H city. next H state.
  next H pincode. next H zip. next H longitude. next H latitude.
  next H phone. next H email. next H foodType. next H minOrderAmount.
  next H fssaiNumber. next H gstNumber. next H aadharNumber.
  next H fssaiDocUrl. next H gstDocUrl. next H aadharDocUrl.
  unfold ret in H. injection H as <- _.
  cbn [own lookup String.eqb Ascii.eqb Bool.eqb].
  repeat match goal with
         | E : trimmed _ [_] _ = _ |- _ => apply trimmed_field in E
         end.
  match goal with
  | E : eval (get _ "minOrderAmount") _ = _ |- _ =>
      apply eval_Continue_inv in E as [E _]; apply get_inr in E
  end.
  match goal with
  | E : eval (get_path _ ["address"; "pincode"]) _ = _ |- _ =>
      apply eval_Continue_inv in E as [E _]; apply get_path_inr2 in E
  end.
  subst minOrderAmount pincode.
  repeat split; try reflexivity.
  - match goal with
    | E : (if truthy ?c then _ else _) _ = (Continue zip, _) |- _ =>
        unfold js_or at 1; destruct (truthy c)
    end.
    + match goal with E : ret _ _ = _ |- _ =>
        unfold ret in E; now injection E as <- _ end.
    + match goal with E : bind _ _ _ = _ |- _ => rename E into Hz end.
      next Hz z.
      match goal with
      | E : eval (get_path _ ["address"; "zip"]) _ = _ |- _ =>
          apply eval_Continue_inv in E as [E _]; apply get_path_inr2 in E
      end.
      subst z. unfold ret in Hz. now injection Hz as <- _.
  - intros field Hin. cbn in Hin.
    repeat (destruct Hin as [<- | Hin]); try contradiction;
      cbn [own lookup String.eqb Ascii.eqb Bool.eqb]; assumption.
  - eexists _, _, _. reflexivity.
Qed.

Lemma hash_password_Continue scope w req h log l :
  hash_password scope w req log = (Continue h, l) ->
  exists salt,
    genSalt (bcrypt w) (num_of_Z 10) = inr salt /\
    hash (bcrypt w) (own (body req) "password") salt = inr h.
Proof.
  unfold hash_password. destruct (bound scope "bcrypt"); [| discriminate].
  intro H. next H salt. next H password.
  repeat match goal with
         | E : eval _ _ = _ |- _ => apply eval_Continue_inv in E as [E _]
         end.
  match goal with E : get _ "password" = _ |- _ => apply get_inr in E end.
  subst password. eauto.
Qed.

(** The data of a created restaurant went through the stages. *)
Lemma created_data scope w req log resp new data doc :
  createRestaurant_in scope w req log = (resp, (log ++ new)%list) ->
  In (RestaurantCreated data doc) new ->
  exists v h docs,
    validate w req log = (Continue v, log) /\
    hash_password scope w req log = (Continue h, log) /\
    restaurantData w req h (fst v) (snd v) docs log = (Continue data, log).
Proof.
  intros Hrun Hin.
  pose proof (createRestaurant_runs scope w req log) as R.
  rewrite Hrun in R.
  inversion R; subst;
    match goal with
    | Hl : ?l = (?l ++ new)%list |- _ =>
        apply app_self_nil in Hl; subst new; contradiction
    | Hl : (?l ++ _)%list = (?l ++ new)%list |- _ =>
        apply app_inv_head in Hl; subst new
    end.
  - destruct Hin as [[= <- <-] | []].
    eexists _, _, _. repeat split; eassumption.
  - destruct Hin as [[= <- <-] | [[=] | []]].
    eexists _, _, _. repeat split; eassumption.
Qed.

(** X7.  The password of every restaurant the handler creates is what
    [bcrypt.hash] gave for the password of the request and the salt of
    [bcrypt.genSalt(10)]: the text of the request is stored only if the
    library returns it. *)
Theorem createRestaurant_stores_the_password_hash
  scope w req log resp new data doc :
  createRestaurant_in scope w req log = (resp, (log ++ new)%list) ->
  In (RestaurantCreated data doc) new ->
  exists salt,
    genSalt (bcrypt w) (num_of_Z 10) = inr salt /\
    hash (bcrypt w) (own (body req) "password") salt =
      inr (own data "password").
Proof.
  intros Hrun Hin.
  destruct (created_data _ _ _ _ _ _ _ _ Hrun Hin) as (v & h & docs & _ & Hh & Hd).
  apply restaurantData_fields in Hd as (-> & _).
  now apply hash_password_Continue in Hh.
Qed.

Lemma createRestaurant_stores_the_password_hash_witness :
  own (fst (Sample.first_created (snd padded_run))) "password" =
    JStr "$2b$10$abcdefghijklmnopqrstuv0123456789012345678901234567890" /\
  exists salt,
    genSalt (bcrypt Sample.world) (num_of_Z 10) = inr salt /\
    hash (bcrypt Sample.world) (JStr "s3cretpass") salt =
      inr (own (fst (Sample.first_created (snd padded_run))) "password").
Proof.
  split; [reflexivity |].
  exact (createRestaurant_stores_the_password_hash
           Sample.scope_with_bcrypt Sample.world onboarding_padded []
           (fst padded_run) (snd padded_run)
           (fst (Sample.first_created (snd padded_run)))
           (snd (Sample.first_created (snd padded_run)))
           eq_refl (or_introl eq_refl)).
Defined.

(** X8.  The data of every restaurant the handler creates: name,
    ownerName, phone, email and foodType are the texts of the request
    trimmed; minOrderAmount is the request's, or 100 when that is falsy (so
    0 becomes 100); the zip is the request's pincode, else its zip, else
    the empty text; the documents are an object of three addresses, not
    a list; and the slug the handler computes is not part of it. *)
Theorem createRestaurant_stores_trimmed_fields
  scope w req log resp new data doc :
  createRestaurant_in scope w req log = (resp, (log ++ new)%list) ->
  In (RestaurantCreated data doc) new ->
  (forall field, In field ["name"; "ownerName"; "phone"; "email"; "foodType"] ->
     exists text,
       own (body req) field = JStr text /\ own data field = JStr (trim text)) /\
  own data "minOrderAmount" =
    js_or (own (body req) "minOrderAmount") (JNum (num_of_Z 100)) /\
  own (own data "address") "zip" =
    js_or (own (own (body req) "address") "pincode")
          (js_or (own (own (body req) "address") "zip") (JStr "")) /\
  (exists fssai gst aadhar,
     own data "kycDocuments" =
       JObj [("fssaiDocUrl", fssai); ("gstDocUrl", gst);
             ("aadharDocUrl", aadhar)]) /\
  own data "slug" = JUndefined.
Proof.
  intros Hrun Hin.
  destruct (created_data _ _ _ _ _ _ _ _ Hrun Hin) as (v & h & docs & _ & _ & Hd).
  apply restaurantData_fields in Hd as (_ & _ & _ & Hm & Hz & Ht & Hs & Hk).
  auto.
Qed.

Lemma createRestaurant_stores_trimmed_fields_witness :
  own (body onboarding_padded) "name" = JStr "  Spice Hub " /\
  own (fst (Sample.first_created (snd padded_run))) "name" = JStr "Spice Hub" /\
  own (fst (Sample.first_created (snd padded_run))) "minOrderAmount" =
    JNum (num_of_Z 100) /\
  own (own (fst (Sample.first_created (snd padded_run))) "address") "zip" =
    JStr "411001".
Proof.
  split; [reflexivity |].
  destruct (createRestaurant_stores_trimmed_fields
              Sample.scope_with_bcrypt Sample.world onboarding_padded []
              (fst padded_run) (snd padded_run)
              (fst (Sample.first_created (snd padded_run)))
              (snd (Sample.first_created (snd padded_run)))
              eq_refl (or_introl eq_refl))
    as (Ht & Hm & Hz & _).
  split; [| split; [exact Hm | exact Hz]].
  destruct (Ht "name" (or_introl eq_refl)) as (text & E1 & E2).
  injection E1 as <-. exact E2.
Defined.

End CreatedFacts.

(* ===================================================================== *)
(** * createRestaurant as exported                                      *)
(* ===================================================================== *)

Module ExportedFacts.
Import Js Http Controller Operations Spec Cases HandlerFacts JsFacts.
Import FrameFacts CreateRestaurantFacts.
Local Open Scope handler_scope.

(** X1.  createRestaurant as the module exports it creates nothing: for
    every request and every store, the run writes neither a restaurant nor
    a permission, and the answer is 400 or 500, never 201.  (No line of
    the module binds [bcrypt], so no run gets past the password hash.) *)
Theorem createRestaurant_as_exported_creates_nothing w req log :
  snd (createRestaurant w req log) = log /\
  restaurants_created (snd (createRestaurant w req [])) = [] /\
  permissions_created (snd (createRestaurant w req [])) = [] /\
  (status (fst (createRestaurant w req log)) = 400 \/
   status (fst (createRestaurant w req log)) = 500) /\
  status (fst (createRestaurant w req log)) <> 201.
Proof.
  destruct (createRestaurant_outcome w req log) as [Hl Hs].
  destruct (createRestaurant_outcome w req []) as [Hl0 _].
  rewrite Hl0. repeat split; try assumption.
  destruct Hs as [-> | ->]; discriminate.
Qed.

End ExportedFacts.

(* ===================================================================== *)
(** * updateRestaurant                                                  *)
(* ===================================================================== *)

Module UpdateFacts.
Import Js Http Controller Operations Spec Cases HandlerFacts JsFacts.
Import NumberFacts FrameFacts UploadFacts.
Local Open Scope handler_scope.

(** ** The basic fields *)

Lemma lookup_assign_truthy_same k v doc :
  lookup k (assign_truthy k v doc) = if truthy v then v else lookup k doc.
Proof.
  unfold assign_truthy. destruct (truthy v); [apply lookup_set_prop_same | reflexivity].
Qed.

Lemma lookup_assign_truthy_other k k' v doc :
  k <> k' -> lookup k (assign_truthy k' v doc) = lookup k doc.
Proof.
  intro H. unfold assign_truthy.
  destruct (truthy v); [now apply lookup_set_prop_other | reflexivity].
Qed.

Lemma lookup_assign_defined_other k k' (c : bool) v doc :
  k <> k' -> lookup k (if c then set_prop k' v doc else doc) = lookup k doc.
Proof. intro H. destruct c; [now apply lookup_set_prop_other | reflexivity]. Qed.

Ltac peel :=
  repeat first
    [ rewrite lookup_assign_truthy_other by discriminate
    | rewrite lookup_assign_defined_other by discriminate ].

(** A field given a truthy value takes it; given a falsy one, or none, it
    keeps the stored value. *)
Lemma apply_fields_truthy fields doc k :
  In k truthy_fields ->
  lookup k (apply_fields fields doc) =
    if truthy (own fields k) then own fields k else lookup k doc.
Proof.
  intro Hin. unfold apply_fields.
  repeat (destruct Hin as [<- | Hin]); try contradiction;
    peel; rewrite lookup_assign_truthy_same;
    destruct (truthy _); try reflexivity; peel; reflexivity.
Qed.

Lemma apply_fields_isActive fields doc :
  lookup "isActive" (apply_fields fields doc) =
    if strict_eq (own fields "isActive") JUndefined then lookup "isActive" doc
    else own fields "isActive".
Proof.
  unfold apply_fields. peel.
  destruct (strict_eq (own fields "isActive") JUndefined); cbn [negb].
  - peel. reflexivity.
  - apply lookup_set_prop_same.
Qed.

Lemma apply_fields_frame fields doc :
  frame (truthy_fields ++ ["isActive"]) doc (apply_fields fields doc).
Proof.
  intros k Hk. unfold apply_fields.
  assert (N : forall k', In k' (truthy_fields ++ ["isActive"]) -> k <> k').
  { intros k' Hin ->. contradiction. }
  rewrite !lookup_assign_truthy_other, lookup_assign_defined_other,
    !lookup_assign_truthy_other; try reflexivity;
    apply N; cbn; tauto.
Qed.

(** ** The address block *)

Lemma merge_address_field_quiet address given field doc :
  quiet (merge_address_field address given field doc).
Proof. unfold merge_address_field. repeat quiet_step. Qed.

Lemma merge_address_quiet address doc : quiet (merge_address address doc).
Proof.
  unfold merge_address.
  repeat first [apply merge_address_field_quiet | quiet_step].
Qed.

Lemma replace_images_quiet w req doc : quiet (replace_images w req doc).
Proof.
  unfold replace_images.
  repeat first [apply KycFacts.upload_all_quiet | quiet_step].
Qed.

Lemma updated_quiet w req doc : quiet (updated w req doc).
Proof.
  unfold updated.
  apply quiet_bind; [apply merge_address_quiet |].
  intro. apply replace_images_quiet.
Qed.

Lemma merge_address_field_frame address given field doc :
  returns (frame ["address"] doc) (merge_address_field address given field doc).
Proof.
  unfold merge_address_field.
  apply returns_bind. intro value. apply returns_bind. intro target.
  apply returns_ret. apply frame_set_prop. now left.
Qed.

Lemma merge_address_frame address doc :
  returns (frame ["address"; "location"] doc) (merge_address address doc).
Proof.
  assert (I : incl ["address"] ["address"; "location"])
    by (intros k [<- | []]; now left).
  assert (Step : forall given field (rest : Doc -> Handler Doc) a,
             frame ["address"; "location"] doc a ->
             (forall b, frame ["address"; "location"] doc b ->
                        returns (frame ["address"; "location"] doc) (rest b)) ->
             returns (frame ["address"; "location"] doc)
                     (bind (merge_address_field address given field a) rest)).
  { intros given field rest a Ha Hrest.
    eapply returns_bind_with; [apply merge_address_field_frame |].
    intros b Hb. apply Hrest.
    eapply frame_trans; [exact Ha |]. eapply frame_incl; [exact I | exact Hb]. }
  unfold merge_address.
  destruct (truthy address); [| apply returns_ret, frame_refl].
  apply Step; [apply frame_refl |]. intros d1 H1.
  apply Step; [exact H1 |]. intros d2 H2.
  apply Step; [exact H2 |]. intros d3 H3.
  apply Step; [exact H3 |]. intros d4 H4.
  destruct (truthy _ && _); apply returns_ret; [| exact H4].
  eapply frame_trans; [exact H4 |]. apply frame_set_prop. right; now left.
Qed.

Lemma replace_images_frame w req doc :
  returns (frame ["images"] doc) (replace_images w req doc).
Proof.
  unfold replace_images.
  destruct (truthy (files req) && _); [| apply returns_ret, frame_refl].
  apply returns_bind. intro uploads. apply returns_ret.
  apply frame_set_prop. now left.
Qed.

(** After the basic fields, only the address, the location and the images
    are assigned. *)
Lemma updated_after_fields w req doc :
  returns (frame ["address"; "location"; "images"]
                 (apply_fields (body req) doc))
          (updated w req doc).
Proof.
  unfold updated.
  eapply returns_bind_with; [apply merge_address_frame |].
  intros d Hd log d' H. apply replace_images_frame in H.
  eapply frame_trans.
  - eapply frame_incl; [| exact Hd]. intros k [<- | [<- | []]]; cbn; tauto.
  - eapply frame_incl; [| exact H]. intros k [<- | []]; cbn; tauto.
Qed.

Lemma updated_frame w req doc :
  returns (frame assigned_fields doc) (updated w req doc).
Proof.
  intros log d' H. apply updated_after_fields in H.
  eapply frame_trans.
  - eapply frame_incl; [| apply apply_fields_frame].
    intros k Hk. unfold assigned_fields.
    apply in_app_iff in Hk as [Hk | [<- | []]]; apply in_app_iff;
      [left; exact Hk | right; now left].
  - eapply frame_incl; [| exact H].
    intros k Hk. unfold assigned_fields. apply in_app_iff. right.
    cbn in *. tauto.
Qed.

(** ** Runs of the handler *)

(** A run that saved a document found it in the store, took it through the
    assignments and had the save accepted. *)
Lemma updateRestaurant_runs m req log resp log' :
  updateRestaurant m req log = (resp, log') ->
  (truthy (body req) = false /\ status resp = 400 /\ log' = log) \/
  (truthy (body req) = true /\
   Restaurant_findById (world m) (restaurantId req) = inr None /\
   status resp = 404 /\ log' = log) \/
  (truthy (body req) = true /\ status resp = 500 /\ log' = log) \/
  (truthy (body req) = true /\
   exists doc doc',
     Restaurant_findById (world m) (restaurantId req) = inr (Some doc) /\
     updated (world m) req doc log = (Continue doc', log) /\
     doc_save (world m) doc' = inr tt /\
     resp = mkResponse 200
              (JObj [("message", JStr "Restaurant updated successfully.");
                     ("restaurant", JObj doc')]) /\
     log' = (log ++ [DocSaved doc'])%list).
Proof.
  unfold updateRestaurant, try_catch. fold (restaurantId req).
  destruct (truthy (body req)) eqn:Hb; cbn [negb].
  2: { intros [= <- <-]. left. auto. }
  destruct (Restaurant_findById (world m) (restaurantId req))
    as [e | [doc |]] eqn:Hf; unfold bind at 1; cbn [eval throw ret].
  - intros [= <- <-]. right; right; left. auto.
  - destruct (updated_quiet (world m) req doc log) as [Hl Hr].
    unfold bind at 1.
    destruct (updated (world m) req doc log) as [[doc' | r | e] l] eqn:Eu;
      cbn [fst snd] in Hl, Hr; subst l.
    + destruct (doc_save (world m) doc') as [e | []] eqn:Hs;
        unfold bind, eval, throw, ret, write.
      * intros [= <- <-]. right; right; left. auto.
      * intros [= <- <-]. right; right; right. split; [reflexivity |].
        exists doc, doc'. auto.
    + now destruct (Hr r).
    + intros [= <- <-]. right; right; left. auto.
  - intros [= <- <-]. right; left. auto.
Qed.

Lemma updateRestaurant_saved m req log resp doc doc' :
  updateRestaurant m req log = (resp, (log ++ [DocSaved doc'])%list) ->
  Restaurant_findById (world m) (restaurantId req) = inr (Some doc) ->
  updated (world m) req doc log = (Continue doc', log) /\
  payload resp = JObj [("message", JStr "Restaurant updated successfully.");
                       ("restaurant", JObj doc')].
Proof.
  intros Hrun Hf.
  apply updateRestaurant_runs in Hrun
    as [(_ & _ & H) | [(_ & _ & _ & H) | [(_ & _ & H) |
        (_ & d & d' & Hf' & Hu & _ & -> & H)]]];
    try (symmetry in H; apply app_self_nil in H; discriminate).
  apply app_inv_head in H. injection H as <-.
  rewrite Hf in Hf'. injection Hf' as <-. split; [exact Hu | reflexivity].
Qed.

(** X9.  updateRestaurant saves at most once, and only when it answers 200:
    then the saved document is the one of the answer.  It answers 400 only
    for a missing body; the id is handed to the store as it comes. *)
Theorem updateRestaurant_saves_only_with_200 m req log resp log' :
  updateRestaurant m req log = (resp, log') ->
  (status resp = 200 ->
   exists doc',
     log' = (log ++ [DocSaved doc'])%list /\
     doc_save (world m) doc' = inr tt /\
     own (payload resp) "restaurant" = JObj doc') /\
  (status resp <> 200 -> log' = log) /\
  (status resp = 400 <-> truthy (body req) = false) /\
  In (status resp) [200; 400; 404; 500]%nat.
Proof.
  intro Hrun.
  apply updateRestaurant_runs in Hrun
    as [(Hb & Hs & ->) | [(Hb & _ & Hs & ->) | [(Hb & Hs & ->) |
        (Hb & d & d' & _ & _ & Hsave & -> & ->)]]];
    cbn [status] in *; try rewrite Hs; try rewrite Hb;
    (split; [| split; [| split]]); try split; intros;
    try discriminate; try contradiction; try reflexivity; cbn; auto.
  exists d'. auto.
Qed.

Lemma updateRestaurant_saves_only_with_200_witness :
  status (fst update_run) = 200%nat /\
  exists doc',
    snd update_run = ([] ++ [DocSaved doc'])%list /\
    doc_save (world models_stored) doc' = inr tt /\
    own (payload (fst update_run)) "restaurant" = JObj doc'.
Proof.
  split; [reflexivity |].
  exact (proj1 (updateRestaurant_saves_only_with_200
                  models_stored update_request [] (fst update_run)
                  (snd update_run) eq_refl) eq_refl).
Defined.

(** X10.  A saved update leaves every path outside the thirteen it may
    assign as the store gave it, and answers with the whole document:
    whatever the store gave under such a path (the password hash, for one)
    is in the answer. *)
Theorem updateRestaurant_keeps_the_other_fields m req log resp doc doc' k :
  updateRestaurant m req log = (resp, (log ++ [DocSaved doc'])%list) ->
  Restaurant_findById (world m) (restaurantId req) = inr (Some doc) ->
  ~ In k assigned_fields ->
  lookup k doc' = lookup k doc /\
  own (own (payload resp) "restaurant") k = lookup k doc.
Proof.
  intros Hrun Hf Hk.
  destruct (updateRestaurant_saved _ _ _ _ _ _ Hrun Hf) as [Hu ->].
  apply (returns_run _ _ _ _ _ (updated_frame _ _ _)) in Hu.
  cbn [own lookup String.eqb Ascii.eqb Bool.eqb].
  split; apply Hu, Hk.
Qed.

Lemma updateRestaurant_keeps_the_other_fields_witness :
  lookup "password" (saved_doc (snd update_run)) =
    lookup "password" stored_restaurant /\
  own (own (payload (fst update_run)) "restaurant") "password" =
    JStr "$2b$10$abcdefghijklmnopqrstuv0123456789012345678901234567890".
Proof.
  apply (updateRestaurant_keeps_the_other_fields
           models_stored update_request [] (fst update_run) stored_restaurant
           (saved_doc (snd update_run)) "password");
    [reflexivity | reflexivity |].
  cbn. intuition discriminate.
Defined.

(** X11.  Of the nine fields assigned under [if (value)], one that the
    request gives with a truthy value takes it as it is, and one given a
    falsy value ([""], [0], [false], [null]) or not given keeps what the
    store had: a minimum order amount of 0 cannot be set.  [isActive] is
    the exception: any value but [undefined] is stored, [false] and [null]
    included. *)
Theorem updateRestaurant_ignores_falsy_values m req log resp doc doc' :
  updateRestaurant m req log = (resp, (log ++ [DocSaved doc'])%list) ->
  Restaurant_findById (world m) (restaurantId req) = inr (Some doc) ->
  (forall k, In k truthy_fields ->
     lookup k doc' =
       if truthy (own (body req) k) then own (body req) k else lookup k doc) /\
  lookup "isActive" doc' =
    (if strict_eq (own (body req) "isActive") JUndefined
     then lookup "isActive" doc else own (body req) "isActive").
Proof.
  intros Hrun Hf.
  destruct (updateRestaurant_saved _ _ _ _ _ _ Hrun Hf) as [Hu _].
  apply (returns_run _ _ _ _ _ (updated_after_fields _ _ _)) in Hu. split.
  - intros k Hk. rewrite Hu.
    + now apply apply_fields_truthy.
    + intro Hin. cbn in Hk, Hin.
      repeat (destruct Hk as [<- | Hk]); try contradiction;
        intuition discriminate.
  - rewrite Hu; [apply apply_fields_isActive |].
    cbn. intuition discriminate.
Qed.

Lemma updateRestaurant_ignores_falsy_values_witness :
  lookup "minOrderAmount" (saved_doc (snd update_run)) = JNum (num_of_Z 100) /\
  lookup "name" (saved_doc (snd update_run)) = JStr "Spice Hub Express" /\
  lookup "isActive" (saved_doc (snd update_run)) = JBool false.
Proof.
  destruct (updateRestaurant_ignores_falsy_values
              models_stored update_request [] (fst update_run)
              stored_restaurant (saved_doc (snd update_run))
              eq_refl eq_refl) as [H1 H2].
  split; [| split].
  - exact (H1 "minOrderAmount" ltac:(cbn; tauto)).
  - exact (H1 "name" ltac:(cbn; tauto)).
  - exact H2.
Defined.

(** ** The location *)

Lemma merge_address_location address doc log doc' l :
  merge_address address doc log = (Continue doc', l) ->
  lookup "location" doc' =
    if truthy address && (truthy (own address "coordinates") &&
         strict_eq (own (own address "coordinates") "length") (JNum (num_of_Z 2)))
    then point (own (own address "coordinates") "1")
               (own (own address "coordinates") "0")
    else lookup "location" doc.
Proof.
  unfold merge_address. destruct (truthy address); cbn [andb].
  2: { unfold ret. now intros [= <- _]. }
  intro H.
  assert (F : forall given field a b lg lg',
             merge_address_field address given field a lg = (Continue b, lg') ->
             lookup "location" b = lookup "location" a).
  { intros given field a b lg lg' E.
    apply (returns_run _ _ _ _ _ (merge_address_field_frame _ _ _ _) E).
    cbn. intuition discriminate. }
  next H d1. next H d2. next H d3. next H d4.
  repeat match goal with
         | E : merge_address_field _ _ _ _ _ = _ |- _ => apply F in E
         end.
  destruct (truthy (own address "coordinates") && _);
    unfold ret in H; injection H as <- _.
  - now rewrite lookup_set_prop_same.
  - congruence.
Qed.

Lemma updated_location w req doc log doc' :
  updated w req doc log = (Continue doc', log) ->
  lookup "location" doc' =
    let address := own (body req) "address" in
    if truthy address && (truthy (own address "coordinates") &&
         strict_eq (own (own address "coordinates") "length") (JNum (num_of_Z 2)))
    then point (own (own address "coordinates") "1")
               (own (own address "coordinates") "0")
    else lookup "location" doc.
Proof.
  unfold updated. intro H. next H d.
  match goal with E : merge_address _ _ _ = _ |- _ =>
    apply merge_address_location in E; rename E into Hm end.
  assert (Hi : lookup "location" doc' = lookup "location" d).
  { apply (returns_run _ _ _ _ _ (replace_images_frame _ _ _) H).
    cbn. intuition discriminate. }
  rewrite Hi, Hm. cbn zeta.
  destruct (truthy _ && _); [reflexivity |].
  apply apply_fields_frame. cbn. intuition discriminate.
Qed.

(** X13.  The location of a saved update: when the request gives
    [address.coordinates] as an array of two entries [a, b], the stored
    location becomes the point [b, a] (the entries are swapped); with an
    array of any other length, or without an address, the location stays
    as the store had it. *)
Theorem updateRestaurant_swaps_coordinates m req log resp doc doc' :
  updateRestaurant m req log = (resp, (log ++ [DocSaved doc'])%list) ->
  Restaurant_findById (world m) (restaurantId req) = inr (Some doc) ->
  (forall a b,
     truthy (own (body req) "address") = true ->
     own (own (body req) "address") "coordinates" = JArr [a; b] ->
     lookup "location" doc' = point b a) /\
  (forall coordinates,
     own (own (body req) "address") "coordinates" = JArr coordinates ->
     List.length coordinates <> 2%nat ->
     lookup "location" doc' = lookup "location" doc) /\
  (truthy (own (body req) "address") = false ->
   lookup "location" doc' = lookup "location" doc).
Proof.
  intros Hrun Hf.
  destruct (updateRestaurant_saved _ _ _ _ _ _ Hrun Hf) as [Hu _].
  apply updated_location in Hu. cbn zeta in Hu.
  split; [| split].
  - intros a b Ha Hc. rewrite Hu, Ha, Hc. reflexivity.
  - intros cs Hc Hn. rewrite Hu, Hc. cbn [truthy own String.eqb Ascii.eqb Bool.eqb strict_eq].
    change (num_of_Z 2) with (num_of_nat 2).
    rewrite length_eqb by (cbn; lia).
    apply Nat.eqb_neq in Hn. rewrite Hn.
    now rewrite !andb_false_r.
  - intros Ha. now rewrite Hu, Ha.
Qed.

Lemma updateRestaurant_swaps_coordinates_witness :
  lookup "location" (saved_doc (snd update_run)) =
    point (JNum (num_of_Z 72)) (JNum (num_of_Z 19)).
Proof.
  exact (proj1 (updateRestaurant_swaps_coordinates
                  models_stored update_request [] (fst update_run)
                  stored_restaurant (saved_doc (snd update_run))
                  eq_refl eq_refl)
           (JNum (num_of_Z 19)) (JNum (num_of_Z 72)) eq_refl eq_refl).
Defined.

(** ** The address *)

Lemma merge_address_field_object address given field doc stored log :
  truthy address = true ->
  lookup "address" doc = JObj stored ->
  merge_address_field address given field doc log =
    (Continue
       (set_prop "address"
          (JObj (set_prop field
                   (js_or (own address given) (lookup field stored)) stored))
          doc), log).
Proof.
  intros Ha Hs. unfold merge_address_field, get_opt, js_or.
  assert (Hn : is_nullish address = false) by (now destruct address).
  rewrite Hn, Hs.
  destruct (truthy (own address given)); reflexivity.
Qed.

Lemma merge_address_object address doc stored log doc' l :
  truthy address = true ->
  lookup "address" doc = JObj stored ->
  merge_address address doc log = (Continue doc', l) ->
  lookup "address" doc' = JObj (merged_address address stored).
Proof.
  intros Ha Hs. unfold merge_address. rewrite Ha.
  rewrite (bind_Continue _ _ _ _ _
             (merge_address_field_object address "street" "street" doc stored
                log Ha Hs)).
  set (d1 := set_prop "address" _ doc).
  rewrite (bind_Continue _ _ _ _ _
             (merge_address_field_object address "city" "city" d1 _ log Ha
                (lookup_set_prop_same _ _ _))).
  set (d2 := set_prop "address" _ d1).
  rewrite (bind_Continue _ _ _ _ _
             (merge_address_field_object address "state" "state" d2 _ log Ha
                (lookup_set_prop_same _ _ _))).
  set (d3 := set_prop "address" _ d2).
  rewrite (bind_Continue _ _ _ _ _
             (merge_address_field_object address "pincode" "zip" d3 _ log Ha
                (lookup_set_prop_same _ _ _))).
  set (d4 := set_prop "address" _ d3).
  assert (H4 : lookup "address" d4 = JObj (merged_address address stored))
    by apply lookup_set_prop_same.
  destruct (truthy _ && _); unfold ret; intros [= <- _]; [| exact H4].
  rewrite lookup_set_prop_other by discriminate. exact H4.
Qed.

Lemma merged_address_fields address stored :
  lookup "street" (merged_address address stored) =
    js_or (own address "street") (lookup "street" stored) /\
  lookup "city" (merged_address address stored) =
    js_or (own address "city") (lookup "city" stored) /\
  lookup "state" (merged_address address stored) =
    js_or (own address "state") (lookup "state" stored) /\
  lookup "zip" (merged_address address stored) =
    js_or (own address "pincode") (lookup "zip" stored) /\
  frame ["street"; "city"; "state"; "zip"] stored (merged_address address stored).
Proof.
  unfold merged_address. cbn zeta.
  repeat split;
    repeat first
      [ rewrite lookup_set_prop_same
      | rewrite lookup_set_prop_other by discriminate ];
    try reflexivity.
  intros k Hk.
  rewrite !lookup_set_prop_other; try reflexivity;
    intros ->; apply Hk; cbn; tauto.
Qed.

(** X12.  The address of a saved update, for a stored restaurant whose
    address is an object: street, city and state take the value the
    request gives when it is truthy and keep the stored one otherwise; the
    stored [zip] takes the request's [pincode] (a [zip] in the request is
    not read); the other paths of the address are kept.  Without an
    address in the request the stored address is untouched. *)
Theorem updateRestaurant_merges_the_address m req log resp doc doc' stored :
  updateRestaurant m req log = (resp, (log ++ [DocSaved doc'])%list) ->
  Restaurant_findById (world m) (restaurantId req) = inr (Some doc) ->
  lookup "address" doc = JObj stored ->
  (truthy (own (body req) "address") = true ->
   exists merged,
     lookup "address" doc' = JObj merged /\
     lookup "street" merged =
       js_or (own (own (body req) "address") "street") (lookup "street" stored) /\
     lookup "city" merged =
       js_or (own (own (body req) "address") "city") (lookup "city" stored) /\
     lookup "state" merged =
       js_or (own (own (body req) "address") "state") (lookup "state" stored) /\
     lookup "zip" merged =
       js_or (own (own (body req) "address") "pincode") (lookup "zip" stored) /\
     frame ["street"; "city"; "state"; "zip"] stored merged) /\
  (truthy (own (body req) "address") = false ->
   lookup "address" doc' = JObj stored).
Proof.
  intros Hrun Hf Hs.
  destruct (updateRestaurant_saved _ _ _ _ _ _ Hrun Hf) as [Hu _].
  unfold updated in Hu. next Hu d.
  assert (Hi : lookup "address" doc' = lookup "address" d).
  { apply (returns_run _ _ _ _ _ (replace_images_frame _ _ _) Hu).
    cbn. intuition discriminate. }
  assert (Hs' : lookup "address" (apply_fields (body req) doc) = JObj stored).
  { rewrite <- Hs. apply apply_fields_frame. cbn. intuition discriminate. }
  match goal with E : merge_address _ _ _ = _ |- _ => rename E into Hm end.
  split.
  - intro Ha. exists (merged_address (own (body req) "address") stored).
    split; [| apply merged_address_fields].
    rewrite Hi. eapply merge_address_object; eassumption.
  - intro Ha. rewrite Hi. unfold merge_address in Hm. rewrite Ha in Hm.
    unfold ret in Hm. injection Hm as <- _. exact Hs'.
Qed.

Lemma updateRestaurant_merges_the_address_witness :
  exists merged,
    lookup "address" (saved_doc (snd update_run)) = JObj merged /\
    lookup "street" merged = JStr "12 MG Road" /\
    lookup "city" merged = JStr "Mumbai" /\
    lookup "zip" merged = JStr "400001".
Proof.
  destruct (proj1 (updateRestaurant_merges_the_address
                     models_stored update_request [] (fst update_run)
                     stored_restaurant (saved_doc (snd update_run)) _
                     eq_refl eq_refl eq_refl) eq_refl)
    as (merged & E & Hstreet & Hcity & _ & Hzip & _).
  exists merged. split; [exact E |].
  split; [exact Hstreet |]. split; [exact Hcity | exact Hzip].
Defined.

(** ** The images *)

Lemma replace_images_spec w req doc log doc' l :
  replace_images w req doc log = (Continue doc', l) ->
  (forall fs, files req = JArr fs -> fs <> [] ->
     exists uploads,
       uploads_of w fs uploads /\
       lookup "images" doc' = JArr (uploaded_urls uploads)) /\
  (truthy (files req) = false \/ files req = JArr [] ->
   lookup "images" doc' = lookup "images" doc).
Proof.
  unfold replace_images. intro H. split.
  - intros fs Hfs Hne. rewrite Hfs in H.
    cbn [truthy andb own String.eqb Ascii.eqb Bool.eqb] in H.
    unfold gt_number in H. cbn [to_number] in H.
    rewrite length_positive in H.
    destruct fs as [| f fs']; [contradiction |].
    cbn [List.length Nat.ltb Nat.leb] in H.
    next H uploads.
    match goal with E : upload_all _ _ _ = _ |- _ =>
      apply upload_all_Continue in E as [_ Hu] end.
    exists uploads. split; [exact Hu |].
    unfold ret in H. injection H as <- _. apply lookup_set_prop_same.
  - intros [Hf | Hf]; rewrite Hf in H.
    + cbn [andb] in H. unfold ret in H. now injection H as <- _.
    + cbn in H. unfold ret in H. now injection H as <- _.
Qed.

(** X14.  The images of a saved update: when the request carries files, the
    stored images are replaced (not extended) by the addresses of the
    uploads that resolved to a value with a truthy [secure_url], in the
    order of the files; an upload that resolved to nothing is silently
    left out.  Without files the stored images are kept. *)
Theorem updateRestaurant_replaces_the_images m req log resp doc doc' :
  updateRestaurant m req log = (resp, (log ++ [DocSaved doc'])%list) ->
  Restaurant_findById (world m) (restaurantId req) = inr (Some doc) ->
  (forall fs, files req = JArr fs -> fs <> [] ->
     exists uploads,
       uploads_of (world m) fs uploads /\
       lookup "images" doc' = JArr (uploaded_urls uploads) /\
       forall url,
         In url (uploaded_urls uploads) <->
         exists result,
           In result uploads /\ truthy result = true /\
           truthy (own result "secure_url") = true /\
           url = own result "secure_url") /\
  (truthy (files req) = false \/ files req = JArr [] ->
   lookup "images" doc' = lookup "images" doc).
Proof.
  intros Hrun Hf.
  destruct (updateRestaurant_saved _ _ _ _ _ _ Hrun Hf) as [Hu _].
  unfold updated in Hu. next Hu d.
  match goal with E : merge_address _ _ _ = _ |- _ => rename E into Hm end.
  assert (Hd : lookup "images" d = lookup "images" doc).
  { rewrite (returns_run _ _ _ _ _ (merge_address_frame _ _) Hm "images")
      by (cbn; intuition discriminate).
    apply apply_fields_frame. cbn. intuition discriminate. }
  apply replace_images_spec in Hu as [H1 H2]. split.
  - intros fs Hfs Hne. destruct (H1 fs Hfs Hne) as (uploads & U & E).
    exists uploads. split; [exact U |]. split; [exact E |].
    intro url. apply uploaded_urls_spec.
  - intro H. now rewrite H2.
Qed.

Lemma updateRestaurant_replaces_the_images_witness :
  lookup "images" (saved_doc (snd update_run)) =
    JArr [JStr "https://res.cloudinary.com/a.jpg";
          JStr "https://res.cloudinary.com/c.jpg"] /\
  exists uploads,
    uploads_of world_stored
      [JObj [("path", JStr "a.jpg")]; JObj [("path", JStr "b.jpg")];
       JObj [("path", JStr "c.jpg")]] uploads /\
    lookup "images" (saved_doc (snd update_run)) = JArr (uploaded_urls uploads).
Proof.
  split; [reflexivity |].
  destruct (proj1 (updateRestaurant_replaces_the_images
                     models_stored update_request [] (fst update_run)
                     stored_restaurant (saved_doc (snd update_run))
                     eq_refl eq_refl) _ eq_refl ltac:(discriminate))
    as (uploads & U & E & _).
  exists uploads. split; [exact U | exact E].
Defined.

End UpdateFacts.

(* ===================================================================== *)
(** * deleteRestaurant                                                  *)
(* ===================================================================== *)

Module DeleteFacts.
Import Js Http Controller Operations Spec Cases HandlerFacts JsFacts.

(** X15.  Every run of deleteRestaurant: with the answer 200, the
    restaurant found under the id was removed and then the permissions of
    that id, in this order; with 400 or 404 nothing was removed; with 500
    either nothing was removed, or the restaurant alone was,
    [Permission.deleteOne] having rejected.  The answer is 400 exactly
    when the id is missing or has not the shape of an ObjectId. *)
Theorem deleteRestaurant_removes_restaurant_then_permissions
  m req removed resp removed' :
  deleteRestaurant m req removed = (resp, removed') ->
  (status resp = 200 ->
   exists restaurant,
     Restaurant_findById (world m) (restaurantId req) = inr (Some restaurant) /\
     removed' = (removed ++ [RestaurantDeleted restaurant;
                             PermissionDeleted (permission_of req)])%list) /\
  (status resp <> 200 -> status resp <> 500 -> removed' = removed) /\
  (status resp = 500 ->
   removed' = removed \/
   exists restaurant e,
     Restaurant_findById (world m) (restaurantId req) = inr (Some restaurant) /\
     Permission_deleteOne m (permission_of req) = inl e /\
     removed' = (removed ++ [RestaurantDeleted restaurant])%list) /\
  (status resp = 400 <->
   truthy (restaurantId req) = false \/
   ObjectId_isValid (world m) (restaurantId req) = false).
Proof.
  unfold deleteRestaurant. fold (restaurantId req). fold (permission_of req).
  destruct (truthy (restaurantId req)) eqn:Ht; cbn [negb];
    [destruct (ObjectId_isValid (world m) (restaurantId req)) eqn:Hv;
     cbn [negb];
     [destruct (Restaurant_findById (world m) (restaurantId req))
        as [e | [restaurant |]] eqn:Hf;
      [| destruct (doc_deleteOne m restaurant) as [e | []] eqn:Hd;
         [| destruct (Permission_deleteOne m (permission_of req))
              as [e | []] eqn:Hp] |] |] |];
    intros [= <- <-]; cbn [status];
    (split; [| split; [| split; [| split]]]); intros;
    try discriminate; try contradiction; try reflexivity; auto;
    try match goal with
        | H : _ \/ _ |- _ => destruct H; discriminate
        end.
  - right. exists restaurant, e. auto.
  - exists restaurant. rewrite <- app_assoc. auto.
Qed.

Lemma deleteRestaurant_removes_restaurant_then_permissions_witness :
  deleteRestaurant models sample_request [] =
    (mkResponse 200
       (JObj [("message",
               JStr "Restaurant and its permissions deleted successfully.")]),
     [RestaurantDeleted Sample.sample_restaurant;
      PermissionDeleted (JObj [("restaurantId", JStr Sample.sample_id)])]) /\
  exists restaurant,
    Restaurant_findById (world models) (restaurantId sample_request) =
      inr (Some restaurant) /\
    [RestaurantDeleted Sample.sample_restaurant;
     PermissionDeleted (JObj [("restaurantId", JStr Sample.sample_id)])] =
    ([] ++ [RestaurantDeleted restaurant;
            PermissionDeleted (permission_of sample_request)])%list.
Proof.
  split; [reflexivity |].
  exact (proj1 (deleteRestaurant_removes_restaurant_then_permissions
                  models sample_request [] _ _ eq_refl) eq_refl).
Defined.

(** X16.  When the restaurant is found and removed and
    [Permission.deleteOne] then rejects, deleteRestaurant answers 500 with
    the restaurant already removed: the removal is not undone, and the
    permissions of the restaurant stay in the store. *)
Theorem deleteRestaurant_leaves_permissions_behind m req removed restaurant e :
  truthy (restaurantId req) = true ->
  ObjectId_isValid (world m) (restaurantId req) = true ->
  Restaurant_findById (world m) (restaurantId req) = inr (Some restaurant) ->
  doc_deleteOne m restaurant = inr tt ->
  Permission_deleteOne m (permission_of req) = inl e ->
  deleteRestaurant m req removed =
    (mkResponse 500 (JObj [("message", JStr "Server error.")]),
     (removed ++ [RestaurantDeleted restaurant])%list).
Proof.
  intros Ht Hv Hf Hd Hp. unfold deleteRestaurant.
  fold (restaurantId req). fold (permission_of req).
  now rewrite Ht, Hv, Hf, Hd, Hp.
Qed.

Lemma deleteRestaurant_leaves_permissions_behind_witness :
  deleteRestaurant models_permission_lost sample_request [] =
    (mkResponse 500 (JObj [("message", JStr "Server error.")]),
     [RestaurantDeleted Sample.sample_restaurant]).
Proof.
  apply (deleteRestaurant_leaves_permissions_behind
           models_permission_lost sample_request [] Sample.sample_restaurant
           (Error "connection lost")); reflexivity.
Defined.

End DeleteFacts.

(* ===================================================================== *)
(** * addServiceArea, getAllApprovedRestaurants, updateRestaurantOrderStatus *)
(* ===================================================================== *)

Module ServiceAreaFacts.
Import Js Http Controller Operations Spec Cases HandlerFacts JsFacts.
Import NumberFacts FrameFacts.
Local Open Scope handler_scope.

Lemma array_length_zero l :
  strict_eq (own (JArr l) "length") (JNum (num_of_Z 0)) =
  (List.length l =? 0)%nat.
Proof.
  cbn [own String.eqb Ascii.eqb Bool.eqb strict_eq].
  change (num_of_Z 0) with (num_of_nat 0). apply length_eqb. cbn. lia.
Qed.

(** The test of the loop is the negation of [polygon]. *)
Lemma bad_area_polygon area :
  is_nullish area = false -> bad_area area = inr (negb (polygon area)).
Proof.
  intro Hn. unfold bad_area, polygon. rewrite (get_not_nullish _ _ Hn).
  f_equal.
  destruct (own area "type") as [| | b | x | s | l | l] eqn:Et;
    cbn [truthy strict_eq negb andb orb]; try reflexivity;
    try (now rewrite ?orb_true_r).
  destruct (s =? "Polygon") eqn:Es.
  - apply String.eqb_eq in Es. subst s. cbn [String.eqb Ascii.eqb Bool.eqb negb orb andb].
    destruct (own area "coordinates") as [| | | | | cs |] eqn:Ec;
      cbn [is_array negb orb]; try reflexivity.
    rewrite array_length_zero. destruct cs; reflexivity.
  - cbn [negb andb]. now rewrite orb_true_r.
Qed.

Lemma polygon_not_nullish area : polygon area = true -> is_nullish area = false.
Proof. destruct area; cbn; try reflexivity; discriminate. Qed.

Lemma check_areas_accepts areas log :
  forallb polygon areas = true -> check_areas areas log = (Continue tt, log).
Proof.
  induction areas as [| area rest IH]; intro H; [reflexivity |].
  cbn [forallb] in H. apply andb_true_iff in H as [Ha Hr].
  cbn [check_areas].
  rewrite (bad_area_polygon _ (polygon_not_nullish _ Ha)), Ha.
  unfold bind at 1. cbn [eval ret negb]. now apply IH.
Qed.

(** The first entry that is not a polygon, when it is neither [null] nor
    [undefined], ends the loop with the 400 answer, whatever comes after
    it. *)
Lemma check_areas_rejects before bad after log :
  forallb polygon before = true ->
  polygon bad = false ->
  is_nullish bad = false ->
  check_areas (before ++ bad :: after)%list log =
    (Respond (mkResponse 400
       (failure_only
          "Each serviceArea must be a valid GeoJSON Polygon with coordinates")),
     log).
Proof.
  intros Hb Hbad Hn. induction before as [| area rest IH]; cbn [app check_areas].
  - rewrite (bad_area_polygon _ Hn), Hbad. reflexivity.
  - cbn [forallb] in Hb. apply andb_true_iff in Hb as [Ha Hr].
    rewrite (bad_area_polygon _ (polygon_not_nullish _ Ha)), Ha.
    unfold bind at 1. cbn [eval ret negb]. now apply IH.
Qed.

Lemma check_areas_throws before hole after log :
  forallb polygon before = true -> is_nullish hole = true ->
  exists e, check_areas (before ++ hole :: after)%list log = (Throw e, log).
Proof.
  intros Hb Hh. induction before as [| area rest IH]; cbn [app check_areas].
  - destruct hole; try discriminate; eexists; reflexivity.
  - cbn [forallb] in Hb. apply andb_true_iff in Hb as [Ha Hr].
    rewrite (bad_area_polygon _ (polygon_not_nullish _ Ha)), Ha.
    unfold bind at 1. cbn [eval ret negb]. now apply IH.
Qed.

Section Handler.

Variable w : World.
Variable req : Request.

Hypothesis id_valid : ObjectId_isValid w (restaurantId req) = true.
Hypothesis body_given : is_nullish (body req) = false.

Lemma addServiceArea_not_an_array log :
  is_array (own (body req) "serviceAreas") = false \/
  own (body req) "serviceAreas" = JArr [] ->
  addServiceArea w req log =
    (mkResponse 400
       (failure_only "serviceAreas must be a non-empty array of GeoJSON Polygons"),
     log).
Proof.
  intro H. unfold addServiceArea, try_catch. fold (restaurantId req).
  rewrite (get_not_nullish _ _ body_given). unfold bind at 1. cbn [eval ret].
  rewrite id_valid. cbn [negb].
  destruct H as [H | H]; rewrite H; reflexivity.
Qed.

Lemma addServiceArea_checks log area rest :
  own (body req) "serviceAreas" = JArr (area :: rest) ->
  addServiceArea w req log =
    try_catch
      (check_areas (area :: rest) ;;
       restaurant <- eval (Restaurant_findById w (restaurantId req)) ;;
       match restaurant with
       | None => respond 404 (failure_only "Restaurant not found")
       | Some doc =>
           let doc' := set_prop "serviceAreas" (JArr (area :: rest)) doc in
           eval (doc_save w doc') ;;
           write (DocSaved doc') ;;
           ret (mkResponse 200
                  (JObj [("message", JStr "Service areas updated successfully");
                         ("messageType", JStr "success");
                         ("data", lookup "serviceAreas" doc')]))
       end)
      (fun _ => mkResponse 500 (failure_only "Server error")) log.
Proof.
  intro H. unfold addServiceArea, try_catch. fold (restaurantId req).
  rewrite (get_not_nullish _ _ body_given). unfold bind at 1. cbn [eval ret].
  rewrite id_valid, H. cbn [negb is_array orb elements].
  rewrite array_length_zero. reflexivity.
Qed.

End Handler.

(** X19.  addServiceArea, for a valid restaurant id and a request with a
    body: a [serviceAreas] that is not an array, or is the empty array, is
    answered 400.  The entries are checked in order, and the first one
    that is not a polygon (type "Polygon", coordinates a non-empty array)
    decides: when it is a value other than [null] and [undefined], the
    answer is 400 and nothing is saved, whatever comes after it (when it
    is [null] or [undefined] the answer is 500, see X20).  When every
    entry is a polygon, the stored service areas are replaced by the array
    of the request, the document is saved and the answer is 200 with the
    new areas. *)
Theorem addServiceArea_accepts_only_polygons w req log :
  ObjectId_isValid w (restaurantId req) = true ->
  is_nullish (body req) = false ->
  (is_array (own (body req) "serviceAreas") = false \/
   own (body req) "serviceAreas" = JArr [] ->
   addServiceArea w req log =
     (mkResponse 400
        (JObj [("message",
                JStr "serviceAreas must be a non-empty array of GeoJSON Polygons");
               ("messageType", JStr "failure")]), log)) /\
  (forall before bad after,
     own (body req) "serviceAreas" = JArr (before ++ bad :: after)%list ->
     forallb polygon before = true ->
     polygon bad = false ->
     is_nullish bad = false ->
     addServiceArea w req log =
       (mkResponse 400
          (JObj [("message",
                  JStr "Each serviceArea must be a valid GeoJSON Polygon with coordinates");
                 ("messageType", JStr "failure")]), log)) /\
  (forall areas doc,
     own (body req) "serviceAreas" = JArr areas -> areas <> [] ->
     forallb polygon areas = true ->
     Restaurant_findById w (restaurantId req) = inr (Some doc) ->
     doc_save w (set_prop "serviceAreas" (JArr areas) doc) = inr tt ->
     addServiceArea w req log =
       (mkResponse 200
          (JObj [("message", JStr "Service areas updated successfully");
                 ("messageType", JStr "success");
                 ("data", JArr areas)]),
        (log ++ [DocSaved (set_prop "serviceAreas" (JArr areas) doc)])%list)).
Proof.
  intros Hv Hb. split; [| split].
  - now apply addServiceArea_not_an_array.
  - intros before bad after Ha Hok Hbad Hn.
    destruct (before ++ bad :: after)%list as [| area rest] eqn:E.
    { now destruct before. }
    rewrite (addServiceArea_checks w req Hv Hb log area rest Ha).
    rewrite <- E. unfold try_catch.
    now rewrite (bind_Respond _ _ _ _ _
                   (check_areas_rejects before bad after log Hok Hbad Hn)).
  - intros areas doc Ha Hne Hok Hf Hs.
    destruct areas as [| area rest]; [contradiction |].
    rewrite (addServiceArea_checks w req Hv Hb log area rest Ha).
    unfold try_catch.
    rewrite (bind_Continue _ _ _ _ _ (check_areas_accepts _ log Hok)).
    rewrite Hf. unfold bind at 1. cbn [eval ret]. cbn zeta.
    rewrite Hs. unfold bind, eval, ret, write.
    now rewrite lookup_set_prop_same.
Qed.

Lemma addServiceArea_accepts_only_polygons_witness :
  addServiceArea Sample.world (areas_request (JArr [delivery_zone])) [] =
    (mkResponse 200
       (JObj [("message", JStr "Service areas updated successfully");
              ("messageType", JStr "success");
              ("data", JArr [delivery_zone])]),
     [DocSaved (set_prop "serviceAreas" (JArr [delivery_zone])
                         Sample.sample_restaurant)]) /\
  addServiceArea Sample.world
    (areas_request
       (JArr [delivery_zone;
              JObj [("type", JStr "Point"); ("coordinates", JArr [ring])];
              JNull])) [] =
    (mkResponse 400
       (JObj [("message",
               JStr "Each serviceArea must be a valid GeoJSON Polygon with coordinates");
              ("messageType", JStr "failure")]), []).
Proof.
  split.
  - apply (proj2 (proj2 (addServiceArea_accepts_only_polygons
                           Sample.world (areas_request (JArr [delivery_zone]))
                           [] eq_refl eq_refl)));
      [reflexivity | discriminate | reflexivity | reflexivity | reflexivity].
  - apply (proj1 (proj2 (addServiceArea_accepts_only_polygons
                           Sample.world
                           (areas_request
                              (JArr [delivery_zone;
                                     JObj [("type", JStr "Point");
                                           ("coordinates", JArr [ring])];
                                     JNull]))
                           [] eq_refl eq_refl))
             [delivery_zone]
             (JObj [("type", JStr "Point"); ("coordinates", JArr [ring])])
             [JNull]); reflexivity.
Defined.

(** X20.  An entry that is [null] (or [undefined]) after polygons is not
    answered 400: reading its [type] throws, and the handler answers 500,
    saving nothing. *)
Theorem addServiceArea_null_area_is_a_server_error
  w req log before hole after :
  ObjectId_isValid w (restaurantId req) = true ->
  is_nullish (body req) = false ->
  own (body req) "serviceAreas" = JArr (before ++ hole :: after)%list ->
  forallb polygon before = true ->
  is_nullish hole = true ->
  addServiceArea w req log =
    (mkResponse 500
       (JObj [("message", JStr "Server error");
              ("messageType", JStr "failure")]), log).
Proof.
  intros Hv Hb Ha Hok Hh.
  destruct (before ++ hole :: after)%list as [| area rest] eqn:E.
  - now destruct before.
  - rewrite (addServiceArea_checks w req Hv Hb log area rest Ha).
    rewrite <- E.
    destruct (check_areas_throws before hole after log Hok Hh) as (e & Ht).
    unfold try_catch. now rewrite (bind_Throw _ _ _ _ _ Ht).
Qed.

Lemma addServiceArea_null_area_is_a_server_error_witness :
  addServiceArea Sample.world (areas_request (JArr [delivery_zone; JNull])) [] =
    (mkResponse 500
       (JObj [("message", JStr "Server error");
              ("messageType", JStr "failure")]), []).
Proof.
  apply (addServiceArea_null_area_is_a_server_error
           Sample.world (areas_request (JArr [delivery_zone; JNull])) []
           [delivery_zone] JNull []); reflexivity.
Defined.

End ServiceAreaFacts.

Module ListingFacts.
Import Js Http Controller Operations Spec Cases HandlerFacts JsFacts.
Import NumberFacts FrameFacts.
Local Open Scope handler_scope.

Lemma lookup_drop_props_other ks l k :
  ~ In k ks -> lookup k (drop_props ks l) = lookup k l.
Proof.
  intro Hk. unfold drop_props.
  induction l as [| [k' v] r IH]; [reflexivity |].
  cbn [filter fst].
  destruct (existsb (String.eqb k') ks) eqn:E; cbn [negb lookup].
  - rewrite IH. destruct (k =? k') eqn:Ek; [| reflexivity].
    apply String.eqb_eq in Ek. subst k'.
    apply existsb_exists in E as (x & Hx & Ex).
    apply String.eqb_eq in Ex. subst x. contradiction.
  - now rewrite IH.
Qed.

(** X22.  getAllApprovedRestaurants asks the store for every restaurant,
    without a condition on the approval status: whatever the store holds
    is listed, in order and counted, each document as stored but for its
    [kycDocuments], which is left out; nothing is written. *)
Theorem getAllApprovedRestaurants_lists_every_restaurant m req log docs :
  Restaurant_find m = inr docs ->
  exists listed,
    getAllApprovedRestaurants m req log =
      (mkResponse 200
         (JObj [("message", JStr "Approved restaurants fetched successfully.");
                ("count", JNum (num_of_nat (List.length docs)));
                ("restaurants", JArr (map JObj listed))]), log) /\
    Forall2 (fun doc shown =>
               lookup "kycDocuments" shown = JUndefined /\
               frame ["kycDocuments"] doc shown)
            docs listed.
Proof.
  intro Hf. exists (map (drop_props ["kycDocuments"]) docs). split.
  - unfold getAllApprovedRestaurants, try_catch. rewrite Hf.
    unfold bind, eval, ret. now rewrite length_map.
  - clear Hf. induction docs as [| doc rest IH]; cbn [map]; constructor.
    + split; [apply lookup_drop_props; now left |].
      intros k Hk. now apply lookup_drop_props_other.
    + exact IH.
Qed.

Lemma getAllApprovedRestaurants_lists_every_restaurant_witness :
  exists listed,
    getAllApprovedRestaurants models_with_order Cases.sample_request [] =
      (mkResponse 200
         (JObj [("message", JStr "Approved restaurants fetched successfully.");
                ("count", JNum (num_of_nat 2));
                ("restaurants", JArr (map JObj listed))]), []) /\
    exists first second,
      listed = [first; second] /\
      lookup "approvalStatus" second = JStr "rejected".
Proof.
  destruct (getAllApprovedRestaurants_lists_every_restaurant
              models_with_order Cases.sample_request [] _ eq_refl)
    as (listed & E & F).
  exists listed. split; [exact E |].
  inversion F as [| d1 s1 l1 l1' [_ H1] F1]; subst.
  inversion F1 as [| d2 s2 l2 l2' [_ H2] F2]; subst.
  inversion F2; subst.
  exists s1, s2. split; [reflexivity |].
  apply (H2 "approvalStatus"). cbn. intuition discriminate.
Defined.

End ListingFacts.

Module OrderFacts.
Import Js Http Controller Operations Spec Cases HandlerFacts JsFacts.
Import NumberFacts FrameFacts.
Local Open Scope handler_scope.

(** X23.  updateRestaurantOrderStatus saves only when it answers 200, and
    then the saved order is the stored one with [status] set to whatever
    the request gives, unchecked, every other path kept; it never answers
    400. *)
Theorem updateRestaurantOrderStatus_stores_any_status m req log resp log' :
  updateRestaurantOrderStatus m req log = (resp, log') ->
  (status resp = 200 ->
   exists order saved,
     Order_findById m (orderId req) = inr (Some order) /\
     log' = (log ++ [DocSaved saved])%list /\
     own (payload resp) "order" = JObj saved /\
     lookup "status" saved = own (body req) "status" /\
     frame ["status"] order saved) /\
  (status resp <> 200 -> log' = log) /\
  status resp <> 400.
Proof.
  unfold updateRestaurantOrderStatus, try_catch. fold (orderId req).
  destruct (get (body req) "status") as [e | st] eqn:Hg;
    unfold bind at 1; cbn [eval throw ret].
  { intros [= <- <-]. cbn [status]. repeat split; intros; try discriminate. }
  apply get_inr in Hg. subst st.
  destruct (Order_findById m (orderId req)) as [e | [order |]] eqn:Hf;
    unfold bind at 1; cbn [eval throw ret].
  - intros [= <- <-]. cbn [status]. repeat split; intros; try discriminate.
  - cbn zeta.
    destruct (doc_save (world m) _) as [e | []] eqn:Hs;
      unfold bind, eval, throw, ret, write.
    + intros [= <- <-]. cbn [status]. repeat split; intros; try discriminate.
    + intros [= <- <-]. cbn [status]. repeat split; intros; try discriminate;
        try contradiction.
      eexists order, _. split; [reflexivity |]. split; [reflexivity |].
      split; [reflexivity |]. split; [apply lookup_set_prop_same |].
      apply frame_set_prop. now left.
  - intros [= <- <-]. cbn [status]. repeat split; intros; try discriminate.
Qed.

Lemma updateRestaurantOrderStatus_stores_any_status_witness :
  updateRestaurantOrderStatus models_with_order
    (order_request (JStr "teleported")) [] =
    (mkResponse 200
       (JObj [("message", JStr "Order status updated successfully");
              ("order", JObj (set_prop "status" (JStr "teleported") stored_order))]),
     [DocSaved (set_prop "status" (JStr "teleported") stored_order)]) /\
  exists order saved,
    Order_findById models_with_order (orderId (order_request (JStr "teleported")))
      = inr (Some order) /\
    [DocSaved (set_prop "status" (JStr "teleported") stored_order)] =
      ([] ++ [DocSaved saved])%list /\
    lookup "status" saved = JStr "teleported".
Proof.
  split; [reflexivity |].
  destruct (proj1 (updateRestaurantOrderStatus_stores_any_status
                     models_with_order (order_request (JStr "teleported")) []
                     _ _ eq_refl) eq_refl)
    as (order & saved & Hf & Hl & _ & Hs & _).
  exists order, saved. split; [exact Hf |]. split; [exact Hl | exact Hs].
Defined.

End OrderFacts.

(* ===================================================================== *)
(** * addKyc, the reading handlers, the menu and the earnings           *)
(* ===================================================================== *)

Module KycUploadFacts.
Import Js Http Controller Operations Spec Cases HandlerFacts JsFacts.
Import NumberFacts FrameFacts UploadFacts CreatedFacts.
Local Open Scope handler_scope.

(** The addresses addKyc adds, read off a run of its upload step. *)
Lemma kyc_urls_spec w req urls log l :
  (if truthy (files req) &&
      gt_number (Number_toString w) (own (files req) "length") (num_of_Z 0)
   then uploads <- upload_all w (files req) ;; ret (uploaded_urls uploads)
   else ret []) log = (Continue urls, l) ->
  (truthy (files req) = false \/ files req = JArr [] -> urls = []) /\
  (forall fs, files req = JArr fs -> fs <> [] ->
     exists uploads, uploads_of w fs uploads /\ urls = uploaded_urls uploads).
Proof.
  intro H. split.
  - intros [Hf | Hf]; rewrite Hf in H; cbn in H; unfold ret in H;
      now injection H as <- _.
  - intros fs Hfs Hne. rewrite Hfs in H.
    cbn [truthy andb own String.eqb Ascii.eqb Bool.eqb] in H.
    unfold gt_number in H. cbn [to_number] in H.
    rewrite length_positive in H.
    destruct fs as [| f fs']; [contradiction |].
    cbn [List.length Nat.ltb Nat.leb] in H.
    next H uploads.
    match goal with E : upload_all _ _ _ = _ |- _ =>
      apply upload_all_Continue in E as [_ Hu] end.
    exists uploads. split; [exact Hu |].
    unfold ret in H. now injection H as <- _.
Qed.

(** X17.  addKyc saves only when it answers 200, and then the saved
    restaurant is the stored one with the addresses of the uploads that
    went through appended to its kycDocuments (an upload that resolved to
    nothing is left out), and with kycStatus set to pending, even when the
    request carried no file; every other path is kept. *)
Theorem addKyc_appends_and_resets_the_status w req log resp log' :
  addKyc w req log = (resp, log') ->
  (status resp = 200 ->
   exists doc old urls saved,
     Restaurant_findById w (restaurantId req) = inr (Some doc) /\
     spread (lookup "kycDocuments" doc) = inr old /\
     log' = (log ++ [DocSaved saved])%list /\
     lookup "kycDocuments" saved = JArr (old ++ urls) /\
     lookup "kycStatus" saved = JStr "pending" /\
     frame ["kycDocuments"; "kycStatus"] doc saved /\
     (truthy (files req) = false \/ files req = JArr [] -> urls = []) /\
     (forall fs, files req = JArr fs -> fs <> [] ->
        exists uploads,
          uploads_of w fs uploads /\ urls = uploaded_urls uploads)) /\
  (status resp <> 200 -> log' = log).
Proof.
  unfold addKyc, try_catch. fold (restaurantId req).
  destruct (Restaurant_findById w (restaurantId req)) as [e | [doc |]] eqn:Hf;
    unfold bind at 1; cbn [eval throw ret].
  1, 3: intros [= <- <-]; cbn [status]; split; intros; [discriminate | reflexivity].
  destruct (KycFacts.kyc_uploads_quiet w req log) as [Hl Hr].
  unfold bind at 1.
  match goal with
  | |- context [match ?stage log with _ => _ end] =>
      destruct (stage log) as [[urls | r | e] l] eqn:Eu
  end; cbn [fst snd] in Hl, Hr; subst l.
  2: now destruct (Hr r).
  2: intros [= <- <-]; cbn [status]; split; intros; [discriminate | reflexivity].
  destruct (spread (lookup "kycDocuments" doc)) as [e | old] eqn:Hs;
    unfold bind at 1; cbn [eval throw ret].
  1: intros [= <- <-]; cbn [status]; split; intros; [discriminate | reflexivity].
  cbn zeta.
  destruct (doc_save w _) as [e | []] eqn:Hsave;
    unfold bind, eval, throw, ret, write.
  1: intros [= <- <-]; cbn [status]; split; intros; [discriminate | reflexivity].
  intros [= <- <-]. cbn [status]. split; [intros _ | intro H; now destruct H].
  apply kyc_urls_spec in Eu as [U1 U2].
  eexists doc, old, urls, _. split; [reflexivity |].
  split; [exact Hs |]. split; [reflexivity |].
  split; [| split; [| split; [| split; [exact U1 | exact U2]]]].
  - rewrite lookup_set_prop_other by discriminate. apply lookup_set_prop_same.
  - apply lookup_set_prop_same.
  - eapply frame_trans; apply frame_set_prop; cbn; tauto.
Qed.

Lemma addKyc_appends_and_resets_the_status_witness :
  status (fst (addKyc world_kyc (kyc_request two_files) [])) = 200 /\
  exists saved,
    snd (addKyc world_kyc (kyc_request two_files) []) = [DocSaved saved] /\
    lookup "kycDocuments" saved =
      JArr [JStr "https://res.cloudinary.com/old.pdf";
            JStr "https://res.cloudinary.com/a.pdf"] /\
    lookup "kycStatus" saved = JStr "pending".
Proof.
  split; [reflexivity |].
  destruct (proj1 (addKyc_appends_and_resets_the_status
                     world_kyc (kyc_request two_files) [] _ _ eq_refl) eq_refl)
    as (doc & old & urls & saved & _ & _ & Hl & _ & Hs & _).
  exists saved. split; [exact Hl |].
  cbn in Hl. injection Hl as <-. split; [reflexivity | exact Hs].
Defined.

(** X18.  addKyc spreads the stored kycDocuments into a list.  The data
    createRestaurant hands to the store has kycDocuments as an object of
    three addresses; for a restaurant stored with that value, the spread
    throws and addKyc answers 500 and saves nothing, whatever the files of
    the request. *)
Theorem addKyc_fails_on_a_restaurant_of_createRestaurant
  scope w0 req0 log0 resp0 new data created w req log doc :
  createRestaurant_in scope w0 req0 log0 = (resp0, (log0 ++ new)%list) ->
  In (RestaurantCreated data created) new ->
  Restaurant_findById w (restaurantId req) = inr (Some doc) ->
  lookup "kycDocuments" doc = own data "kycDocuments" ->
  addKyc w req log =
    (mkResponse 500 (JObj [("message", JStr "Server error while uploading KYC.")]),
     log).
Proof.
  intros Hrun Hin Hf Hk.
  destruct (created_data _ _ _ _ _ _ _ _ Hrun Hin) as (v & h & docs & _ & _ & Hd).
  apply restaurantData_fields in Hd
    as (_ & _ & _ & _ & _ & _ & _ & fssai & gst & aadhar & Hdocs).
  rewrite Hdocs in Hk.
  unfold addKyc, try_catch. fold (restaurantId req). rewrite Hf.
  unfold bind at 1; cbn [eval throw ret].
  destruct (KycFacts.kyc_uploads_quiet w req log) as [Hl Hr].
  unfold bind at 1.
  match goal with
  | |- context [match ?stage log with _ => _ end] =>
      destruct (stage log) as [[urls | r | e] l] eqn:Eu
  end; cbn [fst snd] in Hl, Hr; subst l.
  - rewrite Hk. reflexivity.
  - now destruct (Hr r).
  - reflexivity.
Qed.

Lemma addKyc_fails_on_a_restaurant_of_createRestaurant_witness :
  status (fst padded_run) = 201 /\
  addKyc world_after_onboarding (kyc_request two_files) [] =
    (mkResponse 500 (JObj [("message", JStr "Server error while uploading KYC.")]),
     []).
Proof.
  split; [reflexivity |].
  apply (addKyc_fails_on_a_restaurant_of_createRestaurant
           Sample.scope_with_bcrypt Sample.world onboarding_padded []
           (fst padded_run) (snd padded_run)
           (fst (Sample.first_created (snd padded_run)))
           (snd (Sample.first_created (snd padded_run)))
           world_after_onboarding (kyc_request two_files) []
           (snd (Sample.first_created (snd padded_run))));
    [reflexivity | left; reflexivity | reflexivity | reflexivity].
Defined.

End KycUploadFacts.

Module ReadFacts.
Import Js Http Controller Operations Spec Cases HandlerFacts JsFacts.
Import NumberFacts FrameFacts.
Local Open Scope handler_scope.

Lemma menu_entry_quiet w id category : quiet (menu_entry w id category).
Proof. unfold menu_entry. repeat quiet_step. Qed.

(** X25.  The five handlers that only read (getRestaurantById, getKyc,
    getRestaurantMenu, getRestaurantEarningSummary,
    getAllApprovedRestaurants) write nothing to the store, whatever the
    request and whatever the store answers. *)
Theorem reading_handlers_write_nothing w m req log :
  snd (getRestaurantById w req log) = log /\
  snd (getKyc w req log) = log /\
  snd (getRestaurantMenu w req log) = log /\
  snd (getRestaurantEarningSummary w req log) = log /\
  snd (getAllApprovedRestaurants m req log) = log.
Proof.
  repeat split.
  - unfold getRestaurantById. apply try_catch_readonly. repeat readonly_step.
  - unfold getKyc. apply try_catch_readonly. repeat readonly_step.
  - unfold getRestaurantMenu. apply try_catch_readonly.
    destruct (negb _); [apply readonly_respond |].
    apply readonly_bind; [apply readonly_eval |]. intro categories.
    destruct (_ =? 0)%nat; [apply readonly_respond |].
    apply readonly_bind; [| intro; apply readonly_ret].
    apply quiet_readonly, quiet_map_from. intros. apply menu_entry_quiet.
  - unfold getRestaurantEarningSummary. apply try_catch_readonly.
    repeat readonly_step.
  - unfold getAllApprovedRestaurants. apply try_catch_readonly.
    repeat readonly_step.
Qed.

(** A [map] one of whose calls throws, throws. *)
Lemma map_from_throws {A B} (f : nat -> A -> Handler B) l x log :
  (forall j y, quiet (f j y)) ->
  In x l ->
  (forall j, exists e, f j x log = (Throw e, log)) ->
  forall i, exists e, map_from i f l log = (Throw e, log).
Proof.
  intros Hq Hin Hx. induction l as [| y rest IH]; intro i; [contradiction |].
  cbn [map_from].
  destruct (Hq i y log) as [Hl Hr].
  destruct (f i y log) as [[b | r | e] l'] eqn:E; cbn [fst snd] in Hl, Hr; subst l'.
  - rewrite (bind_Continue _ _ _ _ _ E).
    destruct Hin as [-> | Hin].
    + destruct (Hx i) as (e & He). congruence.
    + destruct (IH Hin (S i)) as (e & He). exists e.
      now rewrite (bind_Throw _ _ _ _ _ He).
  - now destruct (Hr r).
  - exists e. now rewrite (bind_Throw _ _ _ _ _ E).
Qed.

(** X21.  getRestaurantMenu gives no partial menu: as soon as the product
    query of one of the categories rejects, the answer is the 500 failure,
    whatever the other categories hold. *)
Theorem getRestaurantMenu_fails_with_one_query w req log categories category e :
  ObjectId_isValid w (restaurantId req) = true ->
  Category_find w (categories_query req) = inr categories ->
  In category categories ->
  Product_find w (products_query req category) = inl e ->
  getRestaurantMenu w req log =
    (mkResponse 500
       (JObj [("message", JStr "Failed to fetch restaurant menu");
              ("messageType", JStr "failure");
              ("data", JNull)]), log).
Proof.
  intros Hv Hc Hin Hp.
  unfold getRestaurantMenu, try_catch. fold (restaurantId req).
  fold (categories_query req). rewrite Hv, Hc. cbn [negb].
  unfold bind at 1. cbn [eval ret].
  destruct categories as [| c cs]; [contradiction |].
  cbn [List.length Nat.eqb].
  destruct (map_from_throws
              (fun _ category => menu_entry w (restaurantId req) category)
              (c :: cs) category log) with (i := 0%nat) as (e' & He).
  - intros. apply menu_entry_quiet.
  - exact Hin.
  - intros _. exists e. unfold menu_entry.
    fold (products_query req category). now rewrite Hp.
  - now rewrite (bind_Throw _ _ _ _ _ He).
Qed.

Lemma getRestaurantMenu_fails_with_one_query_witness :
  getRestaurantMenu world_menu_broken Sample.menu_request [] =
    (mkResponse 500
       (JObj [("message", JStr "Failed to fetch restaurant menu");
              ("messageType", JStr "failure");
              ("data", JNull)]), []).
Proof.
  apply (getRestaurantMenu_fails_with_one_query
           world_menu_broken Sample.menu_request []
           [Sample.starters; Sample.desserts] Sample.desserts
           (Error "cursor timed out"));
    [reflexivity | reflexivity | right; left; reflexivity | reflexivity].
Defined.

End ReadFacts.

Module EarningTextFacts.
Import Js Http Controller Operations Spec Cases HandlerFacts JsFacts.
Local Open Scope handler_scope.

Lemma js_add_text_r nts a text :
  exists joined, js_add nts a (JStr text) = JStr joined.
Proof.
  unfold js_add. cbn [to_primitive].
  destruct (to_primitive nts a); eexists; reflexivity.
Qed.

Lemma js_add_text_l nts text b :
  exists joined, js_add nts (JStr text) b = JStr joined.
Proof. unfold js_add. cbn [to_primitive]. eexists; reflexivity. Qed.

(** Once the running total is a text, it stays one. *)
Lemma fold_accumulate_text w records :
  forall text r,
    exists joined r',
      fold_left (accumulate w) records (JStr text, r) = (JStr joined, r').
Proof.
  induction records as [| record rest IH]; intros text r; cbn [fold_left].
  - eauto.
  - unfold accumulate at 2. cbn [fst snd].
    destruct (js_add_text_l (Number_toString w) text
                (js_or (lookup "totalOrderAmount" record) (JNum (num_of_Z 0))))
      as (joined & ->).
    apply IH.
Qed.

Lemma fold_accumulate_meets_text w records record text :
  In record records ->
  lookup "totalOrderAmount" record = JStr text -> text <> "" ->
  forall acc,
    exists joined r',
      fold_left (accumulate w) records acc = (JStr joined, r').
Proof.
  intros Hin Ht Hne.
  induction records as [| first rest IH]; intro acc; [contradiction |].
  cbn [fold_left]. destruct Hin as [-> | Hin].
  - unfold accumulate at 2. rewrite Ht.
    assert (Hor : js_or (JStr text) (JNum (num_of_Z 0)) = JStr text).
    { unfold js_or. cbn [truthy].
      destruct (text =? "") eqn:E; [| reflexivity].
      apply String.eqb_eq in E. contradiction. }
    rewrite Hor.
    destruct (js_add_text_r (Number_toString w) (fst acc) text) as (joined & ->).
    apply fold_accumulate_text.
  - now apply IH.
Qed.

(** X24.  The totals are sums only as long as the stored amounts are
    numbers: as soon as one record has its totalOrderAmount stored as a
    non-empty text, the [+] of the reduction concatenates, and the
    totalAmount of the answer is a text, not a number. *)
Theorem earning_summary_concatenates_text_amounts
  w req log records record text :
  RestaurantEarning_find w (JObj [("restaurantId", restaurantId req)]) =
    inr records ->
  In record records ->
  lookup "totalOrderAmount" record = JStr text ->
  text <> "" ->
  exists joined totalRevenue,
    getRestaurantEarningSummary w req log =
      (mkResponse 200
         (JObj [("success", JBool true);
                ("summary",
                 JObj [("totalAmount", JStr joined);
                       ("totalRevenue", totalRevenue)])]), log).
Proof.
  intros Hf Hin Ht Hne.
  destruct (fold_accumulate_meets_text w records record text Hin Ht Hne
              (JNum (num_of_Z 0), JNum (num_of_Z 0))) as (joined & r' & E).
  exists joined, r'.
  unfold getRestaurantEarningSummary, try_catch. fold (restaurantId req).
  rewrite Hf. unfold bind, eval, ret. unfold summarize. now rewrite E.
Qed.

Lemma earning_summary_concatenates_text_amounts_witness :
  own (own (payload (fst (getRestaurantEarningSummary world_text_earnings
                            Sample.menu_request []))) "summary") "totalAmount"
    = JStr "10050" /\
  exists joined totalRevenue,
    getRestaurantEarningSummary world_text_earnings Sample.menu_request [] =
      (mkResponse 200
         (JObj [("success", JBool true);
                ("summary",
                 JObj [("totalAmount", JStr joined);
                       ("totalRevenue", totalRevenue)])]), []).
Proof.
  split; [reflexivity |].
  apply (earning_summary_concatenates_text_amounts
           world_text_earnings Sample.menu_request []
           [Sample.earning 100 10;
            [("totalOrderAmount", JStr "50");
             ("revenueShareAmount", JNum (num_of_Z 5))]]
           [("totalOrderAmount", JStr "50");
            ("revenueShareAmount", JNum (num_of_Z 5))] "50");
    [reflexivity | right; left; reflexivity | reflexivity | discriminate].
Defined.

End EarningTextFacts.

(* ===================================================================== *)
(** * updateBusinessHours: an array for the days                        *)
(* ===================================================================== *)

Module HoursArrayFacts.
Import Js Http Controller Operations Spec Cases HandlerFacts JsFacts.
Local Open Scope handler_scope.

(** X26.  updateBusinessHours takes an array for an object of days
    ([typeof] gives "object" for both) and goes through its indices as if
    they were day names: a non-empty array is answered 400 with the
    message "Invalid day: 0" and nothing is written, whatever its entries;
    the empty array passes the validation and, the restaurant being found
    and the save accepted, is stored as the business hours with the
    answer 200. *)
Theorem updateBusinessHours_reads_an_array_as_days w req log :
  truthy (restaurantId req) = true ->
  ObjectId_isValid w (restaurantId req) = true ->
  is_nullish (body req) = false ->
  (forall first rest,
     own (body req) "businessHours" = JArr (first :: rest) ->
     updateBusinessHours w req log =
       (mkResponse 400 (JObj [("message", JStr "Invalid day: 0")]), log)) /\
  (forall doc,
     own (body req) "businessHours" = JArr [] ->
     Restaurant_findById w (restaurantId req) = inr (Some doc) ->
     doc_save w (set_prop "businessHours" (JArr []) doc) = inr tt ->
     updateBusinessHours w req log =
       (mkResponse 200
          (JObj [("message", JStr "Business hours updated successfully.");
                 ("businessHours", JArr [])]),
        (log ++ [DocSaved (set_prop "businessHours" (JArr []) doc)])%list)).
Proof.
  intros Ht Hv Hb. split.
  - intros first rest Hh.
    unfold updateBusinessHours, try_catch. fold (restaurantId req).
    rewrite (get_not_nullish _ _ Hb), Hh.
    unfold bind at 1. cbn [eval ret]. rewrite Ht, Hv. reflexivity.
  - intros doc Hh Hf Hs.
    unfold updateBusinessHours, try_catch. fold (restaurantId req).
    rewrite (get_not_nullish _ _ Hb), Hh.
    unfold bind at 1. cbn [eval ret]. rewrite Ht, Hv.
    cbn [negb orb truthy typeof_object entries indexed check_days].
    unfold bind at 1, ret at 1. rewrite Hf.
    unfold bind at 1. cbn [eval ret]. cbn zeta. rewrite Hs.
    unfold bind, eval, ret, write. now rewrite lookup_set_prop_same.
Qed.

Lemma updateBusinessHours_reads_an_array_as_days_witness :
  updateBusinessHours Sample.world
    (mkRequest [("restaurantId", JStr Sample.sample_id)]
       (JObj [("businessHours",
               JArr [JObj [("day", JStr "monday"); ("closed", JBool true)]])])
       JUndefined) [] =
    (mkResponse 400 (JObj [("message", JStr "Invalid day: 0")]), []) /\
  updateBusinessHours Sample.world
    (mkRequest [("restaurantId", JStr Sample.sample_id)]
       (JObj [("businessHours", JArr [])]) JUndefined) [] =
    (mkResponse 200
       (JObj [("message", JStr "Business hours updated successfully.");
              ("businessHours", JArr [])]),
     [DocSaved (set_prop "businessHours" (JArr []) Sample.sample_restaurant)]).
Proof.
  split.
  - apply (proj1 (updateBusinessHours_reads_an_array_as_days
                    Sample.world
                    (mkRequest [("restaurantId", JStr Sample.sample_id)]
                       (JObj [("businessHours",
                               JArr [JObj [("day", JStr "monday");
                                           ("closed", JBool true)]])])
                       JUndefined) [] eq_refl eq_refl eq_refl)
             (JObj [("day", JStr "monday"); ("closed", JBool true)]) []).
    reflexivity.
  - apply (proj2 (updateBusinessHours_reads_an_array_as_days
                    Sample.world
                    (mkRequest [("restaurantId", JStr Sample.sample_id)]
                       (JObj [("businessHours", JArr [])]) JUndefined)
                    [] eq_refl eq_refl eq_refl)
             Sample.sample_restaurant); reflexivity.
Defined.

End HoursArrayFacts.
